(** * iWebShelter: the real-time room broadcast hub

    A shallow embedding of [src/api/websocket.py]: the [ConnectionManager]
    registry (connect, disconnect, broadcast, update_client_id,
    update_activity_time, check_timeout), the handshake and the receive loop
    of [websocket_endpoint]; of the sessions of [src/api/auth.py]; of the
    deletion notice of [src/api/records.py] and of the log adapter of
    [src/utils/logger.py]; followed by the properties of the hub.

    Conventions of the embedding.
    - A [WebSocket] object is known by its identity, a natural number.
    - Wall-clock readings ([datetime.now().timestamp()], a float with
      microsecond resolution) are integers counting microseconds; every
      operation that reads the clock takes the reading as an argument.
    - Strings are Rocq strings, sequences of 8-bit characters.  [isdigit]
      recognises the ASCII digits, so the embedding of a room identifier is
      the Python string on ASCII text only ([str.isdigit] holds of other
      digits too); the statements about identifiers that may come from
      outside say so, with [PyStr.isascii].
    - Dictionaries the code only looks up are [gmap]s.  Dictionaries the
      code iterates ([client_ids], [last_activity_times]) and JSON objects
      are insertion-ordered association lists, as Python's [dict] is.
    - [debug]-level log calls have no counterpart; [info] and [error] log
      calls and every [send_json] attempt are recorded in a trace.
    - [broadcast], [check_timeout_pass] and [handle_frame] are one call run
      without interleaving.  What other handlers do while a send of
      [broadcast] is awaited is in [broadcast_live], which walks the room's
      list as the iterator of the [for] loop does. *)

From Stdlib Require Import ZArith String Ascii DecimalString.
From stdpp Require Import gmap strings list fin_maps.

Local Open Scope Z_scope.
Local Set Warnings "-register-all".

(** ** Python strings *)

Module Py.

Definition is_ascii_digit (c : ascii) : bool :=
  ((48 <=? nat_of_ascii c)%nat && (nat_of_ascii c <=? 57)%nat)%bool.

Fixpoint all_digits (s : string) : bool :=
  match s with
  | EmptyString => true
  | String c r => is_ascii_digit c && all_digits r
  end.

(** [str.isdigit]: every character is a digit and there is at least one. *)
Definition isdigit (s : string) : bool :=
  match s with
  | EmptyString => false
  | _ => all_digits s
  end.

Fixpoint zeros (n : nat) : string :=
  match n with
  | O => EmptyString
  | S k => String "0" (zeros k)
  end.

(** [str.zfill]: left-pad with zeros up to [width], after a leading sign. *)
Definition zfill (width : nat) (s : string) : string :=
  let n := String.length s in
  if (width <=? n)%nat then s
  else match s with
       | String c r =>
           if (Ascii.eqb c "+" || Ascii.eqb c "-")%bool
           then String c (zeros (width - n) +:+ r)
           else zeros (width - n) +:+ s
       | EmptyString => zeros width
       end.

(** [str(n)] for an [int]. *)
Definition str_of_int (n : Z) : string :=
  NilZero.string_of_int (Z.to_int n).

(** [s[:n]] *)
Definition prefix (n : nat) (s : string) : string := String.substring 0 n s.

End Py.

(** ** Insertion-ordered dictionaries *)

(** An insertion-ordered dictionary is the list of its items. *)
Abbreviation odict K V := (list (K * V)) (only parsing).

Section odict.
Context {K V : Type} `{EqDecision K}.

(** [d.get(k)] *)
Fixpoint oget (k : K) (d : odict K V) : option V :=
  match d with
  | [] => None
  | (k', v) :: d' => if decide (k = k') then Some v else oget k d'
  end.

(** [k in d] *)
Definition omem (k : K) (d : odict K V) : bool :=
  match oget k d with Some _ => true | None => false end.

(** [d[k] = v]: an existing key keeps its position, a new one goes last. *)
Fixpoint oset (k : K) (v : V) (d : odict K V) : odict K V :=
  match d with
  | [] => [(k, v)]
  | (k', v') :: d' =>
      if decide (k = k') then (k, v) :: d' else (k', v') :: oset k v d'
  end.

(** [del d[k]] (the callers check [k in d] first). *)
Fixpoint odel (k : K) (d : odict K V) : odict K V :=
  match d with
  | [] => []
  | (k', v') :: d' =>
      if decide (k = k') then odel k d' else (k', v') :: odel k d'
  end.

(** [list(d.keys())] *)
Definition okeys (d : odict K V) : list K := d.*1.

End odict.

(** ** JSON values, frames and the object store *)

(** Values carried by a decoded frame.  Numbers are the integers. *)
Inductive json :=
| JNull
| JBool (b : bool)
| JNum (n : Z)
| JStr (s : string)
| JArr (xs : list json)
| JObj (fields : list (string * json)).

(** A decoded JSON object: a Python [dict] with string keys. *)
Abbreviation Message := (list (string * json)) (only parsing).

(** Python dictionaries are objects: [message.copy()] allocates a new one and
    item assignment mutates the one it is applied to.  The store keeps the
    top-level message objects; a reference is an index into it. *)
Abbreviation ref := nat (only parsing).
Abbreviation heap := (list Message) (only parsing).

(** The dictionary a reference points to.  References come from [alloc] and
    are always below the length of the store. *)
Definition deref (h : heap) (r : ref) : Message := default [] (h !! r).

Definition alloc (h : heap) (m : Message) : heap * ref := (h ++ [m], length h).

(** [message.copy()]: a new object with the same items. *)
Definition dict_copy (h : heap) (r : ref) : heap * ref := alloc h (deref h r).

(** [obj[key] = value] on the object behind [r]. *)
Definition setitem (h : heap) (r : ref) (key : string) (value : json) : heap :=
  <[r := oset key value (deref h r)]> h.

(** ** The registry *)

Abbreviation WebSocket := nat (only parsing).

(** An entry of [safe_room_ids] as the configuration file gives it. *)
Inductive cfg_room :=
| CfgInt (n : Z)
| CfgStr (s : string).

Inductive exn := KeyError | TypeError.

Inductive outcome := Returned | Raised (e : exn).

Inductive event :=
| Send (ws : WebSocket) (payload : Message) (delivered : bool)
| Info (name client_id room_id : string)
| InfoDuration (client_id room_id : string) (duration : Z)
| Error (name : string).

Record ConnectionManager := mkManager {
  active_connections : gmap string (list WebSocket);
  client_ids : odict WebSocket string;
  connection_times : gmap WebSocket Z;
  last_connection_times : gmap string (gmap string Z);
  last_refresh_times : gmap string (gmap string Z);
  last_activity_times : odict string (odict string Z);
  safe_room_ids : list cfg_room
}.

Definition init (safe : list cfg_room) : ConnectionManager :=
  mkManager ∅ [] ∅ ∅ ∅ [] safe.

Definition with_active_connections f (s : ConnectionManager) :=
  mkManager (f (active_connections s)) (client_ids s) (connection_times s)
    (last_connection_times s) (last_refresh_times s) (last_activity_times s)
    (safe_room_ids s).

Definition with_client_ids f (s : ConnectionManager) :=
  mkManager (active_connections s) (f (client_ids s)) (connection_times s)
    (last_connection_times s) (last_refresh_times s) (last_activity_times s)
    (safe_room_ids s).

Definition with_connection_times f (s : ConnectionManager) :=
  mkManager (active_connections s) (client_ids s) (f (connection_times s))
    (last_connection_times s) (last_refresh_times s) (last_activity_times s)
    (safe_room_ids s).

Definition with_last_connection_times f (s : ConnectionManager) :=
  mkManager (active_connections s) (client_ids s) (connection_times s)
    (f (last_connection_times s)) (last_refresh_times s)
    (last_activity_times s) (safe_room_ids s).

Definition with_last_refresh_times f (s : ConnectionManager) :=
  mkManager (active_connections s) (client_ids s) (connection_times s)
    (last_connection_times s) (f (last_refresh_times s))
    (last_activity_times s) (safe_room_ids s).

Definition with_last_activity_times f (s : ConnectionManager) :=
  mkManager (active_connections s) (client_ids s) (connection_times s)
    (last_connection_times s) (last_refresh_times s)
    (f (last_activity_times s)) (safe_room_ids s).

(** One second, in clock units. *)
Definition sec : Z := 1000000.

Definition unknown_client : string := "unknown_client".

(** The redaction placeholder. *)
Definition anonymous : string := "匿名".

(** [normalize_room_id] on a [str]. *)
Definition normalize_room_id (room_id : string) : string :=
  if Py.isdigit room_id then Py.zfill 6 room_id else room_id.

(** [[str(room).zfill(6) if isinstance(room, int) else room for room in
    self.safe_room_ids]] *)
Definition safe_rooms_str (safe : list cfg_room) : list string :=
  map (fun room =>
         match room with
         | CfgInt n => Py.zfill 6 (Py.str_of_int n)
         | CfgStr r => r
         end) safe.

(** [room in safe_rooms_str] *)
Definition in_safe_rooms_str (s : ConnectionManager) (room : string) : bool :=
  bool_decide (room ∈ safe_rooms_str (safe_room_ids s)).

(** [room in self.safe_room_ids]: a [str] never equals an [int]. *)
Definition in_safe_room_ids (s : ConnectionManager) (room : string) : bool :=
  existsb (fun entry =>
             match entry with
             | CfgInt _ => false
             | CfgStr r => bool_decide (room = r)
             end) (safe_room_ids s).

(** [l.remove(x)]: drops the first occurrence. *)
Fixpoint remove_first (x : WebSocket) (l : list WebSocket) : list WebSocket :=
  match l with
  | [] => []
  | y :: l' => if decide (x = y) then l' else y :: remove_first x l'
  end.

(** [connect], after [websocket.accept()] has returned. *)
Definition connect (websocket : WebSocket) (room_id : string) (now : Z)
    (s : ConnectionManager) : ConnectionManager :=
  let normalized_room_id := normalize_room_id room_id in
  let s1 :=
    match active_connections s !! normalized_room_id with
    | None =>
        with_last_refresh_times <[normalized_room_id := ∅]>
          (with_last_connection_times <[normalized_room_id := ∅]>
             (with_active_connections <[normalized_room_id := []]> s))
    | Some _ => s
    end in
  let conns := default [] (active_connections s1 !! normalized_room_id) in
  with_connection_times <[websocket := now]>
    (with_client_ids (oset websocket unknown_client)
       (with_active_connections
          <[normalized_room_id := conns ++ [websocket]]> s1)).

(** [disconnect]; [now] is the reading taken for [connection_end]. *)
Definition disconnect (websocket : WebSocket) (room_id : string) (now : Z)
    (s : ConnectionManager) : ConnectionManager * list event :=
  let normalized_room_id := normalize_room_id room_id in
  let client_id := default unknown_client (oget websocket (client_ids s)) in
  let is_already_disconnected :=
    bool_decide (connection_times s !! websocket = None) in
  let connection_start := default 0 (connection_times s !! websocket) in
  let connection_end := now in
  let duration := connection_end - connection_start in
  let s1 := with_connection_times (delete websocket) s in
  let s2 :=
    match active_connections s1 !! normalized_room_id with
    | Some conns =>
        if bool_decide (websocket ∈ conns) then
          match remove_first websocket conns with
          | [] =>
              with_last_refresh_times (delete normalized_room_id)
                (with_last_connection_times (delete normalized_room_id)
                   (with_active_connections (delete normalized_room_id) s1))
          | remaining =>
              let s' :=
                with_active_connections <[normalized_room_id := remaining]> s1 in
              match last_connection_times s' !! normalized_room_id with
              | Some times =>
                  if bool_decide (client_id ≠ unknown_client) then
                    with_last_connection_times
                      <[normalized_room_id := <[client_id := connection_end]> times]>
                      s'
                  else s'
              | None => s'
              end
          end
        else s1
    | None => s1
    end in
  let s3 := with_client_ids (odel websocket) s2 in
  let report :=
    if (bool_decide (duration > 5 * sec) && negb is_already_disconnected)%bool
    then
      let log_client_id :=
        if in_safe_rooms_str s normalized_room_id then anonymous
        else client_id in
      [InfoDuration log_client_id (normalize_room_id normalized_room_id) duration]
    else [] in
  (s3, report).

(** The two branches of the reconnect classifier. *)
Inductive decision := REFRESH | FRESH_CONNECT.

Definition last_connection (s : ConnectionManager) (room client_id : string) : Z :=
  default 0 (default ∅ (last_connection_times s !! room) !! client_id).

Definition last_refresh (s : ConnectionManager) (room client_id : string) : Z :=
  default 0 (default ∅ (last_refresh_times s !! room) !! client_id).

Definition classify (reconnect_time : Z) : decision :=
  if (bool_decide (reconnect_time > 0) && bool_decide (reconnect_time < 5 * sec))%bool
  then REFRESH else FRESH_CONNECT.

(** [self.last_activity_times[room] = self.last_activity_times.get(room, {});
    self.last_activity_times[room][client_id] = now] *)
Definition touch_activity (room client_id : string) (now : Z)
    (acts : odict string (odict string Z)) : odict string (odict string Z) :=
  oset room (oset client_id now (default [] (oget room acts))) acts.

(** [update_client_id].  The registry is returned as the call leaves it, also
    when the call raises. *)
Definition update_client_id (websocket : WebSocket) (client_id room_id : string)
    (current_time : Z) (s : ConnectionManager)
    : ConnectionManager * list event * outcome :=
  let normalized_room_id := normalize_room_id room_id in
  let s1 := with_client_ids (oset websocket client_id) s in
  let reconnect_time := current_time - last_connection s1 normalized_room_id client_id in
  let since_last_refresh := current_time - last_refresh s1 normalized_room_id client_id in
  let log_client_id :=
    if in_safe_rooms_str s1 normalized_room_id then anonymous else client_id in
  let formatted_room_id := normalize_room_id normalized_room_id in
  let branch : ConnectionManager * list event * outcome :=
    match classify reconnect_time with
    | REFRESH =>
        if bool_decide (since_last_refresh > 10 * sec) then
          match last_refresh_times s1 !! normalized_room_id with
          | Some times =>
              (with_last_refresh_times
                 <[normalized_room_id := <[client_id := current_time]> times]> s1,
               [Info "refresh" log_client_id formatted_room_id], Returned)
          | None =>
              (s1, [Info "refresh" log_client_id formatted_room_id], Raised KeyError)
          end
        else (s1, [], Returned)
    | FRESH_CONNECT =>
        (s1, [Info "connect" log_client_id formatted_room_id], Returned)
    end in
  match branch with
  | (s2, evs, Raised e) => (s2, evs, Raised e)
  | (s2, evs, Returned) =>
      match last_connection_times s2 !! normalized_room_id with
      | Some times =>
          let s3 :=
            with_last_connection_times
              <[normalized_room_id := <[client_id := current_time]> times]> s2 in
          (with_last_activity_times
             (touch_activity normalized_room_id client_id current_time) s3,
           evs, Returned)
      | None => (s2, evs, Raised KeyError)
      end
  end.

(** [update_activity_time] *)
Definition update_activity_time (room_id client_id : string) (now : Z)
    (s : ConnectionManager) : ConnectionManager :=
  with_last_activity_times
    (touch_activity (normalize_room_id room_id) client_id now) s.

(** ** Operations that talk to sockets *)

(** The summary the code computes for its log line: [None] when computing it
    raises ([content[:50] + ...] on a value that is not a string). *)
Definition content_summary (message : Message) : option json :=
  match oget "type" message with
  | Some (JStr "text") =>
      match default (JStr "") (oget "content" message) with
      | JStr content =>
          Some (JStr (Py.prefix 50 content +:+
                      (if (50 <? String.length content)%nat then "..." else "")))
      | _ => None
      end
  | Some (JStr "file") =>
      Some (default (JStr "unknown_file") (oget "filename" message))
  | _ => Some (JStr "")
  end.

Definition session_timeout_message : Message :=
  [("type", JStr "session_timeout"); ("message", JStr "会话已超时，请重新登录")].

Record broadcast_result := mkBroadcast {
  br_heap : heap;
  br_trace : list event;
  br_outcome : outcome;
  successful_sends : nat;
  failed_sends : nat
}.

Inductive session := Open | Closed.

Section Sockets.

(** Whether a [send_json] of a payload on a socket goes through; when it
    does not, [send_json] raises. *)
Variable send_json_ok : WebSocket -> Message -> bool.

(** The body of the [for connection in ...] loop of [broadcast], with its
    [try]/[except]: the store after it, what it did, and whether the send
    went through. *)
Definition broadcast_one (s : ConnectionManager) (normalized_room_id : string)
    (message : ref) (connection : WebSocket) (h : heap)
    : heap * list event * bool :=
  let '(h1, payload) :=
    if (in_safe_room_ids s normalized_room_id
        && omem "client_id" (deref h message))%bool
    then
      let '(h', message_copy) := dict_copy h message in
      let h'' := setitem h' message_copy "client_id" (JStr anonymous) in
      (h'', deref h'' message_copy)
    else (h, deref h message) in
  if send_json_ok connection payload
  then (h1, [Send connection payload true], true)
  else (h1, [Send connection payload false; Error "websocket_broadcast_error"],
        false).

Fixpoint broadcast_loop (s : ConnectionManager) (normalized_room_id : string)
    (message : ref) (conns : list WebSocket) (h : heap)
    (sent failed : nat) : heap * list event * nat * nat :=
  match conns with
  | [] => (h, [], sent, failed)
  | connection :: rest =>
      let '(h1, evs, ok) :=
        broadcast_one s normalized_room_id message connection h in
      let '(h2, evs', sent', failed') :=
        broadcast_loop s normalized_room_id message rest h1
          (if ok then S sent else sent) (if ok then failed else S failed) in
      (h2, evs ++ evs', sent', failed')
  end.

(** [broadcast]; the counters are the values of [successful_sends] and
    [failed_sends] when the loop ends. *)
Definition broadcast (room_id : string) (message : ref)
    (s : ConnectionManager) (h : heap) : broadcast_result :=
  let normalized_room_id := normalize_room_id room_id in
  match content_summary (deref h message) with
  | None => mkBroadcast h [] (Raised TypeError) 0 0
  | Some _ =>
      match active_connections s !! normalized_room_id with
      | Some conns =>
          let '(h', evs, sent, failed) :=
            broadcast_loop s normalized_room_id message conns h 0 0 in
          mkBroadcast h' evs Returned sent failed
      | None => mkBroadcast h [] Returned 0 0
      end
  end.

(** The search of [check_timeout] through [self.client_ids.items()]: the
    first socket bound to the label that is in the room's list. *)
Fixpoint bound_websocket (s : ConnectionManager) (room_id client_id : string)
    (items : odict WebSocket string) : option WebSocket :=
  match items with
  | [] => None
  | (websocket, conn_client_id) :: rest =>
      if (bool_decide (conn_client_id = client_id)
          && bool_decide (websocket ∈ default [] (active_connections s !! room_id)))%bool
      then Some websocket
      else bound_websocket s room_id client_id rest
  end.

Definition timeout_seconds : Z := 3600.

(** [del self.last_activity_times[room_id][client_id]], guarded as in the
    code. *)
Definition drop_activity (room_id client_id : string)
    (acts : odict string (odict string Z)) : odict string (odict string Z) :=
  match oget room_id acts with
  | Some clients =>
      if omem client_id clients
      then oset room_id (odel client_id clients) acts
      else acts
  | None => acts
  end.

(** A loop over a snapshot of keys, collecting the trace. *)
Fixpoint for_each {A} (body : A -> ConnectionManager -> ConnectionManager * list event)
    (xs : list A) (s : ConnectionManager) : ConnectionManager * list event :=
  match xs with
  | [] => (s, [])
  | x :: rest =>
      let '(s1, evs) := body x s in
      let '(s2, evs') := for_each body rest s1 in
      (s2, evs ++ evs')
  end.

(** The body of the loop over [clients_to_check], with its [try]/[except].
    [clock] gives the reading [disconnect] takes for a socket. *)
Definition check_client (current_time : Z) (clock : WebSocket -> Z)
    (room_id client_id : string) (s : ConnectionManager)
    : ConnectionManager * list event :=
  match oget room_id (last_activity_times s) with
  | None => (s, [Error "client_timeout_check_error"])
  | Some clients =>
      let last_activity := default 0 (oget client_id clients) in
      if bool_decide (current_time - last_activity > timeout_seconds * sec) then
        match bound_websocket s room_id client_id (client_ids s) with
        | Some websocket_to_remove =>
            let notice :=
              if send_json_ok websocket_to_remove session_timeout_message
              then
                let log_client_id :=
                  if in_safe_rooms_str s room_id then anonymous else client_id in
                [Send websocket_to_remove session_timeout_message true;
                 Info "session_timeout" log_client_id (normalize_room_id room_id)]
              else
                [Send websocket_to_remove session_timeout_message false;
                 Error "timeout_message_send_error"] in
            let s1 := with_last_activity_times (drop_activity room_id client_id) s in
            let '(s2, report) :=
              disconnect websocket_to_remove room_id (clock websocket_to_remove) s1 in
            (s2, notice ++ report)
        | None =>
            (with_last_activity_times (drop_activity room_id client_id) s, [])
        end
      else (s, [])
  end.

Definition check_room (current_time : Z) (clock : WebSocket -> Z)
    (room_id : string) (s : ConnectionManager) : ConnectionManager * list event :=
  match oget room_id (last_activity_times s) with
  | None => (s, [])
  | Some clients =>
      for_each (check_client current_time clock room_id) (okeys clients) s
  end.

(** The final loop of a pass, which drops the rooms whose activity map is
    empty. *)
Definition cleanup_room (room_id : string) (s : ConnectionManager)
    : ConnectionManager * list event :=
  match oget room_id (last_activity_times s) with
  | Some [] => (with_last_activity_times (odel room_id) s, [])
  | _ => (s, [])
  end.

(** One pass of the [while True] loop of [check_timeout]. *)
Definition check_timeout_pass (current_time : Z) (clock : WebSocket -> Z)
    (s : ConnectionManager) : ConnectionManager * list event :=
  let rooms_to_check := okeys (last_activity_times s) in
  let '(s1, evs) := for_each (check_room current_time clock) rooms_to_check s in
  let '(s2, evs') := for_each cleanup_room (okeys (last_activity_times s1)) s1 in
  (s2, evs ++ evs').

(** *** The receive loop of [websocket_endpoint] *)

(** [register_room_id]: the frame's [room_id] if it has one, else the
    socket's room; an [int] is rendered and padded.  [None] for the values
    the embedding does not render (arrays, objects, booleans, null). *)
Definition register_room_id (frame : Message) (room_id : string) : option string :=
  match oget "room_id" frame with
  | None => Some room_id
  | Some (JStr r) => Some r
  | Some (JNum n) => Some (Py.zfill 6 (Py.str_of_int n))
  | Some _ => None
  end.

(** The handler [except Exception] of the endpoint: log, then disconnect;
    the loop is left. *)
Definition close_on_error (websocket : WebSocket) (room_id : string) (now : Z)
    (s : ConnectionManager) (h : heap) (evs : list event)
    : ConnectionManager * heap * list event * session :=
  let '(s', report) := disconnect websocket room_id now s in
  (s', h, evs ++ Error "error" :: report, Closed).

(** The [try]/[except] around [manager.broadcast(room_id, data)] that
    follows the [if]/[elif]/[else] on the frame type. *)
Definition broadcast_frame (room_id client_id : string) (data : ref)
    (s : ConnectionManager) (h : heap) (evs : list event)
    : ConnectionManager * heap * list event * session :=
  let r := broadcast room_id data s h in
  let received := Info "websocket_message_received" client_id room_id in
  match br_outcome r with
  | Returned => (s, br_heap r, evs ++ br_trace r ++ [received], Open)
  | Raised _ =>
      (s, br_heap r,
       evs ++ br_trace r ++ [Error "websocket_broadcast_exception"; received],
       Open)
  end.

(** [UpdateActivity] for a socket that has identified itself. *)
Definition touch_if_identified (websocket : WebSocket) (room_id : string)
    (now : Z) (s : ConnectionManager) : string * ConnectionManager :=
  let client_id := default unknown_client (oget websocket (client_ids s)) in
  (client_id,
   if bool_decide (client_id ≠ unknown_client)
   then update_activity_time room_id client_id now s
   else s).

(** One turn of the [while True] loop, for the frame object [data] that
    [receive_json] returned; [now] is the clock reading of the turn.  The
    result is [None] for a register frame whose [client_id] is not a string
    or whose [room_id] is not rendered by [register_room_id]. *)
Definition handle_frame (websocket : WebSocket) (room_id : string) (data : ref)
    (now : Z) (s : ConnectionManager) (h : heap)
    : option (ConnectionManager * heap * list event * session) :=
  let frame := deref h data in
  match content_summary frame with
  | None => Some (close_on_error websocket room_id now s h [])
  | Some _ =>
      match oget "type" frame with
      | None => Some (close_on_error websocket room_id now s h [])
      | Some (JStr "register_client") =>
          match oget "client_id" frame with
          | None => Some (close_on_error websocket room_id now s h [])
          | Some (JStr client_id) =>
              match register_room_id frame room_id with
              | None => None
              | Some register_room =>
                  let log_client_id :=
                    if in_safe_rooms_str s room_id then anonymous else client_id in
                  match update_client_id websocket client_id register_room now s with
                  | (s1, evs, Raised _) =>
                      Some (close_on_error websocket room_id now s1 h evs)
                  | (s1, evs, Returned) =>
                      let s2 := update_activity_time room_id client_id now s1 in
                      Some (broadcast_frame room_id client_id data s2 h
                              (evs ++ [Info "websocket_client_registered"
                                         log_client_id room_id]))
                  end
              end
          | Some _ => None
          end
      | Some (JStr "ping") =>
          let pong :=
            [("type", JStr "pong");
             ("timestamp", default JNull (oget "timestamp" frame))] in
          if send_json_ok websocket pong then
            let '(client_id, s1) := touch_if_identified websocket room_id now s in
            Some (broadcast_frame room_id client_id data s1 h
                    [Send websocket pong true])
          else
            Some (close_on_error websocket room_id now s h
                    [Send websocket pong false])
      | Some _ =>
          let '(client_id, s1) := touch_if_identified websocket room_id now s in
          Some (broadcast_frame room_id client_id data s1 h [])
      end
  end.

End Sockets.

(** ** Views of the registry *)

(** The connections of a room. *)
Definition members (s : ConnectionManager) (room : string) : list WebSocket :=
  default [] (active_connections s !! room).

(** The last activity recorded for a label in a room. *)
Definition activity (s : ConnectionManager) (room client_id : string) : option Z :=
  oget room (last_activity_times s) ≫= oget client_id.

(** A room whose reconnect and refresh timing maps exist, as they do from the
    first [connect] to the room until its last [disconnect]. *)
Definition room_registered (s : ConnectionManager) (room : string) : Prop :=
  is_Some (last_connection_times s !! room) ∧
  is_Some (last_refresh_times s !! room).

Definition is_refresh_notice (e : event) : bool :=
  match e with
  | Info "refresh" _ _ => true
  | _ => false
  end.

Definition is_connect_notice (e : event) : bool :=
  match e with
  | Info "connect" _ _ => true
  | _ => false
  end.

(** How many refresh notifications a trace holds. *)
Definition refresh_notices (evs : list event) : nat :=
  length (List.filter is_refresh_notice evs).

Definition connect_notices (evs : list event) : nat :=
  length (List.filter is_connect_notice evs).

(** A room with one unidentified connection, used to exercise the lemmas. *)
Definition lobby : ConnectionManager := connect 1 "000123" (1000 * sec) (init []).

(** The [send_json] attempts of a trace: recipient, payload, and whether the
    send went through. *)
Definition sends (evs : list event) : list (WebSocket * Message * bool) :=
  omap (fun e => match e with
                 | Send ws payload ok => Some (ws, payload, ok)
                 | _ => None
                 end) evs.

Definition recipients (evs : list event) : list WebSocket := (sends evs).*1.*1.

(** A message with its [client_id] replaced by the placeholder. *)
Definition redacted (m : Message) : Message := oset "client_id" (JStr anonymous) m.

(** What [broadcast] puts on the wire for a room and a message. *)
Definition outbound (s : ConnectionManager) (room : string) (m : Message) : Message :=
  if (in_safe_room_ids s room && omem "client_id" m)%bool then redacted m else m.

(** A text message that carries its sender's label. *)
Definition alice_says_hi : list (string * json) :=
  [("type", JStr "text"); ("content", JStr "hi"); ("client_id", JStr "alice")].

(** A text message whose content is a number. *)
Definition numeric_text : list (string * json) :=
  [("type", JStr "text"); ("content", JNum 5)].

(** Room 000123 with two connections, declared safe by the integer 123. *)
Definition office : ConnectionManager :=
  connect 2 "000123" (1002 * sec) (connect 1 "000123" (1000 * sec) (init [CfgInt 123])).

(** The same room, declared safe by the string "000123". *)
Definition vault : ConnectionManager :=
  connect 2 "000123" (1002 * sec) (connect 1 "000123" (1000 * sec) (init [CfgStr "000123"])).

(** Sockets that accept every send. *)
Definition all_delivered (ws : nat) (payload : list (string * json)) : bool := true.

(** Socket 1 is dead, the others accept every send. *)
Definition first_dead (ws : nat) (payload : list (string * json)) : bool :=
  negb (ws =? 1)%nat.

(** ** Runs of the registry *)

(** The operations that change the registry.  ([broadcast] reads it only.) *)
Inductive op :=
| Connect (websocket : nat) (room_id : string) (now : Z)
| Disconnect (websocket : nat) (room_id : string) (now : Z)
| Identify (websocket : nat) (client_id room_id : string) (now : Z)
| UpdateActivity (room_id client_id : string) (now : Z)
| Sweep (send_json_ok : nat -> list (string * json) -> bool) (now : Z)
    (clock : nat -> Z).

Definition step (o : op) (s : ConnectionManager) : ConnectionManager * list event :=
  match o with
  | Connect websocket room_id now => (connect websocket room_id now s, [])
  | Disconnect websocket room_id now => disconnect websocket room_id now s
  | Identify websocket client_id room_id now =>
      ((update_client_id websocket client_id room_id now s).1.1,
       (update_client_id websocket client_id room_id now s).1.2)
  | UpdateActivity room_id client_id now =>
      (update_activity_time room_id client_id now s, [])
  | Sweep send_json_ok now clock => check_timeout_pass send_json_ok now clock s
  end.

Fixpoint run (ops : list op) (s : ConnectionManager) : ConnectionManager :=
  match ops with
  | [] => s
  | o :: rest => run rest (step o s).1
  end.

(** The operation is a [connect] of the given socket. *)
Definition connects (websocket : nat) (o : op) : bool :=
  match o with
  | Connect ws _ _ => bool_decide (ws = websocket)
  | _ => false
  end.

(** The operation writes the label of the given socket: its [connect] or its
    Identify. *)
Definition binds (websocket : nat) (o : op) : bool :=
  match o with
  | Connect ws _ _ | Identify ws _ _ _ => bool_decide (ws = websocket)
  | _ => false
  end.

(** Every room of the active connection map has a connection. *)
Definition rooms_nonempty (s : ConnectionManager) : Prop :=
  ∀ room conns, active_connections s !! room = Some conns → conns ≠ [].

(** What a sweep at time [now] leaves of an activity entry: nothing when the
    entry is older than the timeout, the entry itself otherwise. *)
Definition surviving (now t : Z) : option Z :=
  if decide (now - t > timeout_seconds * sec) then None else Some t.

(** Room 000123 with two connections; socket 1 identified as "alice" at
    1001 s and socket 2 as "bob" at 1003 s. *)
Definition duo : ConnectionManager :=
  run [Connect 1 "000123" (1000 * sec); Identify 1 "alice" "000123" (1001 * sec);
       Connect 2 "000123" (1002 * sec); Identify 2 "bob" "000123" (1003 * sec)]
    (init []).

(** A clock that reads 4602 s whenever a socket is torn down. *)
Definition at_4602 (ws : nat) : Z := 4602 * sec.

(** The time the last-connection map of a room holds for a label, if any. *)
Definition recorded (s : ConnectionManager) (room client_id : string) : option Z :=
  last_connection_times s !! room ≫= (fun times => times !! client_id).

(** "bob" keeps room 000123 open; "alice" leaves at 2000 s, and socket 2, the
    page she loads next, connects at 2001 s and has not identified itself. *)
Definition reloading : ConnectionManager :=
  run [Connect 10 "000123" (1000 * sec); Identify 10 "bob" "000123" (1001 * sec);
       Connect 1 "000123" (1002 * sec); Identify 1 "alice" "000123" (1003 * sec);
       Disconnect 1 "000123" (2000 * sec); Connect 2 "000123" (2001 * sec)]
    (init []).

Definition ping_frame : list (string * json) :=
  [("type", JStr "ping"); ("timestamp", JNum 7)].

Definition pong_reply : list (string * json) :=
  [("type", JStr "pong"); ("timestamp", JNum 7)].

Definition register_frame : list (string * json) :=
  [("type", JStr "register_client"); ("client_id", JStr "carol")].

Definition register_elsewhere : list (string * json) :=
  [("type", JStr "register_client"); ("client_id", JStr "carol");
   ("room_id", JStr "999999")].

(** A socket the registry holds nothing about. *)
Definition removed (websocket : nat) (s : ConnectionManager) : Prop :=
  connection_times s !! websocket = None
  ∧ oget websocket (client_ids s) = None
  ∧ ∀ room, websocket ∉ members s room.

(** Each socket sits at most once in a room's list and in one room only. *)
Definition sockets_unique (s : ConnectionManager) : Prop :=
  (∀ room, NoDup (members s room))
  ∧ (∀ room room' websocket,
       websocket ∈ members s room → websocket ∈ members s room' → room = room').

(** Every room of the active connection map has its two timing maps. *)
Definition rooms_registered (s : ConnectionManager) : Prop :=
  ∀ room, is_Some (active_connections s !! room) → room_registered s room.

(** An operation the endpoint can perform: a socket is connected once, when
    it is accepted, so a [Connect] is of a socket that is in no room. *)
Definition admissible (o : op) (s : ConnectionManager) : Prop :=
  match o with
  | Connect websocket _ _ => ∀ room, websocket ∉ members s room
  | _ => True
  end.

(** The registries that runs of admissible operations reach. *)
Inductive reachable : ConnectionManager → Prop :=
| reachable_init safe : reachable (init safe)
| reachable_step o s : reachable s → admissible o s → reachable (step o s).1.

(** "alice" reloads her page three times while "bob" keeps room 000123 open:
    she leaves at 2000 s, is back and identified at 2002 s, leaves at 2004 s,
    and socket 4, her next page, connects at 2005 s. *)
Definition reload_storm : ConnectionManager :=
  run [Connect 10 "000123" (1000 * sec); Identify 10 "bob" "000123" (1001 * sec);
       Connect 1 "000123" (1002 * sec); Identify 1 "alice" "000123" (1003 * sec);
       Disconnect 1 "000123" (2000 * sec); Connect 3 "000123" (2001 * sec);
       Identify 3 "alice" "000123" (2002 * sec);
       Disconnect 3 "000123" (2004 * sec); Connect 4 "000123" (2005 * sec)]
    (init []).

(** The storm goes on: identified at 2006 s, she leaves at 2008 s, and
    socket 5 connects at 2009 s. *)
Definition reload_storm_on : ConnectionManager :=
  run [Identify 4 "alice" "000123" (2006 * sec);
       Disconnect 4 "000123" (2008 * sec); Connect 5 "000123" (2009 * sec)]
    reload_storm.


(** ** Further views of the registry *)

(** The reconnect and refresh timing maps exist for no room without
    connections. *)
Definition timing_maps_bounded (s : ConnectionManager) : Prop :=
  ∀ room, active_connections s !! room = None →
    last_connection_times s !! room = None ∧ last_refresh_times s !! room = None.

(** The label a socket is bound to. *)
Definition label (s : ConnectionManager) (websocket : nat) : string :=
  default unknown_client (oget websocket (client_ids s)).

(** Each socket has one entry in the label dict, as the keys of a Python dict
    are distinct. *)
Definition labels_distinct (s : ConnectionManager) : Prop :=
  NoDup (okeys (client_ids s)).

(** A socket a sweep at [now] has no reason to evict: it sits in the room
    under a label whose activity entry, if there is one, is not older than
    the timeout. *)
Definition in_good_standing (now : Z) (websocket : nat) (room client_id : string)
    (s : ConnectionManager) : Prop :=
  websocket ∈ members s room
  ∧ oget websocket (client_ids s) = Some client_id
  ∧ ∀ t, activity s room client_id = Some t → now - t ≤ timeout_seconds * sec.

(** What the loops of a sweep keep for such a socket, with its connect
    time. *)
Definition standing (now : Z) (websocket : nat) (room client_id : string)
    (start : option Z) (s : ConnectionManager) : Prop :=
  sockets_unique s ∧ labels_distinct s
  ∧ in_good_standing now websocket room client_id s
  ∧ connection_times s !! websocket = start.

(** Nothing in the trace was sent to the socket. *)
Definition unaddressed (websocket : nat) (evs : list event) : Prop :=
  websocket ∉ recipients evs.

(** A run each of whose operations is admissible where it is performed. *)
Fixpoint admissible_run (ops : list op) (s : ConnectionManager) : Prop :=
  match ops with
  | [] => True
  | o :: rest => admissible o s ∧ admissible_run rest (step o s).1
  end.

(** Every room the registry holds connections for is keyed by a canonical
    identifier, one that [normalize_room_id] leaves as it is. *)
Definition rooms_canonical (s : ConnectionManager) : Prop :=
  ∀ room, is_Some (active_connections s !! room) → normalize_room_id room = room.

(** The same for the rooms of the activity map. *)
Definition activity_canonical (s : ConnectionManager) : Prop :=
  ∀ room, room ∈ okeys (last_activity_times s) → normalize_room_id room = room.

(** A socket whose label has gone stale: it sits in the room, it is the one
    connection of the room bound to the label, and the label's activity entry
    is older than the timeout. *)
Definition idle (now : Z) (websocket : nat) (room client_id : string)
    (s : ConnectionManager) : Prop :=
  websocket ∈ members s room
  ∧ oget websocket (client_ids s) = Some client_id
  ∧ (∀ w, w ∈ members s room → oget w (client_ids s) = Some client_id → w = websocket)
  ∧ ∃ t, activity s room client_id = Some t ∧ now - t > timeout_seconds * sec.

(** The timeout signal was sent, or tried, on the socket. *)
Definition signalled (websocket : nat) (evs : list event) : Prop :=
  ∃ ok, Send websocket session_timeout_message ok ∈ evs.

(** What the loops of a sweep keep until the stale entry's turn comes. *)
Definition awaiting (now : Z) (websocket : nat) (room client_id : string)
    (s : ConnectionManager) : Prop :=
  sockets_unique s ∧ labels_distinct s ∧ normalize_room_id room = room
  ∧ idle now websocket room client_id s.

(** ** Views of the receive loop *)

(** The three branches of the [if]/[elif]/[else] on [data['type']]. *)
Inductive frame_kind := RegisterFrame | PingFrame | PayloadFrame.

Definition kind_of (type : json) : frame_kind :=
  match type with
  | JStr "register_client" => RegisterFrame
  | JStr "ping" => PingFrame
  | _ => PayloadFrame
  end.

(** ** More of Python's strings *)

Module PyStr.

(** [c in s] for a one-character [c]. *)
Fixpoint contains (c : ascii) (s : string) : bool :=
  match s with
  | EmptyString => false
  | String a r => (Ascii.eqb a c || contains c r)%bool
  end.

(** [s.split(sep)] for a one-character separator. *)
Fixpoint split (sep : ascii) (s : string) : list string :=
  match s with
  | EmptyString => [EmptyString]
  | String a r =>
      if Ascii.eqb a sep then EmptyString :: split sep r
      else match split sep r with
           | piece :: pieces => String a piece :: pieces
           | [] => [String a EmptyString]
           end
  end.

(** [c.isspace()] for a character of a header value, whose code is below
    256. *)
Definition is_space (c : ascii) : bool :=
  let n := nat_of_ascii c in
  ((9 <=? n) && (n <=? 13) || (28 <=? n) && (n <=? 32)
   || (n =? 133) || (n =? 160))%nat%bool.

(** [s.lstrip()] *)
Fixpoint lstrip (s : string) : string :=
  match s with
  | EmptyString => EmptyString
  | String a r => if is_space a then lstrip r else s
  end.

(** [s.rstrip()] *)
Fixpoint rstrip (s : string) : string :=
  match s with
  | EmptyString => EmptyString
  | String a r =>
      match rstrip r with
      | EmptyString => if is_space a then EmptyString else String a EmptyString
      | kept => String a kept
      end
  end.

(** [s.strip()] *)
Definition strip (s : string) : string := rstrip (lstrip s).

(** [key, value = s.split(sep, 1)]: the text before the first [sep] and the
    text after it; [None] when there is no [sep] and the unpacking raises. *)
Fixpoint split_once (sep : ascii) (s : string) : option (string * string) :=
  match s with
  | EmptyString => None
  | String a r =>
      if Ascii.eqb a sep then Some (EmptyString, r)
      else match split_once sep r with
           | Some (key, value) => Some (String a key, value)
           | None => None
           end
  end.

(** [s.isascii()]: every character has a code below 128.  On such a string
    a character of the embedding is a code point of the Python string, its
    length is [len(s)], and [Py.isdigit] is [str.isdigit], which holds of
    digits beyond ASCII as well. *)
Fixpoint isascii (s : string) : bool :=
  match s with
  | EmptyString => true
  | String a r => ((nat_of_ascii a <? 128)%nat && isascii r)%bool
  end.

End PyStr.

(** ** Sessions: [auth.py] *)

(** What a route or a dependency gives: its value, or the [HTTPException] it
    raises. *)
Inductive reply (A : Type) :=
| Ok (value : A)
| HTTPException (status_code : Z) (detail : string).
Arguments Ok {A} value.
Arguments HTTPException {A} status_code detail.

(** [verify_room_id] *)
Definition verify_room_id (room_id : string) : bool :=
  ((String.length room_id =? 6)%nat && Py.isdigit room_id)%bool.

(** The constraints of [LoginRequest.room_id]: [min_length=1],
    [max_length=6]. *)
Definition LoginRequest (room_id : string) : Prop :=
  (1 ≤ String.length room_id ≤ 6)%nat.

(** [str(room_id_raw)] for the payloads whose rendering can be a number.
    The rendering of every other payload ([None], a bool, a list, a dict) has
    a character that is not a digit and fails the format check whatever the
    padding: [None] stands for these. *)
Definition str_of_payload (room_id_raw : json) : option string :=
  match room_id_raw with
  | JStr s => Some s
  | JNum n => Some (Py.str_of_int n)
  | _ => None
  end.

(** [rate_limiter]: the store after the call, and the exception if it
    raises.  [times] is [login_rate_limit_min] of the configuration. *)
Definition rate_limiter (times : Z) (path client_ip : string) (current_time : Z)
    (rate_limit_store : gmap string (Z * Z))
    : gmap string (Z * Z) * reply unit :=
  if bool_decide (path = "/api/login") then
    let seconds := 60 in
    match rate_limit_store !! client_ip with
    | Some (count, last_time) =>
        if bool_decide (current_time - last_time < seconds * sec) then
          if bool_decide (count >= times) then
            (rate_limit_store, HTTPException 429 "请求过于频繁，请稍后再试")
          else
            (<[client_ip := (count + 1, last_time)]> rate_limit_store, Ok ())
        else (<[client_ip := (1, current_time)]> rate_limit_store, Ok ())
    | None => (<[client_ip := (1, current_time)]> rate_limit_store, Ok ())
    end
  else (rate_limit_store, Ok ()).

Section Serializer.

(** The signer of the session cookie: [dumps] renders a payload as a token;
    [loads] gives the payload of a token at the time of the call, or [None]
    when it raises (a bad signature, a token older than [max_age]). *)
Variable dumps : json -> string.
Variable loads : string -> option json.

(** [get_room_id_from_cookie], on the cookies of the request. *)
Definition get_room_id_from_cookie (cookies : odict string string) : reply string :=
  match oget "room_session" cookies with
  | None | Some EmptyString => HTTPException 401 "Not authenticated"
  | Some cookie_value =>
      match loads cookie_value ≫= str_of_payload with
      | Some rendered =>
          let room_id := Py.zfill 6 rendered in
          if (negb (Py.isdigit room_id) || negb (String.length room_id =? 6)%nat)%bool
          then HTTPException 401 "Invalid session"
          else Ok room_id
      | None => HTTPException 401 "Invalid session"
      end
  end.

(** [login], for a request body that passed validation: the [room_id] of the
    response and the value of the [room_session] cookie. *)
Definition login (login_room_id : string) : reply (string * string) :=
  let room_id := Py.zfill 6 login_room_id in
  if negb (Py.isdigit room_id) then
    HTTPException 400 "房间号必须为数字格式"
  else if negb (String.length room_id =? 6)%nat then
    HTTPException 400 "房间号必须为6位数字"
  else Ok (room_id, dumps (JStr room_id)).

(** *** The handshake of [websocket_endpoint] *)

(** The loop of [MockRequest.__init__] over the pieces of the header. *)
Fixpoint mock_cookies (pieces : list string) (cookies : odict string string)
    : option (odict string string) :=
  match pieces with
  | [] => Some cookies
  | cookie :: rest =>
      if PyStr.contains "=" cookie then
        match PyStr.split_once "=" (PyStr.strip cookie) with
        | Some (key, value) => mock_cookies rest (oset key value cookies)
        | None => None
        end
      else mock_cookies rest cookies
  end.

(** [MockRequest(cookies_str).cookies]; [None] when the constructor
    raises. *)
Definition MockRequest (cookies_str : string) : option (odict string string) :=
  match cookies_str with
  | EmptyString => Some []
  | _ => mock_cookies (PyStr.split ";" cookies_str) []
  end.

(** How the handshake ends: the socket is closed with a code, or the endpoint
    goes on to [manager.connect] with the room. *)
Inductive handshake :=
| Close (code : Z) (reason : string)
| Proceed (room_id : string).

(** The checks of [websocket_endpoint] before [manager.connect]; [cookies] is
    the [cookie] header, empty when there is none. *)
Definition websocket_handshake (room_id cookies : string) : handshake :=
  if (negb (Py.isdigit room_id) || negb (String.length room_id =? 6)%nat)%bool
  then Close 4001 "Invalid room ID format"
  else
    let room_id := Py.zfill 6 room_id in
    match MockRequest cookies with
    | None => Close 4000 "Authentication error"
    | Some request_cookies =>
        match get_room_id_from_cookie request_cookies with
        | Ok auth_room_id =>
            if bool_decide (auth_room_id ≠ room_id)
            then Close 4003 "Room ID mismatch"
            else Proceed room_id
        | HTTPException _ _ => Close 4002 "Authentication required"
        end
    end.

(** How the opening of a session ends. *)
Inductive opening :=
| Refused (code : Z)
| Established
| AckRaised.

(** [websocket_endpoint] up to its receive loop: the handshake, then
    [manager.connect] and the confirmation message, which is sent outside the
    [try] of the loop. *)
Definition websocket_open (send_json_ok : WebSocket -> Message -> bool)
    (websocket : WebSocket) (room_id cookies : string) (now : Z)
    (s : ConnectionManager) : ConnectionManager * list event * opening :=
  match websocket_handshake room_id cookies with
  | Close code _ => (s, [], Refused code)
  | Proceed room_id =>
      let s1 := connect websocket room_id now s in
      let established :=
        [("type", JStr "connection_established"); ("room_id", JStr room_id)] in
      if send_json_ok websocket established
      then (s1, [Send websocket established true], Established)
      else (s1, [Send websocket established false], AckRaised)
  end.

End Serializer.

(** ** Views of the sessions *)

(** A signer for the examples: the token of a room is the room after a
    one-letter tag. *)
Definition tag_dumps (payload : json) : string :=
  match payload with
  | JStr s => String "t" s
  | _ => EmptyString
  end.

Definition tag_loads (token : string) : option json :=
  match token with
  | String "t" s => Some (JStr s)
  | _ => None
  end.

(** The requests that reach [rate_limiter], in order, each with its path, its
    address and the clock reading: the verdict on each, and the store they
    leave. *)
Fixpoint serve (times : Z) (requests : list (string * string * Z))
    (rate_limit_store : gmap string (Z * Z))
    : list (reply unit) * gmap string (Z * Z) :=
  match requests with
  | [] => ([], rate_limit_store)
  | (path, client_ip, current_time) :: rest =>
      let '(store1, verdict) :=
        rate_limiter times path client_ip current_time rate_limit_store in
      let '(verdicts, store2) := serve times rest store1 in
      (verdict :: verdicts, store2)
  end.

(** Login attempts of one address at the given times. *)
Definition attempts (client_ip : string) (ts : list Z) : list (string * string * Z) :=
  map (fun t => ("/api/login", client_ip, t)) ts.

Definition let_through (verdict : reply unit) : bool :=
  match verdict with
  | Ok _ => true
  | HTTPException _ _ => false
  end.

(** The verdicts on the requests of one address. *)
Fixpoint verdicts_of (client_ip : string) (requests : list (string * string * Z))
    (verdicts : list (reply unit)) : list (reply unit) :=
  match requests, verdicts with
  | (_, ip, _) :: requests', verdict :: verdicts' =>
      if decide (ip = client_ip)
      then verdict :: verdicts_of client_ip requests' verdicts'
      else verdicts_of client_ip requests' verdicts'
  | _, _ => []
  end.

(** ** The deletion notice of [records.py] *)

(** The message [delete_record] builds for a record of a room. *)
Definition delete_message (record_id : Z) (room_id : string) : Message :=
  [("type", JStr "record_delete"); ("record_id", JNum record_id);
   ("room_id", JStr room_id)].

(** ** The log adapter of [logger.py] *)

Section ContextAdapter.
Context {V : Type}.

(** The value a string is among the values of the log fields. *)
Variable of_str : string -> V.

(** [d.update(e)] *)
Definition dict_update (d e : odict string V) : odict string V :=
  fold_left (fun acc kv => oset kv.1 kv.2 acc) e d.

(** The body of the loop of [process] over the fields of [extra]. *)
Definition copy_field (fields : odict string V) (kv : string * V)
    : odict string V :=
  if bool_decide (kv.1 = "filename") then oset "upload_filename" kv.2 fields
  else if bool_decide (kv.1 ∈ ["filename"; "module"; "lineno"; "pathname"; "funcName"])
       then fields
       else oset kv.1 kv.2 fields.

(** [ContextAdapter.process]: the [extra] of the [kwargs] it returns, for
    the adapter's own [extra], the message, and [kwargs['extra']] when the
    call gives one. *)
Definition process (self_extra : odict string V) (msg : string)
    (kwargs_extra : option (odict string V)) : odict string V :=
  let extra :=
    match kwargs_extra with
    | Some e => dict_update self_extra e
    | None => self_extra
    end in
  let user_id :=
    default (default (of_str "unknown") (oget "client_id" extra))
            (oget "user_id" extra) in
  let event := default (of_str msg) (oget "event" extra) in
  let room_id := default (of_str "") (oget "room_id" extra) in
  fold_left copy_field extra
    [("user_id", user_id); ("event", event); ("room_id", room_id)].

End ContextAdapter.

(** The names [process] keeps out of the log fields. *)
Definition builtin_fields : list string :=
  ["filename"; "module"; "lineno"; "pathname"; "funcName"].

(** ** The whole session *)

(** The [while True] loop of [websocket_endpoint] for one socket, over the
    frames it delivers with the clock reading of each turn; every frame is an
    object of its own.  When no frame is left the peer has gone:
    [receive_json] raises [WebSocketDisconnect] and the handler disconnects
    the socket, at the reading [closing].  The result is [None] when a frame
    is one [handle_frame] has no result for. *)
Fixpoint session_loop (send_json_ok : WebSocket -> Message -> bool)
    (websocket : WebSocket) (room_id : string) (frames : list (Message * Z))
    (closing : Z) (s : ConnectionManager) (h : heap)
    : option (ConnectionManager * heap * list event) :=
  match frames with
  | [] =>
      let '(s', report) := disconnect websocket room_id closing s in
      Some (s', h, report)
  | (frame, now) :: rest =>
      let '(h0, data) := alloc h frame in
      match handle_frame send_json_ok websocket room_id data now s h0 with
      | None => None
      | Some (s1, h1, evs, Closed) => Some (s1, h1, evs)
      | Some (s1, h1, evs, Open) =>
          match session_loop send_json_ok websocket room_id rest closing s1 h1 with
          | Some (s2, h2, evs') => Some (s2, h2, evs ++ evs')
          | None => None
          end
      end
  end.

(** A frame the embedding has a turn for: if it is a register frame with a
    [client_id], the [client_id] is a string and the [room_id], when there
    is one, is a string or an integer.  (A [client_id] that is a list or an
    object makes [update_client_id] raise on its first lookup, and
    [disconnect] again in the handler.) *)
Definition register_typed (room_id : string) (frame : Message) : Prop :=
  ∀ type, oget "type" frame = Some type → kind_of type = RegisterFrame →
    oget "client_id" frame = None
    ∨ ∃ client_id,
        oget "client_id" frame = Some (JStr client_id)
        ∧ is_Some (register_room_id frame room_id).

(** ** Broadcast while other handlers run *)

(** The registry after the operations other handlers perform while a send is
    awaited, and whether the list the loop of [broadcast] walks is still the
    room's list: it is not once the room has been deleted, even when a later
    [connect] makes the room anew, with a list of its own. *)
Fixpoint interfere (normalized_room_id : string) (ops : list op)
    (s : ConnectionManager) (attached : bool) : ConnectionManager * bool :=
  match ops with
  | [] => (s, attached)
  | o :: rest =>
      let s' := (step o s).1 in
      interfere normalized_room_id rest s'
        (attached
         && bool_decide (is_Some (active_connections s' !! normalized_room_id)))
  end.

Section Live.

Variable send_json_ok : WebSocket -> Message -> bool.

(** The loop of [broadcast] as the list iterator runs it: the iterator holds
    the list object and an index, and each turn takes the element the list
    has at the index then.  [schedule] gives, for each awaited send in
    order, the operations other handlers perform meanwhile; when it is used
    up nobody else runs any more.  A list that is no longer the room's was
    empty when the room was deleted and stays so. *)
Fixpoint broadcast_live_loop (schedule : list (list op)) (s : ConnectionManager)
    (normalized_room_id : string) (message : ref) (attached : bool) (index : nat)
    (h : heap) (sent failed : nat)
    : ConnectionManager * heap * list event * nat * nat :=
  let conns :=
    if attached then default [] (active_connections s !! normalized_room_id)
    else [] in
  match schedule with
  | [] =>
      let '(h', evs, sent', failed') :=
        broadcast_loop send_json_ok s normalized_room_id message
          (drop index conns) h sent failed in
      (s, h', evs, sent', failed')
  | ops :: schedule' =>
      match conns !! index with
      | None => (s, h, [], sent, failed)
      | Some connection =>
          let '(h1, evs, ok) :=
            broadcast_one send_json_ok s normalized_room_id message connection h in
          let '(s1, attached1) := interfere normalized_room_id ops s attached in
          let '(s2, h2, evs', sent', failed') :=
            broadcast_live_loop schedule' s1 normalized_room_id message attached1
              (S index) h1
              (if ok then S sent else sent) (if ok then failed else S failed) in
          (s2, h2, evs ++ evs', sent', failed')
      end
  end.

(** [broadcast] with other handlers running during its sends: the registry
    they leave, and the result of the call.  After the loop the code reads
    the room's list once more, for its length, which raises [KeyError] when
    the room is gone. *)
Definition broadcast_live (schedule : list (list op)) (room_id : string)
    (message : ref) (s : ConnectionManager) (h : heap)
    : ConnectionManager * broadcast_result :=
  let normalized_room_id := normalize_room_id room_id in
  match content_summary (deref h message) with
  | None => (s, mkBroadcast h [] (Raised TypeError) 0 0)
  | Some _ =>
      match active_connections s !! normalized_room_id with
      | Some _ =>
          let '(s', h', evs, sent, failed) :=
            broadcast_live_loop schedule s normalized_room_id message true 0 h 0 0 in
          (s',
           mkBroadcast h' evs
             (match active_connections s' !! normalized_room_id with
              | Some _ => Returned
              | None => Raised KeyError
              end)
             sent failed)
      | None => (s, mkBroadcast h [] Returned 0 0)
      end
  end.

End Live.

(** No other handler runs during the call. *)
Definition undisturbed (schedule : list (list op)) : Prop :=
  Forall (fun ops => ops = []) schedule.

(** The task [delete_record] creates, with other handlers running during its
    sends. *)
Definition broadcast_delete_live (send_json_ok : WebSocket -> Message -> bool)
    (schedule : list (list op)) (record_id : Z) (room_id : string)
    (s : ConnectionManager) (h : heap) : ConnectionManager * broadcast_result :=
  let '(h1, message) := alloc h (delete_message record_id room_id) in
  broadcast_live send_json_ok schedule room_id message s h1.

(** ** Views of the classifier over runs *)

(** The operation is an Identify of the label in the room. *)
Definition identifies (client_id room : string) (o : op) : bool :=
  match o with
  | Identify _ c r _ => bool_decide (c = client_id ∧ normalize_room_id r = room)
  | _ => false
  end.

(** The room has connections before the run and after each of its
    operations. *)
Fixpoint room_kept (room : string) (ops : list op) (s : ConnectionManager) : Prop :=
  is_Some (active_connections s !! room)
  ∧ match ops with
    | [] => True
    | o :: rest => room_kept room rest (step o s).1
    end.

(** "alice" has room 000123 open in one tab, identified at 1001 s, and opens
    a second tab, socket 2, at 1001 s. *)
Definition second_tab : ConnectionManager :=
  run [Connect 1 "000123" (1000 * sec); Identify 1 "alice" "000123" (1001 * sec);
       Connect 2 "000123" (1001 * sec)]
    (init []).

(** The second tab is identified at 1002 s; both tabs are closed at 1003 s,
    which empties the room; a new tab is opened and identified at 1005 s, and
    one more, socket 4, is opened. *)
Definition reopened : ConnectionManager :=
  run [Identify 2 "alice" "000123" (1002 * sec);
       Disconnect 1 "000123" (1003 * sec); Disconnect 2 "000123" (1003 * sec);
       Connect 3 "000123" (1004 * sec); Identify 3 "alice" "000123" (1005 * sec);
       Connect 4 "000123" (1005 * sec)]
    second_tab.

(** ** Views of a sweep's trace *)

(** What a sweep may put in the trace: the timeout signal with the outcome
    the socket's send had, its log line or that of the failed send, and the
    disconnect report.  The record of an entry's handler having failed,
    [client_timeout_check_error], is not among them. *)
Definition sweep_log (send_json_ok : WebSocket -> Message -> bool) (e : event) : Prop :=
  match e with
  | Send websocket payload delivered =>
      payload = session_timeout_message ∧ delivered = send_json_ok websocket payload
  | Info name _ _ => name = "session_timeout"
  | InfoDuration _ _ _ => True
  | Error name => name = "timeout_message_send_error"
  end.

(** * Properties *)

(** ** Ordered dictionaries *)

Section odict_facts.
Context {K V : Type} `{EqDecision K}.
Implicit Types (d : odict K V) (k : K) (v : V).

Lemma oget_oset_eq k v d : oget k (oset k v d) = Some v.
Proof.
  induction d as [|[k' v'] d IH]; simpl.
  - by rewrite decide_True.
  - destruct (decide (k = k')) as [->|Hne]; simpl.
    + by rewrite decide_True.
    + by rewrite decide_False.
Qed.

Lemma oget_oset_ne k k' v d : k ≠ k' → oget k' (oset k v d) = oget k' d.
Proof.
  intros Hne. induction d as [|[k0 v0] d IH]; simpl.
  - by rewrite decide_False.
  - destruct (decide (k = k0)) as [->|Hk]; simpl.
    + by rewrite !decide_False.
    + by rewrite IH.
Qed.

Lemma oget_odel_eq k d : oget k (odel k d) = None.
Proof.
  induction d as [|[k' v'] d IH]; simpl; [done|].
  destruct (decide (k = k')) as [->|Hne]; simpl; [done|].
  by rewrite decide_False.
Qed.

Lemma oget_odel_ne k k' d : k ≠ k' → oget k' (odel k d) = oget k' d.
Proof.
  intros Hne. induction d as [|[k0 v0] d IH]; simpl; [done|].
  destruct (decide (k = k0)) as [->|Hk]; simpl.
  - by rewrite decide_False.
  - by rewrite IH.
Qed.

Lemma odel_absent k d : oget k d = None → odel k d = d.
Proof.
  induction d as [|[k' v'] d IH]; simpl; [done|].
  destruct (decide (k = k')); [done|]. intros Hd. by rewrite IH.
Qed.

Lemma odel_idemp k d : odel k (odel k d) = odel k d.
Proof. apply odel_absent, oget_odel_eq. Qed.

Lemma oget_Some_keys k v d : oget k d = Some v → k ∈ okeys d.
Proof.
  induction d as [|[k' v'] d IH]; simpl; [done|].
  destruct (decide (k = k')) as [->|Hne]; intros Hd.
  - apply list_elem_of_here.
  - apply list_elem_of_further, IH, Hd.
Qed.

Lemma omem_true k d : omem k d = true ↔ is_Some (oget k d).
Proof.
  unfold omem. destruct (oget k d); split; intros Hm; eauto; try done.
Qed.

End odict_facts.

(** ** Activity stamps and the classifier's window *)

Lemma activity_touch room client_id now acts :
  oget room (touch_activity room client_id now acts) ≫= oget client_id = Some now.
Proof.
  unfold touch_activity. rewrite oget_oset_eq. simpl. apply oget_oset_eq.
Qed.

Lemma classify_refresh_iff (dt : Z) :
  classify dt = REFRESH ↔ 0 < dt < 5 * sec.
Proof.
  unfold classify. repeat case_bool_decide; simpl; split; intros; (done || lia).
Qed.

(** ** Identification and the reconnect classifier *)

Lemma update_client_id_binds websocket client_id room_id now s :
  oget websocket (client_ids (update_client_id websocket client_id room_id now s).1.1)
  = Some client_id.
Proof.
  unfold update_client_id.
  repeat (case_match; simpl in *; simplify_eq); simpl; apply oget_oset_eq.
Qed.

Lemma update_client_id_registered websocket client_id room_id t1 s :
  let R := normalize_room_id room_id in
  let t0 := last_connection s R client_id in
  let lr := last_refresh s R client_id in
  room_registered s R →
  ∃ s1 evs,
    update_client_id websocket client_id room_id t1 s = (s1, evs, Returned)
    ∧ room_registered s1 R
    ∧ last_connection s1 R client_id = t1
    ∧ activity s1 R client_id = Some t1
    ∧ (connect_notices evs = 1%nat ↔ ¬ (0 < t1 - t0 < 5 * sec))
    ∧ (connect_notices evs = 0%nat ↔ 0 < t1 - t0 < 5 * sec)
    ∧ (refresh_notices evs = 1%nat ↔ 0 < t1 - t0 < 5 * sec ∧ t1 - lr > 10 * sec)
    ∧ (refresh_notices evs = 0%nat ↔ ¬ (0 < t1 - t0 < 5 * sec ∧ t1 - lr > 10 * sec))
    ∧ last_refresh s1 R client_id = (if decide (refresh_notices evs = 1%nat) then t1 else lr).
Proof.
  intros R t0 lr [[lc Hlc] [lf Hlf]].
  pose proof (classify_refresh_iff (t1 - t0)) as Hcl.
  unfold update_client_id. fold R. 
  change (last_connection (with_client_ids _ s) R client_id) with t0.
  change (last_refresh (with_client_ids _ s) R client_id) with lr.
  destruct (classify (t1 - t0)) eqn:Hc.
  - assert (0 < t1 - t0 < 5 * sec) as Hin by (by apply Hcl).
    case_bool_decide as Hlr; simpl.
    + rewrite Hlf. simpl. rewrite Hlc.
      eexists _, _. split; [reflexivity|].
      unfold room_registered, last_connection, last_refresh, activity,
        refresh_notices, connect_notices; simpl.
      rewrite !lookup_insert_eq. simpl. rewrite !lookup_insert_eq. simpl.
      rewrite activity_touch.
      repeat split; eauto; intros; try done; try lia;
      try (unfold lr, last_refresh; by rewrite Hlf).
    + rewrite Hlc. eexists _, _. split; [reflexivity|].
      unfold room_registered, last_connection, last_refresh, activity,
        refresh_notices, connect_notices; simpl.
      rewrite !lookup_insert_eq. simpl. rewrite !lookup_insert_eq. simpl.
      rewrite activity_touch. rewrite Hlf.
      repeat split; eauto; intros; try done; try lia;
      try (unfold lr, last_refresh; by rewrite Hlf).
  - assert (¬ 0 < t1 - t0 < 5 * sec) as Hout.
    { intros Hin. apply Hcl in Hin. done. }
    simpl. rewrite Hlc. eexists _, _. split; [reflexivity|].
    unfold room_registered, last_connection, last_refresh, activity,
      refresh_notices, connect_notices; simpl.
    rewrite !lookup_insert_eq. simpl. rewrite !lookup_insert_eq. simpl.
    rewrite activity_touch. rewrite Hlf.
    repeat split; eauto; intros; try done; try lia;
      try (unfold lr, last_refresh; by rewrite Hlf).
Qed.


(** C3. Identify on a room without registry state does not complete: whatever
    the time and the label, [update_client_id] raises [KeyError] when the
    room has no last-connection map. *)
Theorem update_client_id_unknown_room_raises websocket client_id room_id now s :
  last_connection_times s !! normalize_room_id room_id = None →
  (update_client_id websocket client_id room_id now s).2 = Raised KeyError.
Proof.
  intros Hnone. unfold update_client_id.
  repeat (case_match; simpl in *; simplify_eq); done.
Qed.

Lemma update_client_id_unknown_room_raises_witness :
  last_connection_times lobby !! normalize_room_id "999999" = None
  ∧ (update_client_id 1 "alice" "999999" (2000 * sec) lobby).2 = Raised KeyError.
Proof.
  split; [reflexivity|].
  apply (update_client_id_unknown_room_raises 1 "alice" "999999" (2000 * sec) lobby).
  reflexivity.
Defined.

(** ** Broadcast *)

Section broadcast_facts.
Variable send_json_ok : WebSocket -> Message -> bool.
Implicit Types (s : ConnectionManager) (h : heap) (message : ref).

Lemma deref_stable h h' message :
  (message < length h)%nat →
  (∀ r, (r < length h)%nat → h' !! r = h !! r) →
  deref h' message = deref h message.
Proof. intros Hlt Hsame. unfold deref. by rewrite Hsame. Qed.

Lemma broadcast_one_spec s R message connection h :
  (message < length h)%nat →
  ∃ h1,
    let payload := outbound s R (deref h message) in
    let ok := send_json_ok connection payload in
    broadcast_one send_json_ok s R message connection h
    = (h1, Send connection payload ok ::
           (if ok then [] else [Error "websocket_broadcast_error"]), ok)
    ∧ (length h ≤ length h1)%nat
    ∧ (∀ r, (r < length h)%nat → h1 !! r = h !! r).
Proof.
  intros Hlt. unfold broadcast_one, outbound.
  destruct (in_safe_room_ids s R && omem "client_id" (deref h message))%bool.
  - unfold dict_copy, alloc, setitem, redacted.
    set (h' := h ++ [deref h message]).
    assert (deref h' (length h) = deref h message) as Hnew.
    { unfold deref, h'. by rewrite lookup_app_r, Nat.sub_diag. }
    assert (deref (<[length h := oset "client_id" (JStr anonymous) (deref h' (length h))]> h')
              (length h) = oset "client_id" (JStr anonymous) (deref h message)) as Hpay.
    { unfold deref at 1. rewrite list_lookup_insert_eq.
      - simpl. by rewrite Hnew.
      - unfold h'. rewrite length_app. simpl. lia. }
    rewrite Hpay. eexists. split; [by destruct (send_json_ok _ _)|]. split.
    + rewrite length_insert. unfold h'. rewrite length_app. lia.
    + intros r Hr. rewrite list_lookup_insert_ne by lia.
      unfold h'. by rewrite lookup_app_l.
  - exists h. split; [by destruct (send_json_ok _ _)|]. split; [lia|done].
Qed.

Lemma sends_app evs evs' : sends (evs ++ evs') = sends evs ++ sends evs'.
Proof. unfold sends. apply omap_app. Qed.

Lemma broadcast_loop_spec s R message conns : ∀ h sent failed,
  (message < length h)%nat →
  ∃ h',
    let payload := outbound s R (deref h message) in
    let evs := (broadcast_loop send_json_ok s R message conns h sent failed).1.1.2 in
    let sent' := (broadcast_loop send_json_ok s R message conns h sent failed).1.2 in
    let failed' := (broadcast_loop send_json_ok s R message conns h sent failed).2 in
    (broadcast_loop send_json_ok s R message conns h sent failed).1.1.1 = h'
    ∧ sends evs = map (fun ws => (ws, payload, send_json_ok ws payload)) conns
    ∧ sent' = (sent + length (filter (fun ws => send_json_ok ws payload = true) conns))%nat
    ∧ failed' = (failed + length (filter (fun ws => send_json_ok ws payload ≠ true) conns))%nat
    ∧ (length h ≤ length h')%nat
    ∧ (∀ r, (r < length h)%nat → h' !! r = h !! r).
Proof.
  induction conns as [|connection rest IH]; intros h sent failed Hlt.
  - exists h. simpl. repeat split; try done; lia.
  - destruct (broadcast_one_spec s R message connection h Hlt)
      as (h1 & Hone & Hlen & Hkeep).
    simpl in Hone. simpl. rewrite Hone.
    set (payload := outbound s R (deref h message)) in *.
    set (ok := send_json_ok connection payload) in *.
    assert (message < length h1)%nat as Hlt1 by lia.
    destruct (IH h1 (if ok then S sent else sent) (if ok then failed else S failed) Hlt1)
      as (h' & Hh' & Hs & Hsent & Hfailed & Hlen' & Hkeep').
    simpl in Hh', Hs, Hsent, Hfailed.
    rewrite (deref_stable h h1 message Hlt Hkeep) in Hs, Hsent, Hfailed.
    fold payload in Hs, Hsent, Hfailed.
    destruct (broadcast_loop send_json_ok s R message rest h1 _ _)
      as [[[h2 evs'] sent'] failed'] eqn:Hloop.
    simpl in *. subst h2. exists h'. split; [done|]. split.
    { rewrite sends_app, Hs. by destruct ok. }
    rewrite filter_cons. rewrite (filter_cons (fun ws => send_json_ok ws payload ≠ true)).
    fold ok. destruct ok eqn:Hok.
    + rewrite decide_True by done. rewrite decide_False by (by intros []).
      simpl. repeat split; try lia.
      intros r Hr. rewrite Hkeep' by lia. by apply Hkeep.
    + rewrite decide_False by done. rewrite decide_True by done.
      simpl. repeat split; try lia.
      intros r Hr. rewrite Hkeep' by lia. by apply Hkeep.
Qed.

Lemma filter_split_length {A} (P : A → Prop) `{∀ x, Decision (P x)} (l : list A) :
  (length (filter P l) + length (filter (fun x => ¬ P x) l) = length l)%nat.
Proof.
  induction l as [|x l IH]; [done|].
  rewrite !filter_cons. destruct (decide (P x)).
  - rewrite decide_False by tauto. simpl. lia.
  - rewrite decide_True by done. simpl. lia.
Qed.

(** What a call that gets past the log summary does. *)
Lemma broadcast_spec room_id message s h :
  (message < length h)%nat →
  is_Some (content_summary (deref h message)) →
  let R := normalize_room_id room_id in
  let payload := outbound s R (deref h message) in
  let r := broadcast send_json_ok room_id message s h in
  br_outcome r = Returned
  ∧ sends (br_trace r)
    = map (fun ws => (ws, payload, send_json_ok ws payload)) (members s R)
  ∧ successful_sends r
    = length (filter (fun ws => send_json_ok ws payload = true) (members s R))
  ∧ failed_sends r
    = length (filter (fun ws => send_json_ok ws payload ≠ true) (members s R))
  ∧ (length h ≤ length (br_heap r))%nat
  ∧ (∀ o, (o < length h)%nat → br_heap r !! o = h !! o).
Proof.
  intros Hlt [summary Hsum] R payload. unfold broadcast, members. fold R.
  rewrite Hsum. destruct (active_connections s !! R) as [conns|] eqn:Hroom; simpl.
  - destruct (broadcast_loop_spec s R message conns h 0 0 Hlt)
      as (h' & Hh' & Hs & Hsent & Hfailed & Hlen & Hkeep).
    simpl in *. fold payload in Hs, Hsent, Hfailed.
    destruct (broadcast_loop send_json_ok s R message conns h 0 0)
      as [[[h2 evs'] sent'] failed'] eqn:Hloop.
    simpl in *. subst h2. repeat split; try done.
  - repeat split; try done.
Qed.

(** A call never touches the objects that exist when it starts. *)
Lemma broadcast_keeps_objects room_id message s h :
  (message < length h)%nat →
  ∀ o, (o < length h)%nat →
    br_heap (broadcast send_json_ok room_id message s h) !! o = h !! o.
Proof.
  intros Hlt o Ho.
  destruct (content_summary (deref h message)) as [summary|] eqn:Hsum.
  - by apply broadcast_spec.
  - unfold broadcast. by rewrite Hsum.
Qed.

End broadcast_facts.

(** In a room listed as a string in [safe_room_ids], every recipient of a
    message that carries [client_id] gets the redacted copy. *)
Lemma broadcast_redacts_listed_room send_json_ok room_id message s h :
  (message < length h)%nat →
  is_Some (content_summary (deref h message)) →
  in_safe_room_ids s (normalize_room_id room_id) = true →
  is_Some (oget "client_id" (deref h message)) →
  ∀ ws payload ok,
    (ws, payload, ok) ∈ sends (br_trace (broadcast send_json_ok room_id message s h)) →
    payload = redacted (deref h message)
    ∧ oget "client_id" payload = Some (JStr anonymous).
Proof.
  intros Hlt Hsum Hsafe Hcid ws payload ok Hin.
  destruct (broadcast_spec send_json_ok room_id message s h Hlt Hsum) as (_ & Hs & _).
  rewrite Hs in Hin. apply list_elem_of_fmap in Hin as (ws' & Heq & _).
  unfold outbound in Heq. rewrite Hsafe in Heq.
  apply omem_true in Hcid. rewrite Hcid in Heq. simpl in Heq.
  inversion Heq; subst. split; [done|]. apply oget_oset_eq.
Qed.

(** In a room that [safe_room_ids] does not list as a string, and for a
    message without [client_id], the message goes out as it is. *)
Lemma broadcast_verbatim send_json_ok room_id message s h :
  (message < length h)%nat →
  is_Some (content_summary (deref h message)) →
  in_safe_room_ids s (normalize_room_id room_id) = false
  ∨ oget "client_id" (deref h message) = None →
  ∀ ws payload ok,
    (ws, payload, ok) ∈ sends (br_trace (broadcast send_json_ok room_id message s h)) →
    payload = deref h message.
Proof.
  intros Hlt Hsum Hcase ws payload ok Hin.
  destruct (broadcast_spec send_json_ok room_id message s h Hlt Hsum) as (_ & Hs & _).
  rewrite Hs in Hin. apply list_elem_of_fmap in Hin as (ws' & Heq & _).
  unfold outbound in Heq.
  assert ((in_safe_room_ids s (normalize_room_id room_id)
           && omem "client_id" (deref h message))%bool = false) as Hoff.
  { destruct Hcase as [->| Hnone]; [done|].
    unfold omem. rewrite Hnone. apply andb_false_r. }
  rewrite Hoff in Heq. by inversion Heq.
Qed.

(** C2. Room 000123 is in the configured safe set, given there as the
    integer 123 (the registry's own log paths redact it: [in_safe_rooms_str]
    holds), and the message carries [client_id]; [broadcast] compares the room
    with the raw configuration entries and sends the message to both
    recipients with the true label "alice". *)
Theorem broadcast_misses_integer_safe_room :
  in_safe_rooms_str office "000123" = true
  ∧ oget "client_id" alice_says_hi = Some (JStr "alice")
  ∧ sends (br_trace (broadcast all_delivered "000123" 0 office [alice_says_hi]))
    = [(1%nat, alice_says_hi, true); (2%nat, alice_says_hi, true)]
  ∧ sends (br_trace (broadcast all_delivered "000123" 0 vault [alice_says_hi]))
    = [(1%nat, redacted alice_says_hi, true); (2%nat, redacted alice_says_hi, true)].
Proof. repeat split; vm_compute; reflexivity. Qed.


(** ** Loops over key snapshots *)

Lemma for_each_preserves {A} (P : ConnectionManager → Prop)
    (body : A → ConnectionManager → ConnectionManager * list event) xs :
  (∀ x s, P s → P (body x s).1) →
  ∀ s, P s → P (for_each body xs s).1.
Proof.
  intros Hbody. induction xs as [|x xs IH]; intros s Hs; [done|].
  simpl. specialize (Hbody x s Hs).
  destruct (body x s) as [s1 evs]. specialize (IH s1 Hbody).
  by destruct (for_each body xs s1).
Qed.

(** A property of the registry that the activity bookkeeping and
    [disconnect] keep is kept by a whole sweep. *)
Lemma check_timeout_pass_preserves (P : ConnectionManager → Prop) :
  (∀ f s, P s → P (with_last_activity_times f s)) →
  (∀ websocket room_id now s, P s → P (disconnect websocket room_id now s).1) →
  ∀ send_json_ok now clock s, P s → P (check_timeout_pass send_json_ok now clock s).1.
Proof.
  intros Hact Hdisc send_json_ok now clock s Hs.
  assert (∀ room_id client_id s, P s →
            P (check_client send_json_ok now clock room_id client_id s).1) as Hclient.
  { intros room_id client_id s0 Hs0. unfold check_client.
    repeat case_match; simpl; simplify_eq; auto;
      match goal with
      | H : disconnect ?w ?r ?t ?s' = (?s2, ?evs) |- P ?s2 =>
          change s2 with (s2, evs).1; rewrite <- H; apply Hdisc, Hact, Hs0
      end. }
  assert (∀ room_id s, P s → P (check_room send_json_ok now clock room_id s).1) as Hroom.
  { intros room_id s0 Hs0. unfold check_room. case_match; [|done].
    apply for_each_preserves; auto. }
  assert (∀ room_id s, P s → P (cleanup_room room_id s).1) as Hclean.
  { intros room_id s0 Hs0. unfold cleanup_room. repeat case_match; simpl; auto. }
  unfold check_timeout_pass.
  pose proof (for_each_preserves P (check_room send_json_ok now clock)
                (okeys (last_activity_times s)) Hroom s Hs) as H1.
  destruct (for_each (check_room send_json_ok now clock) _ s) as [s1 evs].
  pose proof (for_each_preserves P cleanup_room
                (okeys (last_activity_times s1)) Hclean s1 H1) as H2.
  by destruct (for_each cleanup_room _ s1).
Qed.

(** ** Disconnect *)

Lemma remove_first_absent x (l : list nat) : x ∉ l → remove_first x l = l.
Proof.
  induction l as [|y l IH]; [done|]. intros Hx. simpl.
  rewrite decide_False by (intros ->; apply Hx, list_elem_of_here).
  f_equal. apply IH. intros Hin. apply Hx. by apply list_elem_of_further.
Qed.

Lemma remove_first_subset x y (l : list nat) : x ∈ remove_first y l → x ∈ l.
Proof.
  induction l as [|z l IH]; [done|]. simpl. case_decide.
  - apply list_elem_of_further.
  - intros [->|Hin]%elem_of_cons.
    + apply list_elem_of_here.
    + by apply list_elem_of_further, IH.
Qed.

Lemma remove_first_NoDup x (l : list nat) : NoDup l → x ∉ remove_first x l.
Proof.
  induction l as [|y l IH]; intros Hnd; [by apply not_elem_of_nil|].
  apply NoDup_cons in Hnd as [Hy Hnd]. simpl. case_decide as Hxy.
  - by subst y.
  - intros [->|Hin]%elem_of_cons; [done|]. by apply (IH Hnd).
Qed.

Lemma disconnect_client_ids websocket room_id now s :
  client_ids (disconnect websocket room_id now s).1 = odel websocket (client_ids s).
Proof. unfold disconnect. simpl. by repeat case_match. Qed.

Lemma disconnect_connection_times websocket room_id now s :
  connection_times (disconnect websocket room_id now s).1
  = delete websocket (connection_times s).
Proof. unfold disconnect. simpl. by repeat case_match. Qed.

Lemma disconnect_last_activity_times websocket room_id now s :
  last_activity_times (disconnect websocket room_id now s).1 = last_activity_times s.
Proof. unfold disconnect. simpl. by repeat case_match. Qed.

Lemma disconnect_safe_room_ids websocket room_id now s :
  safe_room_ids (disconnect websocket room_id now s).1 = safe_room_ids s.
Proof. unfold disconnect. simpl. by repeat case_match. Qed.

(** The room's map entry after [disconnect]: the list without the socket, and
    no entry at all once the list is empty. *)
Lemma disconnect_active_connections websocket room_id now s :
  let R := normalize_room_id room_id in
  active_connections (disconnect websocket room_id now s).1
  = match active_connections s !! R with
    | Some conns =>
        if decide (websocket ∈ conns) then
          match remove_first websocket conns with
          | [] => delete R (active_connections s)
          | remaining => <[R := remaining]> (active_connections s)
          end
        else active_connections s
    | None => active_connections s
    end.
Proof.
  intros R. unfold disconnect. fold R. simpl.
  destruct (active_connections s !! R) as [conns|]; [|done].
  case_bool_decide; [rewrite decide_True by done | by rewrite decide_False].
  destruct (remove_first websocket conns); simpl; by repeat case_match.
Qed.

Lemma disconnect_members websocket room_id now s room :
  members (disconnect websocket room_id now s).1 room
  = if decide (room = normalize_room_id room_id)
    then remove_first websocket (members s room)
    else members s room.
Proof.
  unfold members. rewrite disconnect_active_connections.
  set (R := normalize_room_id room_id).
  destruct (active_connections s !! R) as [conns|] eqn:HR.
  - destruct (decide (websocket ∈ conns)) as [Hin|Hout].
    + destruct (remove_first websocket conns) as [|c rest] eqn:Hrem.
      * destruct (decide (room = R)) as [->|Hne].
        -- rewrite lookup_delete_eq, HR. simpl. by rewrite Hrem.
        -- by rewrite lookup_delete_ne.
      * destruct (decide (room = R)) as [->|Hne].
        -- rewrite lookup_insert_eq, HR. simpl. by rewrite Hrem.
        -- by rewrite lookup_insert_ne.
    + destruct (decide (room = R)) as [->|Hne]; [|done].
      rewrite HR. simpl. by rewrite remove_first_absent.
  - destruct (decide (room = R)) as [->|Hne]; [|done]. by rewrite HR.
Qed.

Lemma disconnect_rooms_nonempty websocket room_id now s :
  rooms_nonempty s → rooms_nonempty (disconnect websocket room_id now s).1.
Proof.
  intros Hne room conns. rewrite disconnect_active_connections.
  set (R := normalize_room_id room_id).
  destruct (active_connections s !! R) as [conns0|] eqn:HR; [|apply Hne].
  destruct (decide (websocket ∈ conns0)); [|apply Hne].
  destruct (remove_first websocket conns0) as [|c rest] eqn:Hrem.
  - destruct (decide (room = R)) as [->|Hroom].
    + by rewrite lookup_delete_eq.
    + rewrite lookup_delete_ne by done. apply Hne.
  - destruct (decide (room = R)) as [->|Hroom].
    + rewrite lookup_insert_eq. by intros [= <-].
    + rewrite lookup_insert_ne by done. apply Hne.
Qed.


(** ** Connect, Identify and whole runs *)

#[local] Arguments connect : simpl never.
#[local] Arguments disconnect : simpl never.
#[local] Arguments update_client_id : simpl never.
#[local] Arguments update_activity_time : simpl never.
#[local] Arguments check_timeout_pass : simpl never.

Lemma connect_members websocket room_id now s room :
  members (connect websocket room_id now s) room
  = if decide (room = normalize_room_id room_id)
    then members s room ++ [websocket]
    else members s room.
Proof.
  unfold members, connect. set (R := normalize_room_id room_id). cbn.
  destruct (active_connections s !! R) as [conns|] eqn:HR; cbn.
  - rewrite HR. simpl. destruct (decide (room = R)) as [->|Hne].
    + by rewrite lookup_insert_eq, HR.
    + by rewrite lookup_insert_ne.
  - rewrite lookup_insert_eq. simpl. destruct (decide (room = R)) as [->|Hne].
    + by rewrite lookup_insert_eq, HR.
    + by rewrite !lookup_insert_ne.
Qed.

Lemma connect_rooms_nonempty websocket room_id now s :
  rooms_nonempty s → rooms_nonempty (connect websocket room_id now s).
Proof.
  intros Hne room conns Hroom.
  pose proof (connect_members websocket room_id now s room) as Hm.
  unfold members in Hm. rewrite Hroom in Hm. simpl in Hm.
  destruct (decide (room = normalize_room_id room_id)) as [->|Hother].
  - rewrite Hm. by destruct (default [] _).
  - revert Hroom. unfold connect. simpl.
    destruct (active_connections s !! normalize_room_id room_id); simpl.
    + rewrite lookup_insert_ne by done. apply Hne.
    + rewrite !lookup_insert_ne by done. apply Hne.
Qed.

Lemma connect_client_ids websocket room_id now s :
  client_ids (connect websocket room_id now s)
  = oset websocket unknown_client (client_ids s).
Proof. unfold connect. cbn. by case_match. Qed.

Lemma update_client_id_active_connections websocket client_id room_id now s :
  active_connections (update_client_id websocket client_id room_id now s).1.1
  = active_connections s.
Proof. unfold update_client_id. by repeat (case_match; simpl in *; simplify_eq). Qed.

Lemma update_client_id_client_ids websocket client_id room_id now s :
  client_ids (update_client_id websocket client_id room_id now s).1.1
  = oset websocket client_id (client_ids s).
Proof. unfold update_client_id. by repeat (case_match; simpl in *; simplify_eq). Qed.

(** No operation but its own [connect] puts a socket into a room. *)
Lemma step_keeps_out websocket o s :
  connects websocket o = false →
  (∀ room, websocket ∉ members s room) →
  ∀ room, websocket ∉ members (step o s).1 room.
Proof.
  intros Hop Hout. destruct o as [ws r t|ws r t|ws c r t|r c t|ok t clock]; cbn in *.
  - intros room. rewrite connect_members.
    destruct (decide (room = normalize_room_id r)); [|apply Hout].
    rewrite not_elem_of_app. split; [apply Hout|].
    apply bool_decide_eq_false in Hop. rewrite list_elem_of_singleton. congruence.
  - intros room. rewrite disconnect_members.
    destruct (decide (room = normalize_room_id r)); [|apply Hout].
    intros Hin%remove_first_subset. by apply (Hout room).
  - intros room. unfold members. rewrite update_client_id_active_connections. apply Hout.
  - apply Hout.
  - apply (check_timeout_pass_preserves (fun s => ∀ room, websocket ∉ members s room)).
    + intros f s0 Hs0. apply Hs0.
    + intros ws r t' s0 Hs0 room. rewrite disconnect_members.
      destruct (decide (room = normalize_room_id r)); [|apply Hs0].
      intros Hin%remove_first_subset. by apply (Hs0 room).
    + apply Hout.
Qed.

Lemma run_keeps_out websocket ops : ∀ s,
  Forall (fun o => connects websocket o = false) ops →
  (∀ room, websocket ∉ members s room) →
  ∀ room, websocket ∉ members (run ops s) room.
Proof.
  induction ops as [|o ops IH]; intros s Hops Hout; [done|].
  apply Forall_cons in Hops as [Ho Hops]. cbn.
  apply IH; [done|]. by apply step_keeps_out.
Qed.

(** Every operation keeps the rooms of the active connection map non-empty. *)
Lemma step_rooms_nonempty o s : rooms_nonempty s → rooms_nonempty (step o s).1.
Proof.
  intros Hne. destruct o as [ws r t|ws r t|ws c r t|r c t|ok t clock]; cbn.
  - by apply connect_rooms_nonempty.
  - by apply disconnect_rooms_nonempty.
  - unfold rooms_nonempty. rewrite update_client_id_active_connections. apply Hne.
  - apply Hne.
  - apply (check_timeout_pass_preserves rooms_nonempty); [|intros; by apply disconnect_rooms_nonempty|done].
    intros f s0 Hs0. apply Hs0.
Qed.

(** No operation but a socket's own [connect] and Identify writes its label;
    the others keep it or, when they disconnect the socket, drop it. *)
Lemma step_keeps_label websocket client_id o s :
  binds websocket o = false →
  oget websocket (client_ids s) = Some client_id ∨ oget websocket (client_ids s) = None →
  oget websocket (client_ids (step o s).1) = Some client_id
  ∨ oget websocket (client_ids (step o s).1) = None.
Proof.
  intros Hop Hs.
  assert (∀ ws r t s0,
    oget websocket (client_ids s0) = Some client_id ∨ oget websocket (client_ids s0) = None →
    oget websocket (client_ids (disconnect ws r t s0).1) = Some client_id
    ∨ oget websocket (client_ids (disconnect ws r t s0).1) = None) as Hdisc.
  { intros ws r t s0 Hs0. rewrite disconnect_client_ids.
    destruct (decide (ws = websocket)) as [->|Hne].
    - right. apply oget_odel_eq.
    - by rewrite oget_odel_ne. }
  destruct o as [ws r t|ws r t|ws c r t|r c t|ok t clock]; cbn in *.
  - apply bool_decide_eq_false in Hop.
    rewrite connect_client_ids. by rewrite oget_oset_ne.
  - by apply Hdisc.
  - apply bool_decide_eq_false in Hop.
    rewrite update_client_id_client_ids. by rewrite oget_oset_ne.
  - done.
  - apply (check_timeout_pass_preserves
             (fun s => oget websocket (client_ids s) = Some client_id
                       ∨ oget websocket (client_ids s) = None)); auto.
Qed.

Lemma run_keeps_label websocket client_id ops : ∀ s,
  Forall (fun o => binds websocket o = false) ops →
  oget websocket (client_ids s) = Some client_id ∨ oget websocket (client_ids s) = None →
  oget websocket (client_ids (run ops s)) = Some client_id
  ∨ oget websocket (client_ids (run ops s)) = None.
Proof.
  induction ops as [|o ops IH]; intros s Hops Hs; [done|].
  apply Forall_cons in Hops as [Ho Hops]. cbn.
  apply IH; [done|]. by apply step_keeps_label.
Qed.


Lemma connect_connection_times websocket room_id now s :
  connection_times (connect websocket room_id now s)
  = <[websocket := now]> (connection_times s).
Proof. unfold connect. cbn. by case_match. Qed.

Lemma update_client_id_connection_times websocket client_id room_id now s :
  connection_times (update_client_id websocket client_id room_id now s).1.1
  = connection_times s.
Proof. unfold update_client_id. by repeat (case_match; simpl in *; simplify_eq). Qed.

Lemma oget_odel_None {V} (k k' : nat) (d : list (nat * V)) :
  oget k d = None → oget k (odel k' d) = None.
Proof.
  intros Hnone. destruct (decide (k' = k)) as [->|Hne].
  - apply oget_odel_eq.
  - by rewrite oget_odel_ne.
Qed.

(** The first Disconnect of a socket that sits once in its room, and in no
    other, leaves nothing of it. *)
Lemma disconnect_removes websocket room_id now s :
  NoDup (members s (normalize_room_id room_id)) →
  (∀ room, websocket ∈ members s room → room = normalize_room_id room_id) →
  removed websocket (disconnect websocket room_id now s).1.
Proof.
  intros Hnodup Honly. split; [|split].
  - rewrite disconnect_connection_times. apply lookup_delete_eq.
  - rewrite disconnect_client_ids. apply oget_odel_eq.
  - intros room. rewrite disconnect_members.
    destruct (decide (room = normalize_room_id room_id)) as [->|Hne].
    + by apply remove_first_NoDup.
    + intros Hin. by apply Hne, Honly.
Qed.



(** ** The registries the endpoint reaches *)


Lemma remove_first_keeps_NoDup x (l : list nat) : NoDup l → NoDup (remove_first x l).
Proof.
  induction l as [|y l IH]; [done|]. intros [Hy Hl]%NoDup_cons. cbn.
  case_decide; [done|]. apply NoDup_cons. split; [|by apply IH].
  intros Hin%remove_first_subset. done.
Qed.

Lemma disconnect_sockets_unique websocket room_id now s :
  sockets_unique s → sockets_unique (disconnect websocket room_id now s).1.
Proof.
  intros [Hnodup Hone]. split.
  - intros room. rewrite disconnect_members.
    destruct (decide (room = normalize_room_id room_id));
      [by apply remove_first_keeps_NoDup|done].
  - intros room room' ws. rewrite !disconnect_members.
    intros Hin Hin'. apply (Hone room room' ws).
    + destruct (decide (room = normalize_room_id room_id));
        [by apply remove_first_subset in Hin|done].
    + destruct (decide (room' = normalize_room_id room_id));
        [by apply remove_first_subset in Hin'|done].
Qed.

Lemma step_sockets_unique o s :
  sockets_unique s → admissible o s → sockets_unique (step o s).1.
Proof.
  intros Hs Hadm.
  destruct o as [ws r t|ws r t|ws c r t|r c t|ok t clock]; cbn in *.
  - destruct Hs as [Hnodup Hone]. split.
    + intros room. rewrite connect_members.
      destruct (decide (room = normalize_room_id r)); [|done].
      apply NoDup_app. split; [done|]. split; [|apply NoDup_singleton].
      intros x Hx ->%list_elem_of_singleton. by apply (Hadm room).
    + intros room room' w. rewrite !connect_members.
      destruct (decide (room = normalize_room_id r)) as [->|Hr];
        destruct (decide (room' = normalize_room_id r)) as [->|Hr']; [done| | |apply Hone].
      * intros [Hin| ->%list_elem_of_singleton]%elem_of_app Hin'.
        -- by apply (Hone _ _ w).
        -- by destruct (Hadm room').
      * intros Hin [Hin'| ->%list_elem_of_singleton]%elem_of_app.
        -- by apply (Hone _ _ w).
        -- by destruct (Hadm room).
  - by apply disconnect_sockets_unique.
  - unfold sockets_unique, members. by rewrite update_client_id_active_connections.
  - done.
  - apply (check_timeout_pass_preserves sockets_unique);
      [|intros; by apply disconnect_sockets_unique|done].
    intros f s0 Hs0. apply Hs0.
Qed.

Lemma connect_rooms_registered websocket room_id now s :
  rooms_registered s → rooms_registered (connect websocket room_id now s).
Proof.
  intros Hs room. unfold rooms_registered, room_registered, connect in *. cbn.
  set (R := normalize_room_id room_id).
  destruct (active_connections s !! R) as [conns|] eqn:HR; cbn.
  - destruct (decide (room = R)) as [->|Hne].
    + intros _. apply Hs. by rewrite HR.
    + rewrite lookup_insert_ne by done. apply Hs.
  - destruct (decide (room = R)) as [->|Hne].
    + intros _. rewrite !lookup_insert_eq. eauto.
    + rewrite !lookup_insert_ne by done. apply Hs.
Qed.

Lemma disconnect_rooms_registered websocket room_id now s :
  rooms_registered s → rooms_registered (disconnect websocket room_id now s).1.
Proof.
  intros Hs room. unfold rooms_registered, room_registered, disconnect in *. cbn.
  set (R := normalize_room_id room_id).
  destruct (active_connections s !! R) as [conns|] eqn:HR; cbn; [|apply Hs].
  case_bool_decide; [|apply Hs].
  destruct (remove_first websocket conns) as [|c rest]; cbn.
  - destruct (decide (room = R)) as [->|Hne].
    + rewrite lookup_delete_eq. by intros [].
    + rewrite !lookup_delete_ne by done. apply Hs.
  - destruct (Hs R) as [[times Htimes] Hrefresh]; [by rewrite HR|].
    rewrite Htimes. case_bool_decide; cbn.
    + destruct (decide (room = R)) as [->|Hne].
      * intros _. rewrite lookup_insert_eq. eauto.
      * rewrite !lookup_insert_ne by done. apply Hs.
    + destruct (decide (room = R)) as [->|Hne].
      * intros _. rewrite Htimes. eauto.
      * rewrite !lookup_insert_ne by done. apply Hs.
Qed.

Lemma insert_keeps_is_Some {V} (m : gmap string V) i j x :
  is_Some (m !! j) → is_Some (<[i := x]> m !! j).
Proof. intros Hj. apply lookup_insert_is_Some'. by right. Qed.

Lemma update_client_id_keeps_registered websocket client_id room_id now s room :
  room_registered s room →
  room_registered (update_client_id websocket client_id room_id now s).1.1 room.
Proof.
  intros [Hc Hr]. unfold room_registered, update_client_id.
  repeat (case_match; simpl in *; simplify_eq); simpl;
    split; repeat apply insert_keeps_is_Some; done.
Qed.

Lemma step_rooms_registered o s :
  rooms_registered s → rooms_registered (step o s).1.
Proof.
  intros Hs. destruct o as [ws r t|ws r t|ws c r t|r c t|ok t clock]; cbn.
  - by apply connect_rooms_registered.
  - by apply disconnect_rooms_registered.
  - intros room. rewrite update_client_id_active_connections. intros Hroom.
    by apply update_client_id_keeps_registered, Hs.
  - apply Hs.
  - apply (check_timeout_pass_preserves rooms_registered);
      [|intros; by apply disconnect_rooms_registered|done].
    intros f s0 Hs0. apply Hs0.
Qed.

(** In every registry the endpoint reaches, sockets are unique, rooms with
    connections have their timing maps, and no room is empty. *)
Lemma reachable_invariants s :
  reachable s → sockets_unique s ∧ rooms_registered s ∧ rooms_nonempty s.
Proof.
  induction 1 as [safe|o s Hreach (Huniq & Hreg & Hne) Hadm].
  - split; [split|split].
    + intros room. unfold members, init. cbn. rewrite lookup_empty. apply NoDup_nil_2.
    + intros room room' ws. unfold members, init. cbn. rewrite lookup_empty.
      intros Hin. by apply elem_of_nil in Hin.
    + intros room. unfold init. cbn. rewrite lookup_empty. by intros [].
    + intros room conns. unfold init. cbn. by rewrite lookup_empty.
  - split; [by apply step_sockets_unique|].
    split; [by apply step_rooms_registered|by apply step_rooms_nonempty].
Qed.

(** The premises of the idempotence and classifier results hold in every
    registry the endpoint reaches, for a socket and the room it is in. *)
Lemma reachable_member s websocket room_id :
  reachable s →
  websocket ∈ members s (normalize_room_id room_id) →
  NoDup (members s (normalize_room_id room_id))
  ∧ (∀ room, websocket ∈ members s room → room = normalize_room_id room_id)
  ∧ room_registered s (normalize_room_id room_id).
Proof.
  intros (Huniq & Hreg & _)%reachable_invariants Hin.
  destruct Huniq as [Hnodup Hone]. split; [done|]. split.
  - intros room Hroom. by apply (Hone _ _ websocket).
  - apply Hreg. unfold members in Hin.
    destruct (active_connections s !! normalize_room_id room_id); [eauto|].
    by apply elem_of_nil in Hin.
Qed.

(** ** Idempotence, the room invariant and stored labels *)



(** C8. Every operation (Connect, Disconnect, Identify, UpdateActivity, a
    sweep with its evictions) keeps the invariant that each room of the active
    connection map has a non-empty connection set; a Disconnect that removes
    a room's last connection deletes the room's connection set, its
    last-connect map and its last-refresh map; and no Disconnect touches the
    last-activity maps. *)
Theorem rooms_nonempty_invariant o s :
  rooms_nonempty s →
  rooms_nonempty (step o s).1
  ∧ ∀ websocket room_id now,
      let R := normalize_room_id room_id in
      let s' := (disconnect websocket room_id now s).1 in
      last_activity_times s' = last_activity_times s
      ∧ (websocket ∈ members s R →
         remove_first websocket (members s R) = [] →
         active_connections s' !! R = None
         ∧ last_connection_times s' !! R = None
         ∧ last_refresh_times s' !! R = None).
Proof.
  intros Hne. split; [by apply step_rooms_nonempty|].
  intros websocket room_id now R s'. split.
  { apply disconnect_last_activity_times. }
  unfold s', members, disconnect. fold R. intros Hin Hlast.
  destruct (active_connections s !! R) as [conns|] eqn:HR; cbn in *.
  - rewrite HR. rewrite bool_decide_eq_true_2 by done. rewrite Hlast. cbn.
    by rewrite !lookup_delete_eq.
  - by apply elem_of_nil in Hin.
Qed.

Lemma rooms_nonempty_invariant_witness :
  rooms_nonempty (step (Disconnect 1 "000123" (1010 * sec)) lobby).1
  ∧ last_connection_times (disconnect 1 "000123" (1010 * sec) lobby).1 !! "000123" = None.
Proof.
  assert (rooms_nonempty lobby) as Hlobby.
  { apply connect_rooms_nonempty. intros room conns. unfold init. cbn.
    by rewrite lookup_empty. }
  destruct (rooms_nonempty_invariant (Disconnect 1 "000123" (1010 * sec)) lobby Hlobby)
    as [Hinv Hlast].
  split; [exact Hinv|].
  destruct (Hlast 1%nat "000123" (1010 * sec)) as [_ Hdel].
  apply Hdel; vm_compute; [apply list_elem_of_here | reflexivity].
Defined.

(** C9. Redaction never mutates stored state.  After a Broadcast the caller's
    message object holds what it held before (a redacted payload is a fresh
    copy), as does every other object of the store; and Identify stores the
    label the client supplied, in safe rooms too: no later operation other
    than the socket's own [connect] or Identify rewrites it, the binding is
    that label until a disconnect removes it. *)
Theorem redaction_keeps_stored_state send_json_ok room_id message s h :
  (message < length h)%nat →
  let r := broadcast send_json_ok room_id message s h in
  deref (br_heap r) message = deref h message
  ∧ (∀ o, (o < length h)%nat → br_heap r !! o = h !! o)
  ∧ ∀ websocket client_id rid now,
      let s1 := (update_client_id websocket client_id rid now s).1.1 in
      oget websocket (client_ids s1) = Some client_id
      ∧ ∀ ops, Forall (fun o => binds websocket o = false) ops →
          oget websocket (client_ids (run ops s1)) = Some client_id
          ∨ oget websocket (client_ids (run ops s1)) = None.
Proof.
  intros Hlt r.
  assert (∀ o, (o < length h)%nat → br_heap r !! o = h !! o) as Hkeep.
  { intros o Ho. by apply broadcast_keeps_objects. }
  split; [by apply deref_stable|]. split; [done|].
  intros websocket client_id rid now s1.
  assert (oget websocket (client_ids s1) = Some client_id) as Hbound.
  { apply update_client_id_binds. }
  split; [done|]. intros ops Hops. apply run_keeps_label; auto.
Qed.

Lemma redaction_keeps_stored_state_witness :
  deref (br_heap (broadcast all_delivered "000123" 0 vault [alice_says_hi])) 0
  = alice_says_hi.
Proof.
  refine (proj1 (redaction_keeps_stored_state all_delivered "000123" 0 vault
                   [alice_says_hi] _)).
  simpl. lia.
Defined.

(** ** The idle sweep *)

Section sweep_facts.
Variable send_json_ok : nat → list (string * json) → bool.
Variables (now : Z) (clock : nat → Z).

Lemma surviving_idemp (o : option Z) :
  (o ≫= surviving now) ≫= surviving now = o ≫= surviving now.
Proof.
  destruct o as [t|]; [|done]. cbn. unfold surviving.
  destruct (decide (now - t > timeout_seconds * sec)) as [Hs|Hs]; [done|].
  cbn. by rewrite decide_False.
Qed.

Lemma activity_drop room_id client_id s room client :
  activity (with_last_activity_times (drop_activity room_id client_id) s) room client
  = if decide (room = room_id ∧ client = client_id) then None
    else activity s room client.
Proof.
  unfold activity, drop_activity. cbn.
  destruct (oget room_id (last_activity_times s)) as [clients|] eqn:Hroom.
  - destruct (omem client_id clients) eqn:Hmem.
    + destruct (decide (room = room_id)) as [->|Hr].
      * rewrite oget_oset_eq. cbn. destruct (decide (client = client_id)) as [->|Hc].
        -- rewrite decide_True by done. apply oget_odel_eq.
        -- rewrite decide_False by tauto. rewrite oget_odel_ne by done.
           by rewrite Hroom.
      * rewrite decide_False by tauto. by rewrite oget_oset_ne.
    + case_decide as Heq; [|done]. destruct Heq as [-> ->]. rewrite Hroom. cbn.
      unfold omem in Hmem. by destruct (oget client_id clients).
  - case_decide as Heq; [|done]. destruct Heq as [-> ->]. by rewrite Hroom.
Qed.

Lemma activity_disconnect websocket room_id t s room client :
  activity (disconnect websocket room_id t s).1 room client = activity s room client.
Proof. unfold activity. by rewrite disconnect_last_activity_times. Qed.

(** Handling one entry rewrites that entry and no other. *)
Lemma check_client_activity room_id client_id s room client :
  activity (check_client send_json_ok now clock room_id client_id s).1 room client
  = if decide (room = room_id ∧ client = client_id)
    then activity s room_id client_id ≫= surviving now
    else activity s room client.
Proof.
  unfold check_client.
  destruct (oget room_id (last_activity_times s)) as [clients|] eqn:Hroom.
  - case_bool_decide as Hstale.
    + assert (activity s room_id client_id ≫= surviving now = None) as Hgone.
      { unfold activity. rewrite Hroom. cbn.
        destruct (oget client_id clients) as [t|]; [|done]. cbn in *.
        unfold surviving. by rewrite decide_True. }
      rewrite Hgone.
      destruct (bound_websocket s room_id client_id (client_ids s)) as [ws|].
      * destruct (disconnect ws room_id (clock ws) _) as [s2 report] eqn:Hdisc.
        cbn. change s2 with (s2, report).1. rewrite <- Hdisc.
        rewrite activity_disconnect. apply activity_drop.
      * cbn. apply activity_drop.
    + cbn. case_decide as Heq; [|done]. destruct Heq as [-> ->].
      unfold activity. rewrite Hroom. cbn.
      destruct (oget client_id clients) as [t|]; [|done]. cbn in *.
      unfold surviving. by rewrite decide_False.
  - cbn. case_decide as Heq; [|done]. destruct Heq as [-> ->].
    unfold activity. by rewrite Hroom.
Qed.

Lemma check_clients_activity room_id ks : ∀ s room client,
  activity (for_each (check_client send_json_ok now clock room_id) ks s).1 room client
  = if decide (room = room_id ∧ client ∈ ks)
    then activity s room client ≫= surviving now
    else activity s room client.
Proof.
  induction ks as [|k ks IH]; intros s room client.
  - cbn. case_decide as Heq; [|done]. destruct Heq as [_ Hin].
    by apply elem_of_nil in Hin.
  - cbn. pose proof (check_client_activity room_id k s) as Hk.
    destruct (check_client send_json_ok now clock room_id k s) as [s1 evs].
    specialize (IH s1 room client).
    destruct (for_each _ ks s1) as [s2 evs']. cbn in *.
    rewrite IH, !Hk.
    destruct (decide (room = room_id)) as [->|Hr].
    + destruct (decide (client = k)) as [->|Hc].
      * rewrite (decide_True (P := room_id = room_id ∧ k = k)) by done.
        rewrite (decide_True (P := room_id = room_id ∧ k ∈ k :: ks))
          by (split; [done|apply list_elem_of_here]).
        case_decide; [apply surviving_idemp|done].
      * rewrite (decide_False (P := room_id = room_id ∧ client = k)) by tauto.
        destruct (decide (client ∈ ks)) as [Hin|Hout].
        -- rewrite !decide_True; [done| |done].
           split; [done|by apply list_elem_of_further].
        -- rewrite !decide_False; [done| |tauto].
           rewrite elem_of_cons. tauto.
    + rewrite !decide_False by tauto. done.
Qed.

Lemma activity_absent_key s room client :
  (∀ clients, oget room (last_activity_times s) = Some clients → client ∉ okeys clients) →
  activity s room client = None.
Proof.
  intros Hout. unfold activity.
  destruct (oget room (last_activity_times s)) as [clients|]; [|done]. cbn.
  destruct (oget client clients) as [t|] eqn:Hc; [|done].
  exfalso. eapply Hout; [done|]. by eapply oget_Some_keys.
Qed.

Lemma check_room_activity room_id s room client :
  activity (check_room send_json_ok now clock room_id s).1 room client
  = if decide (room = room_id)
    then activity s room client ≫= surviving now
    else activity s room client.
Proof.
  unfold check_room.
  destruct (oget room_id (last_activity_times s)) as [clients|] eqn:Hroom.
  - rewrite check_clients_activity.
    destruct (decide (room = room_id)) as [->|Hr].
    + destruct (decide (client ∈ okeys clients)) as [Hin|Hout].
      * by rewrite decide_True.
      * rewrite decide_False by tauto.
        rewrite (activity_absent_key s room_id client); [done|].
        intros clients' Hc. congruence.
    + by rewrite decide_False by tauto.
  - cbn. case_decide as Heq; [|done]. subst room.
    unfold activity. by rewrite Hroom.
Qed.

Lemma check_rooms_activity rs : ∀ s room client,
  activity (for_each (check_room send_json_ok now clock) rs s).1 room client
  = if decide (room ∈ rs)
    then activity s room client ≫= surviving now
    else activity s room client.
Proof.
  induction rs as [|r rs IH]; intros s room client.
  - cbn. case_decide as Hin; [|done]. by apply elem_of_nil in Hin.
  - cbn. pose proof (check_room_activity r s) as Hr.
    destruct (check_room send_json_ok now clock r s) as [s1 evs].
    specialize (IH s1 room client).
    destruct (for_each _ rs s1) as [s2 evs']. cbn in *.
    rewrite IH, !Hr.
    destruct (decide (room = r)) as [->|Hne].
    + rewrite (decide_True (P := r ∈ r :: rs)) by apply list_elem_of_here.
      case_decide; [apply surviving_idemp|done].
    + destruct (decide (room ∈ rs)) as [Hin|Hout].
      * by rewrite decide_True by (by apply list_elem_of_further).
      * rewrite decide_False; [done|]. rewrite elem_of_cons. tauto.
Qed.

Lemma cleanup_room_activity room_id s room client :
  activity (cleanup_room room_id s).1 room client = activity s room client.
Proof.
  unfold cleanup_room.
  destruct (oget room_id (last_activity_times s)) as [[|e clients]|] eqn:Hroom;
    [|done|done].
  cbn. unfold activity. cbn. destruct (decide (room = room_id)) as [->|Hne].
  - by rewrite oget_odel_eq, Hroom.
  - by rewrite oget_odel_ne.
Qed.

Lemma cleanup_rooms_activity rs : ∀ s room client,
  activity (for_each cleanup_room rs s).1 room client = activity s room client.
Proof.
  induction rs as [|r rs IH]; intros s room client; [done|].
  cbn. pose proof (cleanup_room_activity r s room client) as Hr.
  destruct (cleanup_room r s) as [s1 evs]. specialize (IH s1 room client).
  destruct (for_each cleanup_room rs s1) as [s2 evs']. cbn in *. congruence.
Qed.

(** A whole pass: every entry older than the timeout is gone, every other
    entry is as it was, whichever sends failed on the way. *)
Lemma check_timeout_pass_activity s room client :
  activity (check_timeout_pass send_json_ok now clock s).1 room client
  = activity s room client ≫= surviving now.
Proof.
  unfold check_timeout_pass.
  pose proof (check_rooms_activity (okeys (last_activity_times s)) s room client) as H1.
  destruct (for_each (check_room send_json_ok now clock) _ s) as [s1 evs].
  pose proof (cleanup_rooms_activity (okeys (last_activity_times s1)) s1 room client) as H2.
  destruct (for_each cleanup_room _ s1) as [s2 evs']. cbn in *.
  rewrite H2, H1. case_decide as Hin; [done|].
  unfold activity. destruct (oget room (last_activity_times s)) eqn:Hroom; [|done].
  exfalso. apply Hin. by eapply oget_Some_keys.
Qed.

End sweep_facts.

Lemma bound_websocket_Some s room client items ws :
  bound_websocket s room client items = Some ws →
  (ws, client) ∈ items ∧ ws ∈ members s room.
Proof.
  induction items as [|[w c] items IH]; [done|]. cbn.
  destruct (bool_decide (c = client)) eqn:Hc; cbn.
  - destruct (bool_decide (w ∈ default [] (active_connections s !! room))) eqn:Hw.
    + intros [= <-]. apply bool_decide_eq_true in Hc, Hw. subst c.
      split; [apply list_elem_of_here|done].
    + intros Hrest. destruct (IH Hrest). split; [by apply list_elem_of_further|done].
  - intros Hrest. destruct (IH Hrest). split; [by apply list_elem_of_further|done].
Qed.

Lemma bound_websocket_None s room client items :
  bound_websocket s room client items = None →
  ∀ ws, (ws, client) ∈ items → ws ∉ members s room.
Proof.
  induction items as [|[w c] items IH]; intros Hnone ws Hin.
  - by apply elem_of_nil in Hin.
  - cbn in Hnone.
    destruct (bool_decide (c = client)) eqn:Hc; cbn in Hnone.
    + destruct (bool_decide (w ∈ default [] (active_connections s !! room))) eqn:Hw;
        [done|].
      apply elem_of_cons in Hin as [[= -> ->]|Hin].
      * by apply bool_decide_eq_false in Hw.
      * by apply IH.
    + apply elem_of_cons in Hin as [[= -> ->]|Hin].
      * by apply bool_decide_eq_false in Hc.
      * by apply IH.
Qed.


(** ** What Disconnect records *)

Lemma recorded_last_connection s room client_id :
  last_connection s room client_id = default 0 (recorded s room client_id).
Proof.
  unfold last_connection, recorded.
  by destruct (last_connection_times s !! room).
Qed.

(** [connect] keeps what is recorded, or starts the room with empty maps. *)
Lemma connect_recorded websocket room_id now s room client_id :
  recorded (connect websocket room_id now s) room client_id = recorded s room client_id
  ∨ recorded (connect websocket room_id now s) room client_id = None.
Proof.
  unfold recorded, connect. cbn.
  destruct (active_connections s !! normalize_room_id room_id) eqn:HR; cbn;
    [by left|].
  destruct (decide (room = normalize_room_id room_id)) as [->|Hne].
  - right. rewrite lookup_insert_eq. cbn. apply lookup_empty.
  - left. by rewrite lookup_insert_ne.
Qed.

(** With nothing recorded for the label, Identify takes the fresh-connect
    branch. *)
Lemma update_client_id_fresh websocket client_id room_id t1 s :
  last_connection s (normalize_room_id room_id) client_id = 0 →
  5 * sec ≤ t1 →
  connect_notices (update_client_id websocket client_id room_id t1 s).1.2 = 1%nat
  ∧ refresh_notices (update_client_id websocket client_id room_id t1 s).1.2 = 0%nat.
Proof.
  intros Hzero Hclock. unfold update_client_id.
  change (last_connection (with_client_ids _ s) (normalize_room_id room_id) client_id)
    with (last_connection s (normalize_room_id room_id) client_id).
  rewrite Hzero.
  assert (classify (t1 - 0) = FRESH_CONNECT) as ->.
  { destruct (classify (t1 - 0)) eqn:Hc; [|done].
    apply classify_refresh_iff in Hc. lia. }
  cbn. by destruct (last_connection_times s !! normalize_room_id room_id).
Qed.

(** C10, as stated, fails: socket 2 was never identified, yet after its
    Disconnect the room still holds the time "alice" left at (2000 s), and her
    next Identify, two seconds after that Disconnect, takes the refresh
    branch. *)
Lemma unidentified_disconnect_then_refresh :
  oget 2%nat (client_ids reloading) = Some unknown_client
  ∧ last_connection (disconnect 2 "000123" (2002 * sec) reloading).1 "000123" "alice"
    = 2000 * sec
  ∧ (update_client_id 3 "alice" "000123" (2004 * sec)
       (connect 3 "000123" (2003 * sec)
          (disconnect 2 "000123" (2002 * sec) reloading).1)).1.2
    = [Info "refresh" "alice" "000123"].
Proof. repeat split; vm_compute; reflexivity. Qed.

(** C10, amended. Disconnect records a time for a label only when the
    connection was identified and the room still has connections after the
    removal; every other recorded time is one that was recorded before.  A
    label with no time recorded in the room before the Disconnect of a
    connection that is not bound to it (a never-identified connection among
    them) has none after it, and its next Identify in that room, at a clock
    reading of at least 5 s, finds 0 and takes the fresh-connect branch. *)
Theorem disconnect_records_identified_only websocket room_id now s :
  let R := normalize_room_id room_id in
  let label := default unknown_client (oget websocket (client_ids s)) in
  let s' := (disconnect websocket room_id now s).1 in
  (∀ room client_id t,
     recorded s' room client_id = Some t →
     recorded s room client_id = Some t
     ∨ (room = R ∧ client_id = label ∧ t = now ∧ label ≠ unknown_client
        ∧ websocket ∈ members s R ∧ members s' R ≠ []))
  ∧ (∀ client_id,
       recorded s R client_id = None →
       label = unknown_client ∨ client_id ≠ label →
       recorded s' R client_id = None
       ∧ ∀ websocket' t_connect t1,
           5 * sec ≤ t1 →
           let s'' := connect websocket' room_id t_connect s' in
           last_connection s'' R client_id = 0
           ∧ connect_notices
               (update_client_id websocket' client_id room_id t1 s'').1.2 = 1%nat
           ∧ refresh_notices
               (update_client_id websocket' client_id room_id t1 s'').1.2 = 0%nat).
Proof.
  intros R label s'.
  assert (∀ room client_id t,
     recorded s' room client_id = Some t →
     recorded s room client_id = Some t
     ∨ (room = R ∧ client_id = label ∧ t = now ∧ label ≠ unknown_client
        ∧ websocket ∈ members s R ∧ members s' R ≠ [])) as Hrec.
  { intros room client_id t.
    pose proof (disconnect_members websocket room_id now s R) as Hmem.
    fold s' in Hmem. rewrite decide_True in Hmem by done.
    revert Hmem. unfold s', recorded, members, disconnect. fold R label. cbn.
    destruct (active_connections s !! R) as [conns|] eqn:HR; cbn; [|by left].
    case_bool_decide as Hin; [|by left].
    destruct (remove_first websocket conns) as [|c rest] eqn:Hrem; cbn.
    - intros _. destruct (decide (room = R)) as [->|Hne].
      + by rewrite lookup_delete_eq.
      + rewrite lookup_delete_ne by done. by left.
    - destruct (last_connection_times s !! R) as [times|] eqn:Hlc; cbn; [|by left].
      case_bool_decide as Hid; cbn; [|by left].
      intros Hmem. destruct (decide (room = R)) as [->|Hne].
      + rewrite lookup_insert_eq. cbn. rewrite Hlc. cbn.
        destruct (decide (client_id = label)) as [->|Hc].
        * rewrite lookup_insert_eq. intros [= <-]. right.
          repeat split; try done. rewrite Hmem. done.
        * rewrite lookup_insert_ne by done. by left.
      + rewrite lookup_insert_ne by done. by left. }
  split; [done|].
  intros client_id Hnone Hother.
  assert (recorded s' R client_id = None) as Hnone'.
  { destruct (recorded s' R client_id) as [t|] eqn:Hafter; [|done].
    destruct (Hrec R client_id t Hafter) as [Hbefore|(_ & -> & _ & Hid & _)].
    - congruence.
    - by destruct Hother. }
  split; [done|]. intros websocket' t_connect t1 Hclock s''.
  assert (last_connection s'' R client_id = 0) as Hzero.
  { rewrite recorded_last_connection. unfold s''.
    destruct (connect_recorded websocket' room_id t_connect s' R client_id) as [->| ->];
      [by rewrite Hnone'|done]. }
  split; [done|]. by apply update_client_id_fresh.
Qed.

Lemma disconnect_records_identified_only_witness :
  recorded (disconnect 2 "000123" (2002 * sec) reloading).1 "000123" "carol" = None.
Proof.
  refine (proj1 (proj2 (disconnect_records_identified_only 2 "000123" (2002 * sec)
                          reloading) "carol" _ _)).
  - reflexivity.
  - left. reflexivity.
Defined.

(** ** The receive loop *)

Lemma touch_if_identified_reads websocket room_id now s :
  active_connections (touch_if_identified websocket room_id now s).2 = active_connections s
  ∧ safe_room_ids (touch_if_identified websocket room_id now s).2 = safe_room_ids s.
Proof. unfold touch_if_identified. cbn. by case_bool_decide. Qed.

(** A ping frame whose pong went out is then handed to [broadcast] like any
    other frame: every member of the room is sent the ping frame. *)
Lemma ping_reaches_every_member send_json_ok websocket room_id data now s h :
  let frame := deref h data in
  let pong := [("type", JStr "pong"); ("timestamp", default JNull (oget "timestamp" frame))] in
  let R := normalize_room_id room_id in
  (data < length h)%nat →
  oget "type" frame = Some (JStr "ping") →
  send_json_ok websocket pong = true →
  ∃ s' h' evs,
    handle_frame send_json_ok websocket room_id data now s h = Some (s', h', evs, Open)
    ∧ sends evs
      = (websocket, pong, true)
        :: map (fun ws => (ws, outbound s R frame, send_json_ok ws (outbound s R frame)))
             (members s R).
Proof.
  intros frame pong R Hlt Htype Hpong.
  assert (content_summary frame = Some (JStr "")) as Hsum.
  { unfold content_summary. by rewrite Htype. }
  unfold handle_frame. fold frame. rewrite Hsum, Htype. fold pong. rewrite Hpong.
  destruct (touch_if_identified_reads websocket room_id now s) as [Hact Hsafe].
  destruct (touch_if_identified websocket room_id now s) as [client_id s1].
  cbn in Hact, Hsafe.
  destruct (broadcast_spec send_json_ok room_id data s1 h Hlt) as (Hret & Hs & _).
  { fold frame. rewrite Hsum. eauto. }
  unfold broadcast_frame. rewrite Hret.
  eexists _, _, _. split; [reflexivity|].
  cbn. rewrite sends_app, Hs. fold frame R.
  unfold outbound, in_safe_room_ids, members. rewrite Hsafe, Hact.
  cbn. by rewrite app_nil_r.
Qed.

(** C1. A ping frame is not handled locally only: socket 1 of room 000123
    gets its pong, and the ping frame is then broadcast, unmodified, to both
    connections of the room.  A register frame is broadcast in the same
    way. *)
Theorem control_frames_are_broadcast :
  (fun r => (sends r.1.2, r.2))
    <$> handle_frame all_delivered 1 "000123" 0 (2000 * sec) duo [ping_frame]
  = Some ([(1%nat, pong_reply, true);
           (1%nat, ping_frame, true); (2%nat, ping_frame, true)], Open)
  ∧ (fun r => (sends r.1.2, r.2))
      <$> handle_frame all_delivered 1 "000123" 0 (2000 * sec) duo [register_frame]
    = Some ([(1%nat, register_frame, true); (2%nat, register_frame, true)], Open).
Proof. split; vm_compute; reflexivity. Qed.

(** A register frame that names a room without registry state ends the
    session: Identify raises, the handler logs the error and disconnects the
    socket from its own room. *)
Lemma register_elsewhere_closes_session :
  (fun r => (r.1.2, r.2, members r.1.1.1 "000123"))
    <$> handle_frame all_delivered 1 "000123" 0 (2000 * sec) duo [register_elsewhere]
  = Some ([Info "connect" "carol" "999999"; Error "error";
           InfoDuration "carol" "000123" (1000 * sec)], Closed, [2%nat]).
Proof. vm_compute. reflexivity. Qed.

(** A text frame whose content is not a string ends the session before any
    broadcast. *)
Lemma numeric_text_closes_session :
  (fun r => (sends r.1.2, r.2))
    <$> handle_frame all_delivered 1 "000123" 0 (2000 * sec) duo [numeric_text]
  = Some ([], Closed).
Proof. vm_compute. reflexivity. Qed.


(** * Further properties of the hub *)

(** ** The timing maps follow the rooms *)

Lemma connect_timing_maps_bounded websocket room_id now s :
  timing_maps_bounded s → timing_maps_bounded (connect websocket room_id now s).
Proof.
  intros Hs room. unfold timing_maps_bounded, connect in *. cbn.
  set (R := normalize_room_id room_id).
  destruct (active_connections s !! R) as [conns|] eqn:HR; cbn.
  - destruct (decide (room = R)) as [->|Hne].
    + by rewrite lookup_insert_eq.
    + rewrite lookup_insert_ne by done. apply Hs.
  - destruct (decide (room = R)) as [->|Hne].
    + by rewrite lookup_insert_eq.
    + rewrite !lookup_insert_ne by done. apply Hs.
Qed.

Lemma disconnect_timing_maps_bounded websocket room_id now s :
  timing_maps_bounded s → timing_maps_bounded (disconnect websocket room_id now s).1.
Proof.
  intros Hs room. unfold timing_maps_bounded, disconnect in *. cbn.
  set (R := normalize_room_id room_id).
  destruct (active_connections s !! R) as [conns|] eqn:HR; cbn; [|apply Hs].
  case_bool_decide; [|apply Hs].
  destruct (remove_first websocket conns) as [|c rest]; cbn.
  - destruct (decide (room = R)) as [->|Hne].
    + by rewrite !lookup_delete_eq.
    + rewrite !lookup_delete_ne by done. apply Hs.
  - destruct (last_connection_times s !! R) as [times|] eqn:Htimes; cbn.
    + case_bool_decide; cbn.
      * destruct (decide (room = R)) as [->|Hne].
        -- by rewrite lookup_insert_eq.
        -- rewrite !lookup_insert_ne by done. apply Hs.
      * destruct (decide (room = R)) as [->|Hne].
        -- by rewrite lookup_insert_eq.
        -- rewrite !lookup_insert_ne by done. apply Hs.
    + destruct (decide (room = R)) as [->|Hne].
      * by rewrite lookup_insert_eq.
      * rewrite !lookup_insert_ne by done. apply Hs.
Qed.

Lemma update_client_id_timing_maps_bounded websocket client_id room_id now s :
  timing_maps_bounded s →
  timing_maps_bounded (update_client_id websocket client_id room_id now s).1.1.
Proof.
  intros Hs room. rewrite update_client_id_active_connections. intros Hroom.
  destruct (Hs room Hroom) as [Hc Hr]. unfold update_client_id.
  destruct (decide (normalize_room_id room_id = room)) as [Heq|Hne].
  - subst room. repeat (case_match; simpl in *; simplify_eq); done.
  - repeat (case_match; simpl in *; simplify_eq); simpl;
      rewrite ?lookup_insert_ne by done; done.
Qed.

Lemma step_timing_maps_bounded o s :
  timing_maps_bounded s → timing_maps_bounded (step o s).1.
Proof.
  intros Hs. destruct o as [ws r t|ws r t|ws c r t|r c t|ok t clock]; cbn.
  - by apply connect_timing_maps_bounded.
  - by apply disconnect_timing_maps_bounded.
  - by apply update_client_id_timing_maps_bounded.
  - apply Hs.
  - apply (check_timeout_pass_preserves timing_maps_bounded);
      [|intros; by apply disconnect_timing_maps_bounded|done].
    intros f s0 Hs0. apply Hs0.
Qed.

Lemma reachable_timing_maps_bounded s : reachable s → timing_maps_bounded s.
Proof.
  induction 1 as [safe|o s Hreach IH Hadm].
  - intros room _. unfold init. cbn. by rewrite !lookup_empty.
  - by apply step_timing_maps_bounded.
Qed.

(** X1. In every registry the endpoint reaches, a room has a last-connection
    map, and a last-refresh map, exactly when it has connections: the timing
    maps of a room are created with its first connection and do not outlive
    its last one. *)
Theorem timing_maps_follow_rooms s room :
  reachable s →
  (is_Some (last_connection_times s !! room) ↔ is_Some (active_connections s !! room))
  ∧ (is_Some (last_refresh_times s !! room) ↔ is_Some (active_connections s !! room)).
Proof.
  intros Hreach.
  pose proof (reachable_timing_maps_bounded s Hreach room) as Hbound.
  destruct (reachable_invariants s Hreach) as (_ & Hreg & _).
  specialize (Hreg room). unfold room_registered in Hreg.
  destruct (active_connections s !! room) as [conns|] eqn:Hroom.
  - destruct Hreg as [Hc Hr]; [eauto|]. split; split; eauto.
  - destruct Hbound as [-> ->]; [done|]. split; split; intros []; done.
Qed.

Lemma reachable_lobby : reachable lobby.
Proof.
  apply (reachable_step (Connect 1 "000123" (1000 * sec)) (init [])).
  - apply reachable_init.
  - intros room. unfold members, init. cbn. rewrite lookup_empty. apply not_elem_of_nil.
Qed.

Lemma timing_maps_follow_rooms_witness :
  is_Some (last_connection_times lobby !! "000123")
  ↔ is_Some (active_connections lobby !! "000123").
Proof.
  exact (proj1 (timing_maps_follow_rooms lobby "000123" reachable_lobby)).
Defined.

(** ** Room identifiers *)

Lemma append_nil_l (t : string) : "" +:+ t = t.
Proof. reflexivity. Qed.

Lemma append_cons (c : ascii) (s t : string) : String c s +:+ t = String c (s +:+ t).
Proof. reflexivity. Qed.

Lemma length_append (s1 s2 : string) :
  String.length (s1 +:+ s2) = (String.length s1 + String.length s2)%nat.
Proof.
  induction s1 as [|c s1 IH]; [done|]. rewrite append_cons. simpl. by f_equal.
Qed.

Lemma append_assoc (s1 s2 s3 : string) : (s1 +:+ s2) +:+ s3 = s1 +:+ (s2 +:+ s3).
Proof.
  induction s1 as [|c s1 IH]; [done|]. rewrite !append_cons. by f_equal.
Qed.

Lemma append_nil_r (s : string) : s +:+ "" = s.
Proof. induction s as [|c s IH]; [done|]. rewrite append_cons. by f_equal. Qed.

Lemma length_zeros n : String.length (Py.zeros n) = n.
Proof. induction n as [|n IH]; simpl; [done|]. by f_equal. Qed.

Lemma zeros_add (a b : nat) : Py.zeros a +:+ Py.zeros b = Py.zeros (a + b).
Proof.
  induction a as [|a IH]; [done|]. simpl. rewrite append_cons. by f_equal.
Qed.

Lemma all_digits_append s1 s2 :
  Py.all_digits (s1 +:+ s2) = (Py.all_digits s1 && Py.all_digits s2)%bool.
Proof.
  induction s1 as [|c s1 IH]; [done|]. rewrite append_cons. simpl.
  rewrite IH. by rewrite andb_assoc.
Qed.

Lemma all_digits_zeros n : Py.all_digits (Py.zeros n) = true.
Proof. induction n as [|n IH]; simpl; done. Qed.

Lemma isdigit_all_digits s : Py.isdigit s = true → Py.all_digits s = true.
Proof. by destruct s. Qed.

(** A digit is not a sign, so [zfill] pads a digit string at the front. *)
Lemma zfill_digits width s :
  Py.isdigit s = true → Py.zfill width s = Py.zeros (width - String.length s) +:+ s.
Proof.
  intros Hd. unfold Py.zfill.
  destruct (width <=? String.length s)%nat eqn:Hw.
  - apply Nat.leb_le in Hw. replace (width - String.length s)%nat with 0%nat by lia. done.
  - destruct s as [|c r]; [done|]. cbn in Hd.
    apply andb_true_iff in Hd as [Hc _].
    assert ((Ascii.eqb c "+" || Ascii.eqb c "-")%bool = false) as ->; [|done].
    apply orb_false_iff. split; apply Ascii.eqb_neq; intros ->; done.
Qed.

Lemma isdigit_zfill width s : Py.isdigit s = true → Py.isdigit (Py.zfill width s) = true.
Proof.
  intros Hd. rewrite zfill_digits by done.
  assert (Py.all_digits (Py.zeros (width - String.length s) +:+ s) = true) as Hall.
  { rewrite all_digits_append, all_digits_zeros. by apply isdigit_all_digits. }
  destruct (Py.zeros (width - String.length s) +:+ s) eqn:Happ; [|done].
  destruct s; [done|]. by destruct (width - _)%nat.
Qed.

Lemma length_zfill width s :
  Py.isdigit s = true → String.length (Py.zfill width s) = (width `max` String.length s)%nat.
Proof.
  intros Hd. rewrite zfill_digits by done. rewrite length_append, length_zeros. lia.
Qed.

Lemma zfill_long width s : (width ≤ String.length s)%nat → Py.zfill width s = s.
Proof. intros Hw. unfold Py.zfill. by rewrite (proj2 (Nat.leb_le _ _) Hw). Qed.

Lemma normalize_room_id_idemp room_id :
  normalize_room_id (normalize_room_id room_id) = normalize_room_id room_id.
Proof.
  unfold normalize_room_id. destruct (Py.isdigit room_id) eqn:Hd.
  - rewrite isdigit_zfill by done. apply zfill_long. rewrite length_zfill by done. lia.
  - by rewrite Hd.
Qed.

Lemma isascii_digits s : Py.all_digits s = true → PyStr.isascii s = true.
Proof.
  induction s as [|c s IH]; [done|]. cbn.
  intros [Hc Hs]%andb_true_iff. rewrite IH by done. rewrite andb_true_r.
  unfold Py.is_ascii_digit in Hc. apply andb_true_iff in Hc as [_ Hc%Nat.leb_le].
  apply Nat.leb_le. lia.
Qed.

(** X3. On ASCII strings, where a character of the embedding is a code point
    and [Py.isdigit] is [str.isdigit], [normalize_room_id] is idempotent and
    gives the canonical form: the result is ASCII again; a string of digits
    comes out as a string of digits of length at least 6 (exactly 6 when it
    had at most 6); every other string comes out as it is; and a string of
    six characters or more is a fixed point. *)
Theorem normalize_room_id_canonical room_id :
  PyStr.isascii room_id = true →
  normalize_room_id (normalize_room_id room_id) = normalize_room_id room_id
  ∧ PyStr.isascii (normalize_room_id room_id) = true
  ∧ (Py.isdigit room_id = true →
     Py.isdigit (normalize_room_id room_id) = true
     ∧ String.length (normalize_room_id room_id) = (6 `max` String.length room_id)%nat)
  ∧ (Py.isdigit room_id = false → normalize_room_id room_id = room_id)
  ∧ ((6 ≤ String.length room_id)%nat → normalize_room_id room_id = room_id).
Proof.
  intros Hascii. unfold normalize_room_id.
  destruct (Py.isdigit room_id) eqn:Hd.
  - rewrite isdigit_zfill by done. split; [|split; [|split; [|split]]].
    + apply zfill_long. rewrite length_zfill by done. lia.
    + by apply isascii_digits, isdigit_all_digits, isdigit_zfill.
    + intros _. split; [done|by apply length_zfill].
    + done.
    + apply zfill_long.
  - rewrite Hd. done.
Qed.

Lemma normalize_room_id_canonical_witness :
  normalize_room_id (normalize_room_id "123") = normalize_room_id "123"
  ∧ String.length (normalize_room_id "123") = 6%nat.
Proof.
  destruct (normalize_room_id_canonical "123" eq_refl) as (Hidem & _ & Hdigits & _).
  split; [exact Hidem|]. exact (proj2 (Hdigits eq_refl)).
Defined.

(** X4. Identifiers that differ in leading zeros only name the same room:
    padding a digit string with zeros, up to six characters in all, does not
    change what it normalises to. *)
Theorem normalize_room_id_leading_zeros (k : nat) room_id :
  Py.isdigit room_id = true →
  (k + String.length room_id ≤ 6)%nat →
  normalize_room_id (Py.zeros k +:+ room_id) = normalize_room_id room_id.
Proof.
  intros Hd Hlen.
  assert (Py.isdigit (Py.zeros k +:+ room_id) = true) as Hd'.
  { assert (Py.all_digits (Py.zeros k +:+ room_id) = true) as Hall.
    { rewrite all_digits_append, all_digits_zeros. by apply isdigit_all_digits. }
    destruct (Py.zeros k +:+ room_id) eqn:Happ; [|done].
    destruct room_id; [done|]. by destruct k. }
  unfold normalize_room_id. rewrite Hd, Hd'. rewrite !zfill_digits by done.
  rewrite length_append, length_zeros. rewrite <- append_assoc, zeros_add.
  f_equal. f_equal. lia.
Qed.

Lemma normalize_room_id_leading_zeros_witness :
  normalize_room_id (Py.zeros 2 +:+ "123") = normalize_room_id "123".
Proof.
  apply (normalize_room_id_leading_zeros 2 "123"); [reflexivity|simpl; lia].
Defined.

(** ** A connection that comes and goes *)

Lemma odel_oset_absent {V} (k : nat) (v : V) (d : list (nat * V)) :
  oget k d = None → odel k (oset k v d) = d.
Proof.
  induction d as [|[k' v'] d IH]; cbn.
  - intros _. by rewrite decide_True.
  - destruct (decide (k = k')) as [->|Hne]; [done|]. intros Hd. cbn.
    rewrite decide_False by done. by rewrite IH.
Qed.

Lemma remove_first_app_last x (l : list nat) : x ∉ l → remove_first x (l ++ [x]) = l.
Proof.
  induction l as [|y l IH]; cbn.
  - intros _. by rewrite decide_True.
  - intros [Hne Hl]%not_elem_of_cons. rewrite decide_False by done. by rewrite IH.
Qed.

Lemma manager_ext (s s' : ConnectionManager) :
  active_connections s = active_connections s' →
  client_ids s = client_ids s' →
  connection_times s = connection_times s' →
  last_connection_times s = last_connection_times s' →
  last_refresh_times s = last_refresh_times s' →
  last_activity_times s = last_activity_times s' →
  safe_room_ids s = safe_room_ids s' →
  s = s'.
Proof. destruct s, s'. simpl. by intros -> -> -> -> -> -> ->. Qed.

Lemma connect_active_connections websocket room_id now s :
  active_connections (connect websocket room_id now s)
  = <[normalize_room_id room_id :=
        members s (normalize_room_id room_id) ++ [websocket]]> (active_connections s).
Proof.
  unfold connect, members.
  destruct (active_connections s !! normalize_room_id room_id) as [conns|] eqn:HR.
  - simpl. by rewrite HR.
  - simpl. by rewrite lookup_insert_eq, insert_insert_eq.
Qed.

Lemma connect_last_connection_times websocket room_id now s :
  last_connection_times (connect websocket room_id now s)
  = match active_connections s !! normalize_room_id room_id with
    | Some _ => last_connection_times s
    | None => <[normalize_room_id room_id := ∅]> (last_connection_times s)
    end.
Proof. unfold connect. by destruct (active_connections s !! normalize_room_id room_id). Qed.

Lemma connect_last_refresh_times websocket room_id now s :
  last_refresh_times (connect websocket room_id now s)
  = match active_connections s !! normalize_room_id room_id with
    | Some _ => last_refresh_times s
    | None => <[normalize_room_id room_id := ∅]> (last_refresh_times s)
    end.
Proof. unfold connect. by destruct (active_connections s !! normalize_room_id room_id). Qed.

Lemma connect_last_activity_times websocket room_id now s :
  last_activity_times (connect websocket room_id now s) = last_activity_times s.
Proof. unfold connect. by destruct (active_connections s !! normalize_room_id room_id). Qed.

Lemma connect_safe_room_ids websocket room_id now s :
  safe_room_ids (connect websocket room_id now s) = safe_room_ids s.
Proof. unfold connect. by destruct (active_connections s !! normalize_room_id room_id). Qed.

(** The reconnect map after [disconnect]: the room's entry goes with the
    room; in a room that stays, the time is written for an identified socket
    only. *)
Lemma disconnect_last_connection_times websocket room_id now s :
  let R := normalize_room_id room_id in
  last_connection_times (disconnect websocket room_id now s).1
  = match active_connections s !! R with
    | Some conns =>
        if decide (websocket ∈ conns) then
          match remove_first websocket conns with
          | [] => delete R (last_connection_times s)
          | _ =>
              match last_connection_times s !! R with
              | Some times =>
                  if bool_decide (label s websocket ≠ unknown_client)
                  then <[R := <[label s websocket := now]> times]>
                         (last_connection_times s)
                  else last_connection_times s
              | None => last_connection_times s
              end
          end
        else last_connection_times s
    | None => last_connection_times s
    end.
Proof.
  intros R. unfold disconnect, label. fold R. simpl.
  destruct (active_connections s !! R) as [conns|]; [|done].
  case_bool_decide; [rewrite decide_True by done | by rewrite decide_False].
  destruct (remove_first websocket conns); simpl; [done|].
  destruct (last_connection_times s !! R); simpl; [|done].
  by destruct (bool_decide _).
Qed.

Lemma disconnect_last_refresh_times websocket room_id now s :
  let R := normalize_room_id room_id in
  last_refresh_times (disconnect websocket room_id now s).1
  = match active_connections s !! R with
    | Some conns =>
        if decide (websocket ∈ conns) then
          match remove_first websocket conns with
          | [] => delete R (last_refresh_times s)
          | _ => last_refresh_times s
          end
        else last_refresh_times s
    | None => last_refresh_times s
    end.
Proof.
  intros R. unfold disconnect. fold R. simpl.
  destruct (active_connections s !! R) as [conns|]; [|done].
  case_bool_decide; [rewrite decide_True by done | by rewrite decide_False].
  destruct (remove_first websocket conns); simpl; [done|].
  destruct (last_connection_times s !! R); simpl; [|done].
  by destruct (bool_decide _).
Qed.

(** Disconnect right after Connect of a socket the registry did not know. *)
Lemma disconnect_connect_state websocket room_id t1 t2 s :
  rooms_nonempty s → timing_maps_bounded s → removed websocket s →
  (disconnect websocket room_id t2 (connect websocket room_id t1 s)).1 = s.
Proof.
  intros Hne Hbound (Htime & Hid & Hout).
  set (R := normalize_room_id room_id).
  specialize (Hout R). specialize (Hbound R). specialize (Hne R).
  assert (websocket ∈ members s R ++ [websocket]) as Hin
    by (apply elem_of_app; right; apply list_elem_of_here).
  assert (label (connect websocket room_id t1 s) websocket = unknown_client) as Hlabel.
  { unfold label. by rewrite connect_client_ids, oget_oset_eq. }
  assert (match members s R with
          | [] => active_connections s !! R = None
          | conns => active_connections s !! R = Some conns
          end) as Hroom.
  { unfold members. destruct (active_connections s !! R) as [conns|] eqn:HR; [|done].
    simpl. destruct conns; [by destruct (Hne [] eq_refl)|done]. }
  apply manager_ext.
  - rewrite disconnect_active_connections. cbv zeta. fold R.
    rewrite connect_active_connections. fold R. rewrite lookup_insert_eq.
    rewrite decide_True by done. rewrite remove_first_app_last by done.
    destruct (members s R) as [|c rest].
    + by rewrite delete_insert_id.
    + by rewrite insert_insert_eq, insert_id.
  - rewrite disconnect_client_ids, connect_client_ids. by apply odel_oset_absent.
  - rewrite disconnect_connection_times, connect_connection_times.
    by apply delete_insert_id.
  - rewrite disconnect_last_connection_times. cbv zeta. fold R.
    rewrite connect_active_connections. fold R. rewrite lookup_insert_eq.
    rewrite decide_True by done. rewrite remove_first_app_last by done.
    rewrite Hlabel, connect_last_connection_times. fold R.
    rewrite bool_decide_eq_false_2 by (intros Hx; by apply Hx).
    destruct (members s R) as [|c rest].
    + rewrite Hroom. destruct Hbound as [Hc _]; [done|]. by apply delete_insert_id.
    + rewrite Hroom. by destruct (last_connection_times s !! R).
  - rewrite disconnect_last_refresh_times. cbv zeta. fold R.
    rewrite connect_active_connections. fold R. rewrite lookup_insert_eq.
    rewrite decide_True by done. rewrite remove_first_app_last by done.
    rewrite connect_last_refresh_times. fold R.
    destruct (members s R) as [|c rest].
    + rewrite Hroom. destruct Hbound as [_ Hr]; [done|]. by apply delete_insert_id.
    + by rewrite Hroom.
  - by rewrite disconnect_last_activity_times, connect_last_activity_times.
  - by rewrite disconnect_safe_room_ids, connect_safe_room_ids.
Qed.

Lemma disconnect_report websocket room_id now s :
  (disconnect websocket room_id now s).2
  = let duration := now - default 0 (connection_times s !! websocket) in
    if (bool_decide (duration > 5 * sec)
        && negb (bool_decide (connection_times s !! websocket = None)))%bool
    then [InfoDuration
            (if in_safe_rooms_str s (normalize_room_id room_id) then anonymous
             else default unknown_client (oget websocket (client_ids s)))
            (normalize_room_id (normalize_room_id room_id)) duration]
    else [].
Proof. reflexivity. Qed.

(** X2. A connection that is accepted and closed again without having
    identified itself leaves no trace: in a reachable registry, Disconnect
    after Connect of a socket the registry did not know gives back the
    registry exactly as it was before the Connect (the room, its timing maps,
    labels, connect times and activity maps alike); it reports the duration
    when the connection lasted more than 5 seconds and nothing otherwise. *)
Theorem connect_disconnect_round_trip websocket room_id t1 t2 s :
  reachable s →
  removed websocket s →
  (disconnect websocket room_id t2 (connect websocket room_id t1 s)).1 = s
  ∧ (t2 - t1 ≤ 5 * sec →
     (disconnect websocket room_id t2 (connect websocket room_id t1 s)).2 = [])
  ∧ (t2 - t1 > 5 * sec →
     ∃ who, (disconnect websocket room_id t2 (connect websocket room_id t1 s)).2
            = [InfoDuration who (normalize_room_id room_id) (t2 - t1)]).
Proof.
  intros Hreach Hgone.
  split.
  { apply disconnect_connect_state; [|by apply reachable_timing_maps_bounded|done].
    by destruct (reachable_invariants s Hreach) as (_ & _ & Hne). }
  rewrite disconnect_report, connect_connection_times, lookup_insert_eq.
  cbv zeta. unfold default, negb.
  rewrite (bool_decide_eq_false_2 (Some t1 = None)) by done. rewrite andb_true_r.
  rewrite normalize_room_id_idemp.
  split; intros Hdur.
  - by rewrite (bool_decide_eq_false_2 (t2 - t1 > 5 * sec)) by lia.
  - rewrite (bool_decide_eq_true_2 (t2 - t1 > 5 * sec)) by done. eauto.
Qed.

Lemma connect_disconnect_round_trip_witness :
  (disconnect 2 "000123" (1003 * sec) (connect 2 "000123" (1002 * sec) lobby)).1 = lobby.
Proof.
  refine (proj1 (connect_disconnect_round_trip 2 "000123" (1002 * sec) (1003 * sec)
                   lobby reachable_lobby _)).
  split; [reflexivity|]. split; [reflexivity|].
  intros room. unfold lobby. rewrite connect_members.
  destruct (decide (room = normalize_room_id "000123")).
  - unfold members, init. cbn. rewrite lookup_empty. cbn.
    intros Hin%list_elem_of_singleton. discriminate Hin.
  - unfold members, init. cbn. rewrite lookup_empty. apply not_elem_of_nil.
Defined.

Lemma connect_starts_room websocket room_id now s :
  active_connections s !! normalize_room_id room_id = None →
  last_connection_times (connect websocket room_id now s) !! normalize_room_id room_id
  = Some ∅
  ∧ last_refresh_times (connect websocket room_id now s) !! normalize_room_id room_id
    = Some ∅.
Proof. intros Hnone. unfold connect. rewrite Hnone. cbn. by rewrite !lookup_insert_eq. Qed.

(** X5. A client who was alone in its room is never recognised as a page
    refresh: its Disconnect empties the room and deletes the room's timing
    maps, so after the next Connect its Identify returns normally on the
    fresh-connect branch (one connect notification, no refresh notification)
    however soon after the Disconnect it comes. *)
Theorem lone_client_reload_is_fresh websocket websocket' client_id room_id
    t_disconnect t_connect t1 s :
  let R := normalize_room_id room_id in
  members s R = [websocket] →
  5 * sec ≤ t1 →
  let s' := connect websocket' room_id t_connect
              (disconnect websocket room_id t_disconnect s).1 in
  (update_client_id websocket' client_id room_id t1 s').2 = Returned
  ∧ connect_notices (update_client_id websocket' client_id room_id t1 s').1.2 = 1%nat
  ∧ refresh_notices (update_client_id websocket' client_id room_id t1 s').1.2 = 0%nat
  ∧ last_connection s' R client_id = 0.
Proof.
  intros R Hlone Hclock s'.
  assert (active_connections (disconnect websocket room_id t_disconnect s).1 !! R = None)
    as Hempty.
  { rewrite disconnect_active_connections. fold R. unfold members in Hlone.
    destruct (active_connections s !! R) as [conns|] eqn:HR; [|done].
    cbn in Hlone. subst conns.
    rewrite decide_True by apply list_elem_of_here. cbn.
    rewrite decide_True by done. apply lookup_delete_eq. }
  destruct (connect_starts_room websocket' room_id t_connect _ Hempty) as [Hc Hr].
  fold s' R in Hc, Hr.
  assert (last_connection s' R client_id = 0) as Hzero.
  { unfold last_connection. rewrite Hc. cbn. by rewrite lookup_empty. }
  destruct (update_client_id_registered websocket' client_id room_id t1 s')
    as (s2 & evs & Hrun & _ & _ & _ & Hc1 & _ & _ & Hr0 & _).
  { split; fold R; [rewrite Hc|rewrite Hr]; eauto. }
  fold R in Hc1, Hr0. rewrite Hzero in Hc1, Hr0. rewrite Hrun. cbn.
  split; [done|]. split; [apply Hc1; lia|]. split; [apply Hr0; lia|done].
Qed.

Lemma lone_client_reload_is_fresh_witness :
  connect_notices
    (update_client_id 2 "alice" "000123" (1011 * sec)
       (connect 2 "000123" (1011 * sec)
          (disconnect 1 "000123" (1010 * sec) lobby).1)).1.2 = 1%nat.
Proof.
  refine (proj1 (proj2 (lone_client_reload_is_fresh 1 2 "alice" "000123"
                          (1010 * sec) (1011 * sec) (1011 * sec) lobby _ _))).
  - reflexivity.
  - unfold sec. lia.
Defined.

(** ** A sweep and the connections that are not idle *)

Section odict_keys.
Context {K V : Type} `{EqDecision K}.
Implicit Types d : list (K * V).

Lemma okeys_odel_subset k k' d : k' ∈ okeys (odel k d) → k' ∈ okeys d.
Proof.
  unfold okeys. induction d as [|[k0 v0] d IH]; [done|]. cbn. case_decide.
  - intros Hin. by apply list_elem_of_further, IH.
  - cbn. intros [->|Hin]%elem_of_cons; [apply list_elem_of_here|].
    by apply list_elem_of_further, IH.
Qed.

Lemma NoDup_okeys_odel k d : NoDup (okeys d) → NoDup (okeys (odel k d)).
Proof.
  unfold okeys. induction d as [|[k0 v0] d IH]; [done|]. cbn.
  intros [Hout Hd]%NoDup_cons. case_decide; [by apply IH|].
  cbn. apply NoDup_cons. split; [|by apply IH].
  intros Hin. by apply Hout, (okeys_odel_subset k).
Qed.

Lemma okeys_oset k v d :
  okeys (oset k v d) = if decide (k ∈ okeys d) then okeys d else okeys d ++ [k].
Proof.
  unfold okeys. induction d as [|[k0 v0] d IH]; [done|]. cbn.
  destruct (decide (k = k0)) as [->|Hne].
  - cbn. by rewrite decide_True by apply list_elem_of_here.
  - cbn. rewrite IH. destruct (decide (k ∈ d.*1)) as [Hin|Hout].
    + by rewrite decide_True by (by apply list_elem_of_further).
    + rewrite decide_False; [done|]. rewrite elem_of_cons. tauto.
Qed.

Lemma NoDup_okeys_oset k v d : NoDup (okeys d) → NoDup (okeys (oset k v d)).
Proof.
  intros Hd. rewrite okeys_oset. case_decide as Hin; [done|].
  apply NoDup_app. split; [done|]. split; [|apply NoDup_singleton].
  intros x Hx ->%list_elem_of_singleton. done.
Qed.

Lemma oget_item k v d : NoDup (okeys d) → (k, v) ∈ d → oget k d = Some v.
Proof.
  unfold okeys. induction d as [|[k0 v0] d IH]; intros Hd Hin.
  - by apply elem_of_nil in Hin.
  - cbn in *. apply NoDup_cons in Hd as [Hout Hd].
    apply elem_of_cons in Hin as [[= -> ->]|Hin].
    + by rewrite decide_True.
    + rewrite decide_False; [by apply IH|].
      intros ->. apply Hout. apply list_elem_of_fmap. by exists (k0, v).
Qed.

Lemma oget_None_keys k d : oget k d = None → k ∉ okeys d.
Proof.
  unfold okeys. induction d as [|[k0 v0] d IH]; intros Hget.
  - apply not_elem_of_nil.
  - cbn in *. destruct (decide (k = k0)); [done|].
    rewrite not_elem_of_cons. split; [done|by apply IH].
Qed.

End odict_keys.

Lemma remove_first_other x y (l : list nat) : x ∈ l → x ≠ y → x ∈ remove_first y l.
Proof.
  intros Hin Hne. induction l as [|z l IH]; [done|]. cbn. case_decide as Hz.
  - subst z. apply elem_of_cons in Hin as [->|Hin]; done.
  - apply elem_of_cons in Hin as [->|Hin]; [apply list_elem_of_here|].
    by apply list_elem_of_further, IH.
Qed.

Lemma for_each_invariant {A} (P : ConnectionManager → Prop) (Q : list event → Prop)
    (body : A → ConnectionManager → ConnectionManager * list event) :
  Q [] → (∀ evs evs', Q evs → Q evs' → Q (evs ++ evs')) →
  ∀ xs s,
    (∀ x s', x ∈ xs → P s' → P (body x s').1 ∧ Q (body x s').2) →
    P s → P (for_each body xs s).1 ∧ Q (for_each body xs s).2.
Proof.
  intros Hnil Happ. induction xs as [|x xs IH]; intros s Hbody Hs; [done|].
  cbn. destruct (Hbody x s (list_elem_of_here _ _) Hs) as [H1 H1'].
  destruct (body x s) as [s1 evs]. cbn in *.
  destruct (IH s1) as [H2 H2']; [|done|].
  { intros x' s' Hx'. apply Hbody. by apply list_elem_of_further. }
  destruct (for_each body xs s1) as [s2 evs']. cbn in *. auto.
Qed.

Lemma recipients_app evs evs' : recipients (evs ++ evs') = recipients evs ++ recipients evs'.
Proof. unfold recipients. by rewrite sends_app, !fmap_app. Qed.

Lemma disconnect_recipients websocket room_id now s :
  recipients (disconnect websocket room_id now s).2 = [].
Proof. unfold disconnect. cbn. by repeat case_match. Qed.

Lemma disconnect_labels_distinct websocket room_id now s :
  labels_distinct s → labels_distinct (disconnect websocket room_id now s).1.
Proof.
  unfold labels_distinct. rewrite disconnect_client_ids. apply NoDup_okeys_odel.
Qed.

Lemma step_labels_distinct o s : labels_distinct s → labels_distinct (step o s).1.
Proof.
  intros Hs. destruct o as [ws r t|ws r t|ws c r t|r c t|ok t clock]; cbn.
  - unfold labels_distinct. rewrite connect_client_ids. by apply NoDup_okeys_oset.
  - by apply disconnect_labels_distinct.
  - unfold labels_distinct. rewrite update_client_id_client_ids.
    by apply NoDup_okeys_oset.
  - done.
  - apply (check_timeout_pass_preserves labels_distinct);
      [done|intros; by apply disconnect_labels_distinct|done].
Qed.

Lemma reachable_labels_distinct s : reachable s → labels_distinct s.
Proof.
  induction 1 as [safe|o s Hreach IH Hadm]; [apply NoDup_nil_2|].
  by apply step_labels_distinct.
Qed.

Section sweep_spares.
Variable send_json_ok : nat → list (string * json) → bool.
Variables (now : Z) (clock : nat → Z).
Variables (websocket : nat) (room client_id : string) (start : option Z).

Lemma unaddressed_nil : unaddressed websocket [].
Proof. apply not_elem_of_nil. Qed.

Lemma unaddressed_app evs evs' : unaddressed websocket evs → unaddressed websocket evs' → unaddressed websocket (evs ++ evs').
Proof. unfold unaddressed. rewrite recipients_app, elem_of_app. tauto. Qed.

Lemma standing_activity f s :
  standing now websocket room client_id start s →
  (∀ t, activity (with_last_activity_times f s) room client_id = Some t →
        now - t ≤ timeout_seconds * sec) →
  standing now websocket room client_id start (with_last_activity_times f s).
Proof.
  intros (Hu & Hl & (Hin & Hid & _) & Hct) Hact.
  split; [exact Hu|]. split; [exact Hl|]. split; [|exact Hct].
  split; [exact Hin|]. split; [exact Hid|exact Hact].
Qed.

Lemma standing_disconnect w room_id t s :
  standing now websocket room client_id start s → w ≠ websocket → standing now websocket room client_id start (disconnect w room_id t s).1.
Proof.
  intros (Hu & Hl & (Hin & Hid & Hact) & Hct) Hne.
  split; [by apply disconnect_sockets_unique|].
  split; [by apply disconnect_labels_distinct|].
  split; [split; [|split]|].
  - rewrite disconnect_members. case_decide; [|done].
    by apply remove_first_other.
  - rewrite disconnect_client_ids. by rewrite oget_odel_ne.
  - intros t'. rewrite activity_disconnect. apply Hact.
  - rewrite disconnect_connection_times. by rewrite lookup_delete_ne.
Qed.

Lemma check_client_spares room_id k s :
  standing now websocket room client_id start s →
  (room_id = room → k = client_id → is_Some (activity s room client_id)) →
  standing now websocket room client_id start (check_client send_json_ok now clock room_id k s).1
  ∧ unaddressed websocket (check_client send_json_ok now clock room_id k s).2
  ∧ activity (check_client send_json_ok now clock room_id k s).1 room client_id
    = activity s room client_id.
Proof.
  intros Hkept Hentry.
  pose proof Hkept as (Hu & Hl & (Hin & Hid & Hact) & Hct).
  unfold check_client.
  destruct (oget room_id (last_activity_times s)) as [clients|] eqn:Hroom;
    [|split; [done|split; [apply unaddressed_nil|done]]].
  case_bool_decide as Hstale; [|split; [done|split; [apply unaddressed_nil|done]]].
  assert (¬ (room = room_id ∧ client_id = k)) as Hother.
  { intros [<- <-]. destruct Hentry as [t Ht]; [done..|].
    specialize (Hact t Ht). unfold activity in Ht. rewrite Hroom in Ht. cbn in Ht.
    rewrite Ht in Hstale. cbn in Hstale. lia. }
  assert (∀ t, activity (with_last_activity_times (drop_activity room_id k) s)
                 room client_id = Some t → now - t ≤ timeout_seconds * sec) as Hact'.
  { intros t. rewrite activity_drop. rewrite decide_False by tauto. apply Hact. }
  assert (activity (with_last_activity_times (drop_activity room_id k) s)
            room client_id = activity s room client_id) as Hsame.
  { rewrite activity_drop. by rewrite decide_False by tauto. }
  destruct (bound_websocket s room_id k (client_ids s)) as [w|] eqn:Hbound.
  - apply bound_websocket_Some in Hbound as [Hitem Hw].
    assert (w ≠ websocket) as Hne.
    { intros ->. apply Hother. split.
      - destruct Hu as [_ Hone]. by apply (Hone _ _ websocket).
      - apply (oget_item _ _ _ Hl) in Hitem. congruence. }
    pose proof (standing_disconnect w room_id (clock w) _
                  (standing_activity (drop_activity room_id k) s Hkept Hact') Hne) as Hk.
    assert (unaddressed websocket
              (disconnect w room_id (clock w)
                 (with_last_activity_times (drop_activity room_id k) s)).2) as Hrec.
    { unfold unaddressed. rewrite disconnect_recipients. apply not_elem_of_nil. }
    pose proof (activity_disconnect w room_id (clock w)
                  (with_last_activity_times (drop_activity room_id k) s)
                  room client_id) as Hd.
    destruct (disconnect w room_id (clock w) _) as [s2 report]. cbn [fst snd] in *.
    split; [done|]. split; [|congruence].
    apply unaddressed_app; [|done].
    unfold unaddressed, recipients, sends.
    destruct (send_json_ok w session_timeout_message); cbn;
      by apply not_elem_of_cons; split; [|apply not_elem_of_nil].
  - cbn. split; [by apply standing_activity|]. split; [apply unaddressed_nil|done].
Qed.

Lemma check_clients_spares room_id ks : ∀ s,
  standing now websocket room client_id start s →
  (room_id = room → client_id ∈ ks → is_Some (activity s room client_id)) →
  standing now websocket room client_id start (for_each (check_client send_json_ok now clock room_id) ks s).1
  ∧ unaddressed websocket (for_each (check_client send_json_ok now clock room_id) ks s).2.
Proof.
  induction ks as [|k ks IH]; intros s Hkept Hentry; [split; [done|apply unaddressed_nil]|].
  cbn. destruct (check_client_spares room_id k s Hkept) as (H1 & H1' & Hsame).
  { intros Hr Hk. apply Hentry; [done|]. subst k. apply list_elem_of_here. }
  destruct (check_client send_json_ok now clock room_id k s) as [s1 evs]. cbn in *.
  destruct (IH s1 H1) as [H2 H2'].
  { intros Hr Hk. rewrite Hsame. apply Hentry; [done|by apply list_elem_of_further]. }
  destruct (for_each _ ks s1) as [s2 evs']. cbn in *.
  split; [done|by apply unaddressed_app].
Qed.

Lemma check_room_spares room_id s :
  standing now websocket room client_id start s →
  standing now websocket room client_id start (check_room send_json_ok now clock room_id s).1
  ∧ unaddressed websocket (check_room send_json_ok now clock room_id s).2.
Proof.
  intros Hkept. unfold check_room.
  destruct (oget room_id (last_activity_times s)) as [clients|] eqn:Hroom;
    [|split; [done|apply unaddressed_nil]].
  apply check_clients_spares; [done|]. intros -> Hkey.
  unfold activity. rewrite Hroom. cbn.
  destruct (oget client_id clients) eqn:Hget; [eauto|].
  by apply oget_None_keys in Hget.
Qed.

Lemma cleanup_room_spares room_id s :
  standing now websocket room client_id start s →
  standing now websocket room client_id start (cleanup_room room_id s).1
  ∧ unaddressed websocket (cleanup_room room_id s).2.
Proof.
  intros Hkept. split; [|unfold cleanup_room; repeat case_match; apply unaddressed_nil].
  pose proof (cleanup_room_activity room_id s room client_id) as Hact.
  assert ((cleanup_room room_id s).1 = s
          ∨ ∃ f, (cleanup_room room_id s).1 = with_last_activity_times f s) as [Heq|[f Heq]]
    by (unfold cleanup_room; repeat case_match;
        first [by left | right; eexists; reflexivity]).
  - by rewrite Heq.
  - rewrite Heq in *. apply standing_activity; [done|]. intros t. rewrite Hact.
    destruct Hkept as (_ & _ & (_ & _ & Hfresh) & _). apply Hfresh.
Qed.

Lemma check_timeout_pass_spares s :
  standing now websocket room client_id start s →
  standing now websocket room client_id start
    (check_timeout_pass send_json_ok now clock s).1
  ∧ unaddressed websocket (check_timeout_pass send_json_ok now clock s).2.
Proof.
  intros Hkept. unfold check_timeout_pass.
  destruct (for_each_invariant (standing now websocket room client_id start)
              (unaddressed websocket) (check_room send_json_ok now clock)
              unaddressed_nil unaddressed_app (okeys (last_activity_times s)) s) as [H1 H1'];
    [intros; by apply check_room_spares|done|].
  destruct (for_each (check_room send_json_ok now clock) _ s) as [s1 evs].
  cbn [fst snd] in *.
  destruct (for_each_invariant (standing now websocket room client_id start)
              (unaddressed websocket) cleanup_room
              unaddressed_nil unaddressed_app (okeys (last_activity_times s1)) s1) as [H2 H2'];
    [intros; by apply cleanup_room_spares|done|].
  destruct (for_each cleanup_room _ s1) as [s2 evs']. cbn [fst snd] in *.
  split; [done|by apply unaddressed_app].
Qed.

End sweep_spares.

(** X6. A sweep spares every connection that is not idle.  In a registry the
    endpoint reaches, a socket that sits in a room under a label whose
    activity entry is absent or at most 3600 s old is left alone by a whole
    pass of the sweeper, whatever else the pass evicts and whichever sends
    fail: it is still in the room, bound to the same label, with its connect
    time and activity entry as they were, and nothing (no timeout signal in
    particular) was sent to it. *)
Theorem sweep_spares_active_connection send_json_ok now clock s
    websocket room client_id :
  reachable s →
  in_good_standing now websocket room client_id s →
  let r := check_timeout_pass send_json_ok now clock s in
  in_good_standing now websocket room client_id r.1
  ∧ connection_times r.1 !! websocket = connection_times s !! websocket
  ∧ activity r.1 room client_id = activity s room client_id
  ∧ websocket ∉ recipients r.2.
Proof.
  intros Hreach Hgood r.
  destruct (check_timeout_pass_spares send_json_ok now clock websocket room client_id
              (connection_times s !! websocket) s) as [(_ & _ & Hg & Hct) Hquiet].
  { destruct (reachable_invariants s Hreach) as (Hu & _ & _).
    split; [done|]. split; [by apply reachable_labels_distinct|done]. }
  split; [done|]. split; [done|]. split; [|done].
  unfold r. rewrite check_timeout_pass_activity.
  destruct Hgood as (_ & _ & Hfresh).
  destruct (activity s room client_id) as [t|]; [|done]. cbn.
  unfold surviving. rewrite decide_False; [done|]. specialize (Hfresh t eq_refl). lia.
Qed.

Lemma reachable_run ops : ∀ s, reachable s → admissible_run ops s → reachable (run ops s).
Proof.
  induction ops as [|o ops IH]; intros s Hs Hadm; [done|].
  destruct Hadm as [Ho Hrest]. cbn. apply IH; [|done]. by apply reachable_step.
Qed.

Lemma in_no_room websocket s :
  map_Forall (λ _ conns, websocket ∉ conns) (active_connections s) →
  ∀ room, websocket ∉ members s room.
Proof.
  intros Hall room. unfold members.
  destruct (active_connections s !! room) as [conns|] eqn:Hroom.
  - apply (Hall room conns Hroom).
  - apply not_elem_of_nil.
Qed.

Lemma reachable_duo : reachable duo.
Proof.
  apply reachable_run; [apply reachable_init|].
  split; [cbn [admissible]; apply in_no_room, (bool_decide_unpack _); by vm_compute|].
  split; [exact I|].
  split; [cbn [admissible]; apply in_no_room, (bool_decide_unpack _); by vm_compute|].
  split; [exact I|exact I].
Qed.

Lemma sweep_spares_active_connection_witness :
  2%nat ∈ members (check_timeout_pass first_dead (4602 * sec) at_4602 duo).1 "000123"
  ∧ 2%nat ∉ recipients (check_timeout_pass first_dead (4602 * sec) at_4602 duo).2.
Proof.
  destruct (sweep_spares_active_connection first_dead (4602 * sec) at_4602 duo
              2 "000123" "bob" reachable_duo) as ((Hin & _) & _ & _ & Hquiet).
  - split; [|split].
    + apply (bool_decide_unpack _). by vm_compute.
    + by vm_compute.
    + intros t Ht. vm_compute in Ht. injection Ht as <-. by vm_compute.
  - by split.
Defined.

(** ** Canonical room keys *)

Lemma disconnect_rooms_subset websocket room_id now s room :
  is_Some (active_connections (disconnect websocket room_id now s).1 !! room) →
  is_Some (active_connections s !! room).
Proof.
  rewrite disconnect_active_connections. cbv zeta.
  destruct (active_connections s !! normalize_room_id room_id) as [conns|] eqn:HR;
    [|done].
  destruct (decide (websocket ∈ conns)); [|done].
  destruct (remove_first websocket conns).
  - rewrite lookup_delete_is_Some. tauto.
  - rewrite lookup_insert_is_Some. intros [<-|[_ Hroom]]; [by rewrite HR|done].
Qed.

Lemma disconnect_rooms_canonical websocket room_id now s :
  rooms_canonical s → rooms_canonical (disconnect websocket room_id now s).1.
Proof. intros Hs room Hroom%disconnect_rooms_subset. by apply Hs. Qed.

Lemma touch_activity_keys room client_id now acts room' :
  room' ∈ okeys (touch_activity room client_id now acts) →
  room' = room ∨ room' ∈ okeys acts.
Proof.
  unfold touch_activity. rewrite okeys_oset. case_decide; [tauto|].
  rewrite elem_of_app, list_elem_of_singleton. tauto.
Qed.

Lemma drop_activity_keys room client_id acts room' :
  room' ∈ okeys (drop_activity room client_id acts) → room' ∈ okeys acts.
Proof.
  unfold drop_activity. destruct (oget room acts) as [clients|] eqn:Hroom; [|done].
  destruct (omem client_id clients); [|done].
  rewrite okeys_oset. rewrite decide_True; [done|]. by eapply oget_Some_keys.
Qed.

Lemma update_client_id_last_activity_times websocket client_id room_id now s room :
  room ∈ okeys (last_activity_times (update_client_id websocket client_id room_id now s).1.1) →
  room = normalize_room_id room_id ∨ room ∈ okeys (last_activity_times s).
Proof.
  unfold update_client_id.
  repeat (case_match; simpl in *; simplify_eq); try tauto;
    intros Hin%touch_activity_keys; tauto.
Qed.

Section sweep_keys.
Variable send_json_ok : nat → list (string * json) → bool.
Variables (now : Z) (clock : nat → Z).

Lemma check_client_keys (keys : list string) room_id client_id s :
  okeys (last_activity_times s) ⊆ keys →
  okeys (last_activity_times (check_client send_json_ok now clock room_id client_id s).1)
  ⊆ keys.
Proof.
  intros Hs. unfold check_client.
  destruct (oget room_id (last_activity_times s)) as [clients|]; [|done].
  case_bool_decide; [|done].
  assert (okeys (last_activity_times
                   (with_last_activity_times (drop_activity room_id client_id) s))
          ⊆ keys) as Hdrop.
  { intros room Hroom%drop_activity_keys. by apply Hs. }
  destruct (bound_websocket s room_id client_id (client_ids s)) as [w|]; [|done].
  pose proof (disconnect_last_activity_times w room_id (clock w)
                (with_last_activity_times (drop_activity room_id client_id) s)) as Hd.
  destruct (disconnect w room_id (clock w) _) as [s2 report]. cbn [fst snd] in *.
  by rewrite Hd.
Qed.

Lemma check_timeout_pass_keys s room :
  room ∈ okeys (last_activity_times (check_timeout_pass send_json_ok now clock s).1) →
  room ∈ okeys (last_activity_times s).
Proof.
  set (P := λ s' : ConnectionManager,
              okeys (last_activity_times s') ⊆ okeys (last_activity_times s)).
  assert (P s) as Hs by (by intros r Hr).
  assert (∀ room_id s0, P s0 → P (check_room send_json_ok now clock room_id s0).1)
    as Hroom.
  { intros room_id s0 Hs0. unfold check_room.
    destruct (oget room_id (last_activity_times s0)); [|done].
    apply for_each_preserves; [|done].
    intros client_id s' Hs'. by apply check_client_keys. }
  assert (∀ room_id s0, P s0 → P (cleanup_room room_id s0).1) as Hclean.
  { intros room_id s0 Hs0. unfold cleanup_room.
    destruct (oget room_id (last_activity_times s0)) as [[|e clients]|]; [|done..].
    intros r Hr%okeys_odel_subset. by apply Hs0. }
  unfold check_timeout_pass.
  pose proof (for_each_preserves P (check_room send_json_ok now clock)
                (okeys (last_activity_times s)) Hroom s Hs) as H1.
  destruct (for_each (check_room send_json_ok now clock) _ s) as [s1 evs].
  pose proof (for_each_preserves P cleanup_room (okeys (last_activity_times s1))
                Hclean s1 H1) as H2.
  destruct (for_each cleanup_room _ s1) as [s2 evs']. cbn [fst snd] in *.
  apply H2.
Qed.

End sweep_keys.

Lemma step_rooms_canonical o s : rooms_canonical s → rooms_canonical (step o s).1.
Proof.
  intros Hs. destruct o as [ws r t|ws r t|ws c r t|r c t|ok t clock]; cbn.
  - intros room. rewrite connect_active_connections, lookup_insert_is_Some.
    intros [<-|[_ Hroom]]; [apply normalize_room_id_idemp|by apply Hs].
  - by apply disconnect_rooms_canonical.
  - unfold rooms_canonical. by rewrite update_client_id_active_connections.
  - done.
  - apply (check_timeout_pass_preserves rooms_canonical);
      [done|intros; by apply disconnect_rooms_canonical|done].
Qed.

Lemma step_activity_canonical o s : activity_canonical s → activity_canonical (step o s).1.
Proof.
  intros Hs. destruct o as [ws r t|ws r t|ws c r t|r c t|ok t clock]; cbn.
  - unfold activity_canonical. by rewrite connect_last_activity_times.
  - unfold activity_canonical. by rewrite disconnect_last_activity_times.
  - intros room [->|Hroom]%update_client_id_last_activity_times;
      [apply normalize_room_id_idemp|by apply Hs].
  - intros room [->|Hroom]%touch_activity_keys;
      [apply normalize_room_id_idemp|by apply Hs].
  - intros room Hroom%check_timeout_pass_keys. by apply Hs.
Qed.

(** X7. Rooms are never split by padding.  Every room a reachable registry
    holds connections for, and every room of its activity map, is keyed by a
    canonical identifier (one [normalize_room_id] leaves unchanged), so a
    digit string and its zero-padded form always name the same room. *)
Theorem room_keys_canonical s :
  reachable s →
  (∀ room, is_Some (active_connections s !! room) → normalize_room_id room = room)
  ∧ (∀ room, room ∈ okeys (last_activity_times s) → normalize_room_id room = room)
  ∧ (∀ room websocket, websocket ∈ members s room → normalize_room_id room = room).
Proof.
  intros Hreach.
  assert (rooms_canonical s ∧ activity_canonical s) as [Hrooms Hact].
  { induction Hreach as [safe|o s Hreach [IH1 IH2] Hadm].
    - split.
      + intros room. unfold init. cbn. rewrite lookup_empty. by intros [].
      + intros room Hin. by apply elem_of_nil in Hin.
    - split; [by apply step_rooms_canonical|by apply step_activity_canonical]. }
  split; [done|]. split; [done|].
  intros room websocket Hin. apply Hrooms. unfold members in Hin.
  destruct (active_connections s !! room); [done|]. by apply elem_of_nil in Hin.
Qed.

Lemma room_keys_canonical_witness :
  is_Some (active_connections duo !! "000123")
  ∧ normalize_room_id "000123" = "000123".
Proof.
  assert (is_Some (active_connections duo !! "000123")) as Hroom
    by (eexists; by vm_compute).
  split; [done|].
  exact (proj1 (room_keys_canonical duo reachable_duo) "000123" Hroom).
Defined.

(** ** A sweep and the connection that is idle *)

Lemma for_each_phase {A} (B C : ConnectionManager → Prop) (N : list event → Prop)
    (hit : A → Prop) `{∀ x, Decision (hit x)}
    (body : A → ConnectionManager → ConnectionManager * list event) :
  (∀ evs evs', N evs ∨ N evs' → N (evs ++ evs')) →
  (∀ x s, C s → C (body x s).1) →
  (∀ x s, B s → ¬ hit x → B (body x s).1) →
  (∀ x s, B s → hit x → C (body x s).1 ∧ N (body x s).2) →
  ∀ xs s,
    (C s → C (for_each body xs s).1)
    ∧ (B s → if decide (Exists hit xs)
             then C (for_each body xs s).1 ∧ N (for_each body xs s).2
             else B (for_each body xs s).1).
Proof.
  intros Happ Hafter Hmiss Hhit. induction xs as [|x xs IH]; intros s.
  - split; [done|]. intros Hs. rewrite decide_False; [done|]. by intros ?%Exists_nil.
  - cbn. pose proof (Hafter x s) as Ha. pose proof (Hmiss x s) as Hm.
    pose proof (Hhit x s) as Hh.
    destruct (body x s) as [s1 evs]. destruct (IH s1) as [IHa IHb].
    destruct (for_each body xs s1) as [s2 evs']. cbn [fst snd] in *.
    split; [auto|]. intros Hs. destruct (decide (hit x)) as [Hx|Hx].
    + rewrite decide_True by (by apply Exists_cons_hd).
      destruct (Hh Hs Hx). split; [auto|]. apply Happ. by left.
    + specialize (IHb (Hm Hs Hx)). destruct (decide (Exists hit xs)) as [Hex|Hex].
      * rewrite decide_True by (by apply Exists_cons_tl).
        destruct IHb. split; [done|]. apply Happ. by right.
      * rewrite decide_False; [done|]. intros [?|?]%Exists_cons; done.
Qed.

Lemma check_client_preserves (P : ConnectionManager → Prop) :
  (∀ f s, P s → P (with_last_activity_times f s)) →
  (∀ websocket room_id now s, P s → P (disconnect websocket room_id now s).1) →
  ∀ send_json_ok now clock room_id client_id s,
    P s → P (check_client send_json_ok now clock room_id client_id s).1.
Proof.
  intros Hact Hdisc send_json_ok now clock room_id client_id s Hs.
  unfold check_client.
  destruct (oget room_id (last_activity_times s)); [|done].
  case_bool_decide; [|done].
  destruct (bound_websocket s room_id client_id (client_ids s)) as [w|];
    [|by apply Hact].
  pose proof (Hdisc w room_id (clock w) _ (Hact (drop_activity room_id client_id) s Hs))
    as Hd.
  by destruct (disconnect w room_id (clock w) _).
Qed.

Lemma disconnect_keeps_removed websocket w room_id now s :
  removed websocket s → removed websocket (disconnect w room_id now s).1.
Proof.
  intros (Htime & Hid & Hout). split; [|split].
  - rewrite disconnect_connection_times.
    destruct (decide (w = websocket)) as [->|Hne].
    + apply lookup_delete_eq.
    + by rewrite lookup_delete_ne.
  - rewrite disconnect_client_ids. by apply oget_odel_None.
  - intros room. rewrite disconnect_members.
    destruct (decide (room = normalize_room_id room_id)); [|apply Hout].
    intros Hin%remove_first_subset. by apply (Hout room).
Qed.

Lemma oget_Some_item {K V} `{EqDecision K} (k : K) (v : V) (d : list (K * V)) :
  oget k d = Some v → (k, v) ∈ d.
Proof.
  induction d as [|[k0 v0] d IH]; [done|]. cbn. case_decide.
  - intros [= ->]. subst. apply list_elem_of_here.
  - intros Hd. by apply list_elem_of_further, IH.
Qed.

Lemma signalled_app websocket evs evs' :
  signalled websocket evs ∨ signalled websocket evs' → signalled websocket (evs ++ evs').
Proof.
  intros [[ok Hin]|[ok Hin]]; exists ok; apply elem_of_app; [by left|by right].
Qed.

Section sweep_evicts.
Variable send_json_ok : nat → list (string * json) → bool.
Variables (now : Z) (clock : nat → Z).
Variables (websocket : nat) (room client_id : string).

Lemma check_client_keeps_removed room_id k s :
  removed websocket s →
  removed websocket (check_client send_json_ok now clock room_id k s).1.
Proof.
  apply (check_client_preserves (removed websocket)); [done|].
  intros; by apply disconnect_keeps_removed.
Qed.

(** The turn of the stale entry: the socket is signalled and torn down. *)
Lemma check_client_evicts s :
  awaiting now websocket room client_id s →
  removed websocket (check_client send_json_ok now clock room client_id s).1
  ∧ signalled websocket (check_client send_json_ok now clock room client_id s).2.
Proof.
  intros ([Hnodup Hone] & Hl & Hcanon & Hin & Hid & Hsole & t & Ht & Hstale).
  unfold check_client. unfold activity in Ht.
  destruct (oget room (last_activity_times s)) as [clients|]; [|done].
  cbn in Ht. rewrite Ht. cbn [default].
  rewrite bool_decide_eq_true_2 by done.
  destruct (bound_websocket s room client_id (client_ids s)) as [w|] eqn:Hbound.
  - apply bound_websocket_Some in Hbound as [Hitem Hw].
    apply (oget_item _ _ _ Hl) in Hitem. apply Hsole in Hitem; [|done]. subst w.
    pose proof (disconnect_removes websocket room (clock websocket)
                  (with_last_activity_times (drop_activity room client_id) s)) as Hd.
    rewrite Hcanon in Hd.
    destruct (disconnect websocket room (clock websocket) _) as [s2 report].
    cbn [fst snd] in *. split.
    + apply Hd; [apply Hnodup|]. intros r Hr. by apply (Hone _ _ websocket).
    + exists (send_json_ok websocket session_timeout_message).
      destruct (send_json_ok websocket session_timeout_message);
        apply elem_of_app; left; apply list_elem_of_here.
  - exfalso. apply (bound_websocket_None _ _ _ _ Hbound websocket); [|done].
    by apply oget_Some_item.
Qed.

(** The turn of any other entry leaves the socket waiting. *)
Lemma check_client_keeps_awaiting room_id k s :
  awaiting now websocket room client_id s →
  ¬ (room_id = room ∧ k = client_id) →
  awaiting now websocket room client_id
    (check_client send_json_ok now clock room_id k s).1.
Proof.
  intros Hs Hother.
  pose proof Hs as (Hu & Hl & Hcanon & Hin & Hid & Hsole & t & Ht & Hstale).
  assert (activity (check_client send_json_ok now clock room_id k s).1 room client_id
          = Some t) as Hact.
  { rewrite check_client_activity. rewrite decide_False; [done|].
    intros [-> ->]. by apply Hother. }
  revert Hact. unfold check_client.
  destruct (oget room_id (last_activity_times s)) as [clients|]; [|done].
  case_bool_decide; [|done].
  destruct (bound_websocket s room_id k (client_ids s)) as [w|] eqn:Hbound.
  - apply bound_websocket_Some in Hbound as [Hitem Hw].
    apply (oget_item _ _ _ Hl) in Hitem.
    assert (w ≠ websocket) as Hne.
    { intros ->. apply Hother. split; [|congruence].
      destruct Hu as [_ Hone]. by apply (Hone _ _ websocket). }
    pose proof (disconnect_sockets_unique w room_id (clock w)
                  (with_last_activity_times (drop_activity room_id k) s) Hu) as Hu'.
    pose proof (disconnect_labels_distinct w room_id (clock w)
                  (with_last_activity_times (drop_activity room_id k) s) Hl) as Hl'.
    pose proof (disconnect_members w room_id (clock w)
                  (with_last_activity_times (drop_activity room_id k) s) room) as Hm.
    pose proof (disconnect_client_ids w room_id (clock w)
                  (with_last_activity_times (drop_activity room_id k) s)) as Hc.
    destruct (disconnect w room_id (clock w) _) as [s2 report].
    cbn [fst snd] in *. intros Hact.
    split; [done|]. split; [done|]. split; [done|].
    split; [|split; [|split]].
    + rewrite Hm. case_decide; [by apply remove_first_other|done].
    + rewrite Hc. by rewrite oget_odel_ne.
    + intros w'. rewrite Hm, Hc. intros Hw' Hlabel. apply Hsole.
      * case_decide; [by apply remove_first_subset in Hw'|done].
      * destruct (decide (w = w')) as [->|Hww]; [by rewrite oget_odel_eq in Hlabel|].
        by rewrite oget_odel_ne in Hlabel.
    + eauto.
  - cbn [fst]. intros Hact. split; [done|]. split; [done|]. split; [done|].
    split; [done|]. split; [done|]. split; [done|]. eauto.
Qed.

Lemma check_room_keeps_removed room_id s :
  removed websocket s →
  removed websocket (check_room send_json_ok now clock room_id s).1.
Proof.
  intros Hs. unfold check_room.
  destruct (oget room_id (last_activity_times s)); [|done].
  apply for_each_preserves; [|done]. intros k s'. apply check_client_keeps_removed.
Qed.

Lemma check_room_evicts room_id s :
  awaiting now websocket room client_id s →
  if decide (room_id = room)
  then removed websocket (check_room send_json_ok now clock room_id s).1
       ∧ signalled websocket (check_room send_json_ok now clock room_id s).2
  else awaiting now websocket room client_id
         (check_room send_json_ok now clock room_id s).1.
Proof.
  intros Hs. unfold check_room.
  destruct (oget room_id (last_activity_times s)) as [clients|] eqn:Hroom.
  - destruct (for_each_phase (awaiting now websocket room client_id)
                (removed websocket) (signalled websocket)
                (λ k, room_id = room ∧ k = client_id)
                (check_client send_json_ok now clock room_id)
                (signalled_app websocket)) with (xs := okeys clients) (s := s)
      as [_ Hrun].
    + intros k s'. apply check_client_keeps_removed.
    + intros k s'. apply check_client_keeps_awaiting.
    + intros k s' Hs' [-> ->]. by apply check_client_evicts.
    + specialize (Hrun Hs). destruct (decide (room_id = room)) as [->|Hne].
      * rewrite decide_True in Hrun; [done|].
        apply Exists_exists. exists client_id. split; [|done].
        destruct Hs as (_ & _ & _ & _ & _ & _ & t & Ht & _).
        unfold activity in Ht. rewrite Hroom in Ht. by eapply oget_Some_keys.
      * rewrite decide_False in Hrun; [done|].
        intros (k & _ & [? _])%Exists_exists. done.
  - destruct (decide (room_id = room)) as [->|Hne]; [|done]. exfalso.
    destruct Hs as (_ & _ & _ & _ & _ & _ & t & Ht & _).
    unfold activity in Ht. by rewrite Hroom in Ht.
Qed.

Lemma check_timeout_pass_evicts s :
  awaiting now websocket room client_id s →
  removed websocket (check_timeout_pass send_json_ok now clock s).1
  ∧ signalled websocket (check_timeout_pass send_json_ok now clock s).2.
Proof.
  intros Hs. unfold check_timeout_pass.
  destruct (for_each_phase (awaiting now websocket room client_id)
              (removed websocket) (signalled websocket) (λ r, r = room)
              (check_room send_json_ok now clock)
              (signalled_app websocket))
    with (xs := okeys (last_activity_times s)) (s := s) as [_ Hrun].
  - intros r s'. apply check_room_keeps_removed.
  - intros r s' Hs' Hr. pose proof (check_room_evicts r s' Hs') as He.
    by rewrite decide_False in He.
  - intros r s' Hs' ->. pose proof (check_room_evicts room s' Hs') as He.
    by rewrite decide_True in He.
  - specialize (Hrun Hs). rewrite decide_True in Hrun.
    + destruct (for_each (check_room send_json_ok now clock) _ s) as [s1 evs].
      cbn [fst snd] in *. destruct Hrun as [Hgone Hsig].
      assert (∀ r s', removed websocket s' → removed websocket (cleanup_room r s').1)
        as Hbody by (intros r s' Hs'; unfold cleanup_room; by repeat case_match).
      pose proof (for_each_preserves (removed websocket) cleanup_room
                    (okeys (last_activity_times s1)) Hbody s1 Hgone) as Hclean.
      destruct (for_each cleanup_room _ s1) as [s2 evs']. cbn [fst snd] in *.
      split; [done|apply signalled_app; by left].
    + apply Exists_exists. exists room. split; [|done].
      destruct Hs as (_ & _ & _ & _ & _ & _ & t & Ht & _).
      unfold activity in Ht.
      destruct (oget room (last_activity_times s)) eqn:Hroom; [|done].
      by eapply oget_Some_keys.
Qed.

End sweep_evicts.

(** X8. A sweep evicts the connection that is idle.  In a registry the
    endpoint reaches, take a socket that sits in a room as the room's one
    connection under its label, the label's activity entry being more than
    3600 s old.  One pass of the sweeper, whatever else it evicts and whether
    or not the send goes through, tries the timeout signal on that socket and
    leaves nothing of it: no connect time, no label, no membership in any
    room, and no activity entry for the label. *)
Theorem sweep_evicts_idle_connection send_json_ok now clock s
    websocket room client_id :
  reachable s →
  idle now websocket room client_id s →
  let r := check_timeout_pass send_json_ok now clock s in
  removed websocket r.1
  ∧ activity r.1 room client_id = None
  ∧ ∃ ok, Send websocket session_timeout_message ok ∈ r.2.
Proof.
  intros Hreach Hidle r.
  destruct (check_timeout_pass_evicts send_json_ok now clock websocket room client_id s)
    as [Hgone Hsig].
  { destruct (reachable_invariants s Hreach) as (Hu & _ & _).
    split; [done|]. split; [by apply reachable_labels_distinct|]. split; [|done].
    destruct Hidle as (Hin & _). unfold members in Hin.
    assert (rooms_canonical s) as Hcanon.
    { clear -Hreach. induction Hreach as [safe|o s Hreach IH Hadm].
      - intros room. unfold init. cbn. rewrite lookup_empty. by intros [].
      - by apply step_rooms_canonical. }
    apply Hcanon. destruct (active_connections s !! room); [done|].
    by apply elem_of_nil in Hin. }
  split; [done|]. split; [|done].
  unfold r. rewrite check_timeout_pass_activity.
  destruct Hidle as (_ & _ & _ & t & -> & Hstale). cbn.
  unfold surviving. by rewrite decide_True.
Qed.

Lemma sweep_evicts_idle_connection_witness :
  removed 1 (check_timeout_pass first_dead (4602 * sec) at_4602 duo).1
  ∧ ∃ ok, Send 1%nat session_timeout_message ok
          ∈ (check_timeout_pass first_dead (4602 * sec) at_4602 duo).2.
Proof.
  destruct (sweep_evicts_idle_connection first_dead (4602 * sec) at_4602 duo
              1 "000123" "alice" reachable_duo) as (Hgone & _ & Hsig).
  - split; [|split; [|split]].
    + apply (bool_decide_unpack _). by vm_compute.
    + by vm_compute.
    + intros w Hw Hlabel.
      assert (members duo "000123" = [1; 2]%nat) as Hm by (by vm_compute).
      rewrite Hm in Hw.
      apply elem_of_cons in Hw as [->|Hw]; [done|].
      apply list_elem_of_singleton in Hw as ->.
      vm_compute in Hlabel. discriminate Hlabel.
    + exists (1001 * sec). split; by vm_compute.
  - by split.
Defined.

(** ** What a frame does to the registry *)

Ltac case_var :=
  match goal with
  | |- context [match ?x with _ => _ end] => is_var x; destruct x
  end.

Lemma handle_frame_eq send_json_ok websocket room_id data now s h :
  handle_frame send_json_ok websocket room_id data now s h
  = let frame := deref h data in
    match content_summary frame, oget "type" frame with
    | None, _ | _, None => Some (close_on_error websocket room_id now s h [])
    | Some _, Some type =>
        match kind_of type with
        | RegisterFrame =>
            match oget "client_id" frame with
            | None => Some (close_on_error websocket room_id now s h [])
            | Some (JStr client_id) =>
                match register_room_id frame room_id with
                | None => None
                | Some register_room =>
                    let log_client_id :=
                      if in_safe_rooms_str s room_id then anonymous else client_id in
                    match update_client_id websocket client_id register_room now s with
                    | (s1, evs, Raised _) =>
                        Some (close_on_error websocket room_id now s1 h evs)
                    | (s1, evs, Returned) =>
                        let s2 := update_activity_time room_id client_id now s1 in
                        Some (broadcast_frame send_json_ok room_id client_id data s2 h
                                (evs ++ [Info "websocket_client_registered"
                                           log_client_id room_id]))
                    end
                end
            | Some _ => None
            end
        | PingFrame =>
            let pong :=
              [("type", JStr "pong");
               ("timestamp", default JNull (oget "timestamp" frame))] in
            if send_json_ok websocket pong then
              let '(client_id, s1) := touch_if_identified websocket room_id now s in
              Some (broadcast_frame send_json_ok room_id client_id data s1 h
                      [Send websocket pong true])
            else
              Some (close_on_error websocket room_id now s h
                      [Send websocket pong false])
        | PayloadFrame =>
            let '(client_id, s1) := touch_if_identified websocket room_id now s in
            Some (broadcast_frame send_json_ok room_id client_id data s1 h [])
        end
    end.
Proof.
  unfold handle_frame, kind_of. cbv zeta.
  destruct (content_summary (deref h data)); [|done].
  destruct (oget "type" (deref h data)) as [type|]; [|done].
  destruct type as [| | |ty| |]; try reflexivity.
  repeat (case_var; try reflexivity).
Qed.

Lemma handle_frame_cases send_json_ok websocket room_id data now s h s' h' evs st :
  handle_frame send_json_ok websocket room_id data now s h = Some (s', h', evs, st) →
  (st = Closed
   ∧ ∃ s1 evs0,
       (s1 = s ∨ ∃ c r, s1 = (update_client_id websocket c r now s).1.1)
       ∧ s' = (disconnect websocket room_id now s1).1
       ∧ evs = evs0 ++ Error "error" :: (disconnect websocket room_id now s1).2)
  ∨ (st = Open ∧ s' = (touch_if_identified websocket room_id now s).2)
  ∨ (st = Open
     ∧ ∃ c r,
         (update_client_id websocket c r now s).2 = Returned
         ∧ s' = update_activity_time room_id c now
                  (update_client_id websocket c r now s).1.1).
Proof.
  assert (∀ s1 evs0,
            (s1 = s ∨ ∃ c r, s1 = (update_client_id websocket c r now s).1.1) →
            Some (close_on_error websocket room_id now s1 h evs0)
            = Some (s', h', evs, st) →
            st = Closed
            ∧ ∃ s1 evs0,
                (s1 = s ∨ ∃ c r, s1 = (update_client_id websocket c r now s).1.1)
                ∧ s' = (disconnect websocket room_id now s1).1
                ∧ evs = evs0 ++ Error "error"
                          :: (disconnect websocket room_id now s1).2) as Hclose.
  { intros s1 evs0 Hs1. unfold close_on_error.
    destruct (disconnect websocket room_id now s1) as [s2 report] eqn:Hd.
    intros [= <- <- <- <-]. split; [done|]. exists s1, evs0. by rewrite Hd. }
  assert (∀ c s1 evs0,
            Some (broadcast_frame send_json_ok room_id c data s1 h evs0)
            = Some (s', h', evs, st) → st = Open ∧ s' = s1) as Hopen.
  { intros c s1 evs0. unfold broadcast_frame.
    destruct (br_outcome _); by intros [= <- <- <- <-]. }
  rewrite handle_frame_eq. cbv zeta.
  destruct (content_summary (deref h data));
    [|intros Hrun; left; apply (Hclose s []); [by left|done]].
  destruct (oget "type" (deref h data)) as [type|];
    [|intros Hrun; left; apply (Hclose s []); [by left|done]].
  destruct (kind_of type).
  - destruct (oget "client_id" (deref h data)) as [[| | |c| |]|]; try done;
      [|intros Hrun; left; apply (Hclose s []); [by left|done]].
    destruct (register_room_id (deref h data) room_id) as [r|]; [|done].
    destruct (update_client_id websocket c r now s) as [[s1 evs0] [|e]] eqn:Hup.
    + intros [-> ->]%Hopen. right. right. split; [done|]. exists c, r.
      by rewrite Hup.
    + intros Hrun. left. apply (Hclose s1 evs0); [|done]. right. exists c, r.
      by rewrite Hup.
  - destruct (send_json_ok websocket _).
    + destruct (touch_if_identified websocket room_id now s) as [c s1].
      intros [-> ->]%Hopen. right. by left.
    + intros Hrun. left. eapply Hclose; [by left|done].
  - destruct (touch_if_identified websocket room_id now s) as [c s1].
    intros [-> ->]%Hopen. right. by left.
Qed.

Lemma touch_if_identified_state websocket room_id now s :
  (touch_if_identified websocket room_id now s).2
  = if bool_decide (label s websocket ≠ unknown_client)
    then update_activity_time room_id (label s websocket) now s
    else s.
Proof. reflexivity. Qed.


Lemma remove_first_iff x y (l : list nat) : x ≠ y → x ∈ remove_first y l ↔ x ∈ l.
Proof.
  intros Hne. split; [apply remove_first_subset|]. intros Hin. by apply remove_first_other.
Qed.

(** What one turn of the loop does to the rooms. *)
Lemma handle_frame_effect send_json_ok websocket room_id data now
    s h s' h' evs st :
  sockets_unique s →
  websocket ∈ members s (normalize_room_id room_id) →
  handle_frame send_json_ok websocket room_id data now s h = Some (s', h', evs, st) →
  match st with
  | Open =>
      active_connections s' = active_connections s
      ∧ connection_times s' = connection_times s
  | Closed =>
      removed websocket s'
      ∧ Error "error" ∈ evs
      ∧ ∀ room w, w ≠ websocket → w ∈ members s' room ↔ w ∈ members s room
  end.
Proof.
  intros Hu Hin
    [(-> & s1 & evs0 & Hs1 & -> & ->)|[[-> ->]|(-> & c & r & _ & ->)]]%handle_frame_cases.
  - assert (active_connections s1 = active_connections s) as Hac.
    { destruct Hs1 as [->|(c & r & ->)]; [done|].
      apply update_client_id_active_connections. }
    assert (∀ room, members s1 room = members s room) as Hm
      by (intros room; unfold members; by rewrite Hac).
    split; [|split].
    + apply disconnect_removes.
      * rewrite Hm. apply Hu.
      * intros room. rewrite Hm. intros Hroom. destruct Hu as [_ Hone].
        by apply (Hone _ _ websocket).
    + apply elem_of_app. right. apply list_elem_of_here.
    + intros room w Hne. rewrite disconnect_members, Hm.
      case_decide; [by apply remove_first_iff|done].
  - rewrite touch_if_identified_state. by case_bool_decide.
  - split.
    + apply update_client_id_active_connections.
    + apply update_client_id_connection_times.
Qed.

Lemma handle_frame_typed send_json_ok websocket room_id data now s h :
  register_typed room_id (deref h data) →
  is_Some (handle_frame send_json_ok websocket room_id data now s h).
Proof.
  intros Htyped. rewrite handle_frame_eq. cbv zeta.
  destruct (content_summary (deref h data)); [|by eexists].
  destruct (oget "type" (deref h data)) as [type|] eqn:Htype; [|by eexists].
  specialize (Htyped type Htype).
  destruct (kind_of type) eqn:Hkind.
  - destruct (Htyped eq_refl) as [->|(c & -> & r & ->)]; [by eexists|].
    destruct (update_client_id websocket c r now s) as [[s1 evs0] [|e]]; by eexists.
  - destruct (send_json_ok websocket _); [|by eexists].
    destruct (touch_if_identified websocket room_id now s). by eexists.
  - destruct (touch_if_identified websocket room_id now s). by eexists.
Qed.









(** * Sessions and the handshake *)

(** ** Strings *)

Lemma isdigit_zfill_iff width s :
  s ≠ EmptyString → Py.isdigit (Py.zfill width s) = Py.isdigit s.
Proof.
  intros Hs. destruct (Py.isdigit s) eqn:Hd; [by apply isdigit_zfill|].
  unfold Py.zfill. destruct (width <=? String.length s)%nat eqn:Hw; [done|].
  destruct s as [|c r]; [done|]. cbn in Hd.
  destruct (Ascii.eqb c "+" || Ascii.eqb c "-")%bool eqn:Hsign.
  - cbn. apply orb_true_iff in Hsign as [->%Ascii.eqb_eq| ->%Ascii.eqb_eq]; done.
  - assert (Py.all_digits (Py.zeros (width - String.length (String c r)) +:+ String c r)
            = false) as Hall.
    { rewrite all_digits_append, all_digits_zeros. done. }
    by destruct (Py.zeros _ +:+ String c r).
Qed.

Lemma verify_room_id_canonical room_id :
  verify_room_id room_id = true → normalize_room_id room_id = room_id.
Proof.
  unfold verify_room_id. intros [Hlen%Nat.eqb_eq Hd]%andb_true_iff.
  unfold normalize_room_id. rewrite Hd. apply zfill_long. lia.
Qed.

Lemma verify_room_id_zfill room_id :
  Py.isdigit room_id = true → (String.length room_id ≤ 6)%nat →
  verify_room_id (Py.zfill 6 room_id) = true.
Proof.
  intros Hd Hlen. unfold verify_room_id.
  rewrite isdigit_zfill, length_zfill by done. rewrite andb_true_r.
  apply Nat.eqb_eq. lia.
Qed.

Lemma contains_append c s1 s2 :
  PyStr.contains c (s1 +:+ s2) = (PyStr.contains c s1 || PyStr.contains c s2)%bool.
Proof.
  induction s1 as [|a s1 IH]; [done|]. rewrite append_cons. cbn.
  by rewrite IH, orb_assoc.
Qed.

Lemma space_is_not c a :
  PyStr.is_space c = false → PyStr.is_space a = true → Ascii.eqb a c = false.
Proof.
  intros Hc Ha. destruct (Ascii.eqb a c) eqn:Heq; [|done].
  apply Ascii.eqb_eq in Heq. congruence.
Qed.

Lemma contains_lstrip c s :
  PyStr.is_space c = false → PyStr.contains c (PyStr.lstrip s) = PyStr.contains c s.
Proof.
  intros Hc. induction s as [|a r IH]; [done|]. cbn.
  destruct (PyStr.is_space a) eqn:Ha; [|done].
  by rewrite IH, (space_is_not c a).
Qed.

Lemma contains_rstrip c s :
  PyStr.is_space c = false → PyStr.contains c (PyStr.rstrip s) = PyStr.contains c s.
Proof.
  intros Hc. induction s as [|a r IH]; [done|]. cbn.
  destruct (PyStr.rstrip r) as [|b kept] eqn:Hr.
  - cbn in IH. rewrite <- IH. destruct (PyStr.is_space a) eqn:Ha; [|done].
    cbn. by rewrite (space_is_not c a).
  - cbn in *. by rewrite IH.
Qed.

Lemma split_once_Some c s :
  PyStr.contains c s = true → is_Some (PyStr.split_once c s).
Proof.
  induction s as [|a r IH]; [done|]. cbn.
  destruct (Ascii.eqb a c); [eauto|]. cbn. intros [[k v] ->]%IH. eauto.
Qed.

Lemma mock_cookies_total pieces : ∀ cookies, is_Some (mock_cookies pieces cookies).
Proof.
  induction pieces as [|cookie rest IH]; intros cookies; [by eexists|]. cbn.
  destruct (PyStr.contains "=" cookie) eqn:Heq; [|apply IH].
  destruct (split_once_Some "=" (PyStr.strip cookie)) as [[key value] ->]; [|apply IH].
  unfold PyStr.strip. by rewrite contains_rstrip, contains_lstrip.
Qed.

(** The constructor of [MockRequest] never raises. *)
Lemma MockRequest_total cookies_str : is_Some (MockRequest cookies_str).
Proof.
  unfold MockRequest. destruct cookies_str; [by eexists|]. apply mock_cookies_total.
Qed.

Lemma split_no_sep sep s : PyStr.contains sep s = false → PyStr.split sep s = [s].
Proof.
  induction s as [|a r IH]; [done|]. cbn.
  intros [Ha Hr]%orb_false_iff. rewrite Ha. by rewrite IH.
Qed.

Lemma rstrip_append s1 s2 :
  PyStr.rstrip s2 ≠ EmptyString → PyStr.rstrip (s1 +:+ s2) = s1 +:+ PyStr.rstrip s2.
Proof.
  intros Hs2. induction s1 as [|a s1 IH]; [done|]. rewrite !append_cons. cbn.
  rewrite IH. destruct (s1 +:+ PyStr.rstrip s2) eqn:Happ; [|done].
  destruct s1; [|done]. by rewrite append_nil_l in Happ.
Qed.

Lemma split_once_append c key value :
  PyStr.contains c key = false →
  PyStr.split_once c (key +:+ String c value) = Some (key, value).
Proof.
  induction key as [|a key IH].
  - intros _. rewrite append_nil_l. cbn. by rewrite Ascii.eqb_refl.
  - cbn. intros [Ha Hkey]%orb_false_iff. rewrite append_cons. cbn.
    by rewrite Ha, IH.
Qed.

(** The header that carries one cookie is read as that cookie. *)
Lemma MockRequest_one_cookie key value :
  key ≠ EmptyString →
  PyStr.lstrip key = key →
  PyStr.contains "=" key = false →
  PyStr.contains ";" key = false →
  PyStr.contains ";" value = false →
  value ≠ EmptyString → PyStr.rstrip value = value →
  MockRequest (key +:+ String "=" value) = Some [(key, value)].
Proof.
  intros Hkey Hl Heq Hsemi Hsemi' Hvalue Hr.
  unfold MockRequest.
  destruct (key +:+ String "=" value) eqn:Hheader; [by destruct key|].
  rewrite <- Hheader. rewrite split_no_sep.
  2: { rewrite contains_append. cbn. by rewrite Hsemi, Hsemi'. }
  cbn. rewrite contains_append. cbn. rewrite orb_true_r.
  assert (PyStr.strip (key +:+ String "=" value) = key +:+ String "=" value) as ->.
  { unfold PyStr.strip.
    assert (PyStr.lstrip (key +:+ String "=" value) = key +:+ String "=" value) as ->.
    { clear Hheader. destruct key as [|k0 key]; [done|]. rewrite append_cons. cbn in *.
      destruct (PyStr.is_space k0); [|done].
      exfalso. assert (String.length (PyStr.lstrip key) ≤ String.length key)%nat as Hle.
      { clear. induction key as [|b key IH]; [done|]. cbn.
        destruct (PyStr.is_space b); cbn; lia. }
      rewrite Hl in Hle. cbn in Hle. lia. }
    assert (PyStr.rstrip (String "=" value) = String "=" value) as Hv.
    { cbn. rewrite Hr. by destruct value. }
    rewrite rstrip_append; by rewrite Hv. }
  by rewrite split_once_append.
Qed.

(** ** Login and the session cookie *)

Section session_facts.
Variable dumps : json → string.
Variable loads : string → option json.

Lemma login_Ok login_room_id room_id token :
  login dumps login_room_id = Ok (room_id, token) →
  room_id = Py.zfill 6 login_room_id
  ∧ token = dumps (JStr room_id)
  ∧ verify_room_id room_id = true.
Proof.
  unfold login, verify_room_id.
  destruct (Py.isdigit (Py.zfill 6 login_room_id)) eqn:Hd; [|done]. cbn.
  destruct (String.length (Py.zfill 6 login_room_id) =? 6)%nat eqn:Hlen; [|done].
  cbn. intros [= <- <-]. by rewrite Hd, Hlen.
Qed.

Lemma get_room_id_from_cookie_Ok cookies room_id :
  get_room_id_from_cookie loads cookies = Ok room_id →
  verify_room_id room_id = true
  ∧ ∃ token payload rendered,
      token ≠ EmptyString
      ∧ oget "room_session" cookies = Some token
      ∧ loads token = Some payload
      ∧ str_of_payload payload = Some rendered
      ∧ room_id = Py.zfill 6 rendered.
Proof.
  unfold get_room_id_from_cookie, verify_room_id.
  destruct (oget "room_session" cookies) as [[|a token]|]; [done| |done].
  destruct (loads (String a token)) as [payload|] eqn:Hloads; [|done]. cbn.
  destruct (str_of_payload payload) as [rendered|] eqn:Hstr; [|done].
  destruct (Py.isdigit (Py.zfill 6 rendered)) eqn:Hd; [|done].
  destruct (String.length (Py.zfill 6 rendered) =? 6)%nat eqn:Hlen; [|done].
  cbn. intros [= <-]. rewrite Hd, Hlen. split; [done|].
  by exists (String a token), payload, rendered.
Qed.

Lemma get_room_id_from_cookie_accepts cookies token room_id :
  token ≠ EmptyString →
  oget "room_session" cookies = Some token →
  loads token = Some (JStr room_id) →
  verify_room_id room_id = true →
  get_room_id_from_cookie loads cookies = Ok room_id.
Proof.
  intros Htoken Hcookie Hloads [Hlen%Nat.eqb_eq Hd]%andb_true_iff.
  unfold get_room_id_from_cookie. rewrite Hcookie.
  destruct token as [|a token]; [done|]. rewrite Hloads. cbn.
  rewrite zfill_long by lia. rewrite Hd. by rewrite (proj2 (Nat.eqb_eq _ _) Hlen).
Qed.

(** X11. Login issues sessions for canonical rooms only.  For an ASCII
    request body that satisfies the length bounds of [LoginRequest],
    [login] succeeds exactly when the room id is a string of digits; the room
    of the response and of the signed cookie is then the id padded to six
    digits, a fixed point of [normalize_room_id].  Every other such body gets
    status 400 with the not-a-number message: the six-digit length error
    that follows in the code is never raised. *)
Theorem login_issues_canonical_room login_room_id :
  LoginRequest login_room_id →
  PyStr.isascii login_room_id = true →
  if Py.isdigit login_room_id then
    login dumps login_room_id
    = Ok (Py.zfill 6 login_room_id, dumps (JStr (Py.zfill 6 login_room_id)))
    ∧ verify_room_id (Py.zfill 6 login_room_id) = true
    ∧ normalize_room_id (Py.zfill 6 login_room_id) = Py.zfill 6 login_room_id
  else
    login dumps login_room_id = HTTPException 400 "房间号必须为数字格式".
Proof.
  intros [Hmin Hmax] _.
  assert (login_room_id ≠ EmptyString) as Hne by (intros ->; cbn in Hmin; lia).
  unfold login. rewrite isdigit_zfill_iff by done.
  destruct (Py.isdigit login_room_id) eqn:Hd; [|done]. cbn.
  pose proof (verify_room_id_zfill login_room_id Hd Hmax) as Hv.
  split; [|split; [done|by apply verify_room_id_canonical]].
  apply andb_true_iff in Hv as [-> _]. done.
Qed.

(** X12. A session read back from its cookie is the room that logged in.
    When [login] succeeds for an ASCII body with a room and a token, and the
    signer gives the token's payload back, [get_room_id_from_cookie] on a
    request that carries the token as [room_session] returns that room.  And
    for any request whose [room_session] token the signer accepts with a
    payload that renders as an ASCII string, the room
    [get_room_id_from_cookie] returns, if it returns one, has six digits and
    is the padded rendering of the payload. *)
Theorem session_round_trip login_room_id room_id token cookies :
  PyStr.isascii login_room_id = true →
  login dumps login_room_id = Ok (room_id, token) →
  token ≠ EmptyString →
  loads token = Some (JStr room_id) →
  oget "room_session" cookies = Some token →
  get_room_id_from_cookie loads cookies = Ok room_id
  ∧ ∀ cookies' token' payload rendered room,
      oget "room_session" cookies' = Some token' →
      loads token' = Some payload →
      str_of_payload payload = Some rendered →
      PyStr.isascii rendered = true →
      get_room_id_from_cookie loads cookies' = Ok room →
      verify_room_id room = true ∧ room = Py.zfill 6 rendered.
Proof.
  intros _ (_ & _ & Hv)%login_Ok Htoken Hloads Hcookie. split.
  - by apply (get_room_id_from_cookie_accepts cookies token).
  - intros cookies' token' payload rendered room Hcookie' Hloads' Hstr _
      (Hv' & t & p & r & _ & Ht & Hp & Hr & ->)%get_room_id_from_cookie_Ok.
    split; [done|]. congruence.
Qed.

(** What the handshake decides, case by case. *)
Lemma websocket_handshake_cases room_id cookies :
  (verify_room_id room_id = false
   ∧ websocket_handshake loads room_id cookies = Close 4001 "Invalid room ID format")
  ∨ (verify_room_id room_id = true
     ∧ ∃ request_cookies,
         MockRequest cookies = Some request_cookies
         ∧ match get_room_id_from_cookie loads request_cookies with
           | Ok auth_room_id =>
               websocket_handshake loads room_id cookies
               = if decide (auth_room_id = room_id) then Proceed room_id
                 else Close 4003 "Room ID mismatch"
           | HTTPException _ _ =>
               websocket_handshake loads room_id cookies
               = Close 4002 "Authentication required"
           end).
Proof.
  unfold websocket_handshake, verify_room_id.
  destruct (Py.isdigit room_id) eqn:Hd;
    [|left; by rewrite andb_false_r].
  destruct (String.length room_id =? 6)%nat eqn:Hlen; [|by left].
  right. split; [done|]. cbn.
  destruct (MockRequest_total cookies) as [request_cookies Hreq].
  exists request_cookies. split; [done|]. rewrite Hreq.
  apply Nat.eqb_eq in Hlen. rewrite zfill_long by lia.
  destruct (get_room_id_from_cookie loads request_cookies) as [auth|]; [|done].
  destruct (decide (auth = room_id)) as [->|Hne].
  - by rewrite bool_decide_eq_false_2 by (intros Hx; by apply Hx).
  - by rewrite bool_decide_eq_true_2.
Qed.

(** X13. A socket is let into a room only with a session for that room.
    For an ASCII room in the path, and a cookie header whose [room_session]
    token, if the signer accepts it, has a payload that renders as an ASCII
    string: when the handshake is refused the registry is as it was and
    nothing was sent, the close code is 4001 exactly when the requested room
    is not six digits, and otherwise 4002 or 4003, never the 4000 of the
    catch-all handler; in every other case the requested room has six
    digits, the header carries a [room_session] that
    [get_room_id_from_cookie] resolves to that very room, and the socket has
    been connected to it, also when the confirmation could not be sent. *)
Theorem websocket_open_sound send_json_ok websocket room_id cookies now s :
  PyStr.isascii room_id = true →
  (∀ request_cookies token payload rendered,
     MockRequest cookies = Some request_cookies →
     oget "room_session" request_cookies = Some token →
     loads token = Some payload →
     str_of_payload payload = Some rendered →
     PyStr.isascii rendered = true) →
  let r := websocket_open loads send_json_ok websocket room_id cookies now s in
  match r.2 with
  | Refused code =>
      r.1.1 = s ∧ r.1.2 = []
      ∧ (code = 4001 ∨ code = 4002 ∨ code = 4003)
      ∧ (code = 4001 ↔ verify_room_id room_id = false)
  | _ =>
      verify_room_id room_id = true
      ∧ (∃ request_cookies,
           MockRequest cookies = Some request_cookies
           ∧ get_room_id_from_cookie loads request_cookies = Ok room_id)
      ∧ r.1.1 = connect websocket room_id now s
      ∧ websocket ∈ members r.1.1 room_id
      ∧ recipients r.1.2 = [websocket]
  end.
Proof.
  intros _ _ r. subst r. unfold websocket_open.
  destruct (websocket_handshake_cases room_id cookies)
    as [[Hv ->]|(Hv & request_cookies & Hreq & Hauth)].
  { cbn. split; [done|]. split; [done|]. split; [by left|done]. }
  assert (websocket ∈ members (connect websocket room_id now s) room_id) as Hin.
  { rewrite connect_members, (verify_room_id_canonical room_id Hv).
    rewrite decide_True by done. apply elem_of_app. right. apply list_elem_of_here. }
  destruct (get_room_id_from_cookie loads request_cookies) as [auth|status detail]
    eqn:Hget.
  - rewrite Hauth. destruct (decide (auth = room_id)) as [->|Hne].
    + destruct (send_json_ok websocket _); cbn;
        (split; [done|]); (split; [by exists request_cookies|]); by repeat split.
    + cbn. split; [done|]. split; [done|]. split; [by right; right|].
      split; [done|]. by rewrite Hv.
  - rewrite Hauth. cbn. split; [done|]. split; [done|]. split; [by right; left|].
    split; [done|]. by rewrite Hv.
Qed.

(** X14. The room that logged in is the one room its cookie opens.  When
    [login] succeeds with a room and a token whose payload the signer gives
    back, a handshake that presents the token as its only cookie goes through
    for that room and is closed with 4003 for every other six-digit room.
    (The token has no semicolon and no trailing white space, as the tokens of
    the signer have none.) *)
Theorem login_opens_own_room_only login_room_id room_id token requested :
  login dumps login_room_id = Ok (room_id, token) →
  loads token = Some (JStr room_id) →
  token ≠ EmptyString →
  PyStr.contains ";" token = false →
  PyStr.rstrip token = token →
  verify_room_id requested = true →
  websocket_handshake loads requested ("room_session=" +:+ token)
  = if decide (requested = room_id) then Proceed room_id
    else Close 4003 "Room ID mismatch".
Proof.
  intros (_ & _ & Hv)%login_Ok Hloads Htoken Hsemi Hstrip Hreq.
  destruct (websocket_handshake_cases requested ("room_session=" +:+ token))
    as [[Hbad _]|(_ & request_cookies & Hmock & Hauth)]; [congruence|].
  change ("room_session=" +:+ token) with ("room_session" +:+ String "=" token)
    in Hmock.
  rewrite MockRequest_one_cookie in Hmock by done.
  injection Hmock as <-.
  rewrite (get_room_id_from_cookie_accepts _ token room_id) in Hauth by done.
  rewrite Hauth. destruct (decide (room_id = requested)) as [->|Hne].
  - by rewrite decide_True.
  - by rewrite decide_False by congruence.
Qed.

End session_facts.

(** ** The login rate limit *)

Lemma serve_cons times path client_ip t rest store :
  serve times ((path, client_ip, t) :: rest) store
  = ((rate_limiter times path client_ip t store).2
       :: (serve times rest (rate_limiter times path client_ip t store).1).1,
     (serve times rest (rate_limiter times path client_ip t store).1).2).
Proof.
  cbn [serve]. destruct (rate_limiter times path client_ip t store) as [store1 verdict].
  cbn [fst snd]. by destruct (serve times rest store1).
Qed.

Lemma rate_limiter_in_window times client_ip t store count t0 :
  store !! client_ip = Some (count, t0) →
  t - t0 < 60 * sec →
  rate_limiter times "/api/login" client_ip t store
  = if decide (count >= times)
    then (store, HTTPException 429 "请求过于频繁，请稍后再试")
    else (<[client_ip := (count + 1, t0)]> store, Ok ()).
Proof.
  intros Hstore Ht. unfold rate_limiter. rewrite bool_decide_eq_true_2 by done.
  rewrite Hstore. cbv zeta. rewrite (bool_decide_eq_true_2 (t - t0 < 60 * sec)) by done.
  destruct (decide (count >= times)).
  - by rewrite (bool_decide_eq_true_2 (count >= times)).
  - by rewrite (bool_decide_eq_false_2 (count >= times)).
Qed.

Lemma rate_limiter_new_window times client_ip t store :
  match store !! client_ip with
  | Some (_, last_time) => ¬ t - last_time < 60 * sec
  | None => True
  end →
  rate_limiter times "/api/login" client_ip t store
  = (<[client_ip := (1, t)]> store, Ok ()).
Proof.
  intros Hfree. unfold rate_limiter. rewrite bool_decide_eq_true_2 by done. cbv zeta.
  destruct (store !! client_ip) as [[count last_time]|]; [|done].
  by rewrite bool_decide_eq_false_2.
Qed.

Lemma serve_window times client_ip t0 ts : ∀ count store,
  store !! client_ip = Some (count, t0) →
  1 ≤ count →
  Forall (λ t, t - t0 < 60 * sec) ts →
  let_through <$> (serve times (attempts client_ip ts) store).1
  = (λ i : nat, bool_decide (count + Z.of_nat i < times)) <$> seq 0 (length ts)
  ∧ (serve times (attempts client_ip ts) store).2 !! client_ip
    = Some (count `max` (times `min` (count + Z.of_nat (length ts))), t0).
Proof.
  induction ts as [|t ts IH]; intros count store Hstore Hcount Hts.
  - cbn. split; [done|]. rewrite Hstore. do 2 f_equal. lia.
  - apply Forall_cons in Hts as [Ht Hts]. cbn [attempts map].
    fold (attempts client_ip ts). rewrite serve_cons.
    rewrite (rate_limiter_in_window _ _ _ _ count t0) by done.
    cbn [length seq fst snd]. rewrite !fmap_cons.
    rewrite <- fmap_S_seq, <- list_fmap_compose.
    destruct (decide (count >= times)) as [Hfull|Hroom]; cbn [fst snd].
    + destruct (IH count store Hstore Hcount Hts) as [-> ->]. split.
      * cbn [let_through]. rewrite bool_decide_eq_false_2 by lia. f_equal.
        apply list_fmap_ext. intros i x _. cbn.
        rewrite !bool_decide_eq_false_2 by lia. done.
      * do 2 f_equal. lia.
    + destruct (IH (count + 1) (<[client_ip := (count + 1, t0)]> store)) as [-> ->];
        [apply lookup_insert_eq|lia|done|]. split.
      * cbn [let_through]. rewrite bool_decide_eq_true_2 by lia. f_equal.
        apply list_fmap_ext. intros i x _. cbn. apply bool_decide_ext. lia.
      * do 2 f_equal. lia.
Qed.

(** X15. The login limit is a fixed window that opens with its first
    request.  An address without a running window makes login attempts at
    [t0] and then at times less than 60 s after [t0]: the first is let
    through and the later ones are let through until [max times 1] are, every
    further one gets 429; the store keeps [t0] as the start of the window
    whatever was refused, so an attempt 60 s after [t0] or later is let
    through again and opens a new window. *)
Theorem rate_limiter_fixed_window times client_ip t0 ts store :
  match store !! client_ip with
  | Some (_, last_time) => ¬ t0 - last_time < 60 * sec
  | None => True
  end →
  Forall (λ t, t - t0 < 60 * sec) ts →
  let r := serve times (attempts client_ip (t0 :: ts)) store in
  let_through <$> r.1
  = (λ i : nat, bool_decide (Z.of_nat i < times `max` 1)) <$> seq 0 (S (length ts))
  ∧ r.2 !! client_ip
    = Some ((times `max` 1) `min` Z.of_nat (S (length ts)), t0)
  ∧ ∀ t, 60 * sec ≤ t - t0 →
      serve times (attempts client_ip [t]) r.2
      = ([Ok ()], <[client_ip := (1, t)]> r.2).
Proof.
  intros Hfree Hts r. subst r. cbn [attempts map]. fold (attempts client_ip ts).
  rewrite serve_cons, rate_limiter_new_window by done. cbn [fst snd].
  destruct (serve_window times client_ip t0 ts 1 (<[client_ip := (1, t0)]> store))
    as [Hv Hs]; [apply lookup_insert_eq|lia|done|].
  split; [|split].
  - cbn [seq]. rewrite !fmap_cons. cbn [let_through]. rewrite Hv.
    rewrite bool_decide_eq_true_2 by lia. f_equal.
    rewrite <- fmap_S_seq, <- list_fmap_compose.
    apply list_fmap_ext. intros i x _. cbn. apply bool_decide_ext. lia.
  - rewrite Hs. do 2 f_equal. lia.
  - intros t Ht. cbn [attempts map]. rewrite serve_cons.
    rewrite rate_limiter_new_window; [done|]. rewrite Hs. lia.
Qed.

Lemma rate_limiter_local times path client_ip t store store' :
  store !! client_ip = store' !! client_ip →
  (rate_limiter times path client_ip t store).2
  = (rate_limiter times path client_ip t store').2
  ∧ (rate_limiter times path client_ip t store).1 !! client_ip
    = (rate_limiter times path client_ip t store').1 !! client_ip.
Proof.
  intros Hsame. unfold rate_limiter. case_bool_decide; [|done]. cbv zeta.
  rewrite <- Hsame. destruct (store !! client_ip) as [[count last_time]|] eqn:Hstore.
  - case_bool_decide.
    + case_bool_decide; cbn [fst snd]; [by rewrite Hstore|].
      by rewrite !lookup_insert_eq.
    + cbn [fst snd]. by rewrite !lookup_insert_eq.
  - cbn [fst snd]. by rewrite !lookup_insert_eq.
Qed.

Lemma rate_limiter_other times path client_ip ip t store :
  ip ≠ client_ip →
  (rate_limiter times path ip t store).1 !! client_ip = store !! client_ip.
Proof.
  intros Hne. unfold rate_limiter. case_bool_decide; [|done]. cbv zeta.
  destruct (store !! ip) as [[count last_time]|].
  - case_bool_decide.
    + case_bool_decide; cbn [fst]; [done|]. by rewrite lookup_insert_ne.
    + cbn [fst]. by rewrite lookup_insert_ne.
  - cbn [fst]. by rewrite lookup_insert_ne.
Qed.

(** X16. The login limit is kept per address.  In any sequence of requests,
    the verdicts on the requests of one address, and the entry the store
    ends with for it, are those the address would get if its requests were
    the only ones and the store held nothing else: no other address uses up
    its budget or restarts its window. *)
Theorem rate_limiter_per_address times client_ip requests : ∀ store store',
  store !! client_ip = store' !! client_ip →
  let own := filter (λ r, r.1.2 = client_ip) requests in
  verdicts_of client_ip requests (serve times requests store).1
  = (serve times own store').1
  ∧ (serve times requests store).2 !! client_ip
    = (serve times own store').2 !! client_ip.
Proof.
  induction requests as [|[[path ip] t] rest IH]; intros store store' Hsame own.
  - done.
  - subst own. rewrite serve_cons. cbn [fst snd verdicts_of].
    destruct (decide (ip = client_ip)) as [->|Hne].
    + rewrite filter_cons_True by done. rewrite serve_cons. cbn [fst snd].
      destruct (rate_limiter_local times path client_ip t store store' Hsame)
        as [Hv Hs].
      destruct (IH _ _ Hs) as [IHv IHs]. split; [|done].
      rewrite Hv. f_equal. apply IHv.
    + rewrite filter_cons_False by done. apply IH.
      by rewrite rate_limiter_other.
Qed.

Lemma rate_limiter_per_address_witness :
  let_through
    <$> verdicts_of "10.0.0.1"
          [("/api/login", "10.0.0.1", 0); ("/api/login", "10.0.0.2", 1 * sec);
           ("/api/login", "10.0.0.1", 2 * sec); ("/api/login", "10.0.0.2", 3 * sec);
           ("/api/login", "10.0.0.1", 4 * sec)]
          (serve 2
             [("/api/login", "10.0.0.1", 0); ("/api/login", "10.0.0.2", 1 * sec);
              ("/api/login", "10.0.0.1", 2 * sec); ("/api/login", "10.0.0.2", 3 * sec);
              ("/api/login", "10.0.0.1", 4 * sec)] ∅).1
  = [true; true; false].
Proof.
  rewrite (proj1 (rate_limiter_per_address 2 "10.0.0.1" _ ∅ ∅ eq_refl)).
  by vm_compute.
Defined.

Lemma rate_limiter_fixed_window_witness :
  let_through <$> (serve 2 (attempts "10.0.0.1" [0; 1 * sec; 59 * sec]) ∅).1
  = [true; true; false]
  ∧ serve 2 (attempts "10.0.0.1" [60 * sec])
      (serve 2 (attempts "10.0.0.1" [0; 1 * sec; 59 * sec]) ∅).2
    = ([Ok ()],
       <["10.0.0.1" := (1, 60 * sec)]>
         (serve 2 (attempts "10.0.0.1" [0; 1 * sec; 59 * sec]) ∅).2).
Proof.
  destruct (rate_limiter_fixed_window 2 "10.0.0.1" 0 [1 * sec; 59 * sec] ∅)
    as (Hv & _ & Hnext).
  - by rewrite lookup_empty.
  - repeat constructor; by vm_compute.
  - split; [exact Hv|]. apply Hnext. by vm_compute.
Defined.

Lemma login_issues_canonical_room_witness :
  login tag_dumps "123" = Ok ("000123", "t000123").
Proof.
  assert (LoginRequest "123") as Hbody by (unfold LoginRequest; cbn; lia).
  exact (proj1 (login_issues_canonical_room tag_dumps "123" Hbody eq_refl)).
Defined.

Lemma session_round_trip_witness :
  get_room_id_from_cookie tag_loads [("room_session", "t000123")] = Ok "000123".
Proof.
  refine (proj1 (session_round_trip tag_dumps tag_loads "123" "000123" "t000123"
                   [("room_session", "t000123")] _ _ _ _ _)); done.
Defined.

Lemma websocket_open_sound_witness :
  let r := websocket_open tag_loads all_delivered 3 "000123" "room_session=t000123"
             (2000 * sec) duo in
  verify_room_id "000123" = true
  ∧ (∃ request_cookies,
       MockRequest "room_session=t000123" = Some request_cookies
       ∧ get_room_id_from_cookie tag_loads request_cookies = Ok "000123")
  ∧ r.1.1 = connect 3 "000123" (2000 * sec) duo
  ∧ 3%nat ∈ members r.1.1 "000123"
  ∧ recipients r.1.2 = [3%nat].
Proof.
  apply (websocket_open_sound tag_loads all_delivered 3 "000123"
           "room_session=t000123" (2000 * sec) duo); [reflexivity|].
  intros request_cookies token payload rendered Hreq Hcookie Hloads Hstr.
  vm_compute in Hreq. injection Hreq as <-.
  vm_compute in Hcookie. injection Hcookie as <-.
  vm_compute in Hloads. injection Hloads as <-.
  vm_compute in Hstr. injection Hstr as <-. reflexivity.
Defined.

Lemma login_opens_own_room_only_witness :
  websocket_handshake tag_loads "000123" "room_session=t000123" = Proceed "000123"
  ∧ websocket_handshake tag_loads "000124" "room_session=t000123"
    = Close 4003 "Room ID mismatch".
Proof.
  split.
  - refine (login_opens_own_room_only tag_dumps tag_loads "123" "000123" "t000123"
              "000123" _ _ _ _ _ _); done.
  - refine (login_opens_own_room_only tag_dumps tag_loads "123" "000123" "t000123"
              "000124" _ _ _ _ _ _); done.
Defined.

(** * The log adapter *)

Section adapter_facts.
Context {V : Type}.
Variable of_str : string → V.
Implicit Types (fields extra d e : list (string * V)) (k : string).

Lemma dict_update_NoDup d e : NoDup (okeys d) → NoDup (okeys (dict_update d e)).
Proof.
  revert d. induction e as [|[k v] e IH]; intros d Hd; [done|].
  cbn. apply IH. by apply NoDup_okeys_oset.
Qed.

Lemma upload_not_builtin : "upload_filename" ∉ builtin_fields.
Proof.
  unfold builtin_fields. rewrite !not_elem_of_cons.
  repeat split; try done. apply not_elem_of_nil.
Qed.

Lemma copy_field_other fields kv k :
  k ≠ "upload_filename" → k ≠ kv.1 →
  oget k (copy_field fields kv) = oget k fields.
Proof.
  intros Hup Hk. unfold copy_field.
  case_bool_decide; [by rewrite oget_oset_ne|].
  case_bool_decide; [done|]. by rewrite oget_oset_ne.
Qed.

Lemma copy_field_builtin fields kv k :
  k ∈ builtin_fields → oget k (copy_field fields kv) = oget k fields.
Proof.
  intros Hk. unfold copy_field.
  case_bool_decide as Hf.
  - rewrite oget_oset_ne; [done|]. intros <-. by apply upload_not_builtin.
  - case_bool_decide as Hb; [done|]. rewrite oget_oset_ne; [done|].
    intros Heq. apply Hb. by rewrite Heq.
Qed.

Lemma copy_fields_builtin extra k : ∀ fields,
  k ∈ builtin_fields →
  oget k (fold_left copy_field extra fields) = oget k fields.
Proof.
  induction extra as [|kv extra IH]; intros fields Hk; [done|].
  cbn. rewrite IH by done. by apply copy_field_builtin.
Qed.

Lemma copy_fields_other extra k : ∀ fields,
  NoDup (okeys extra) →
  k ∉ builtin_fields → k ≠ "upload_filename" →
  oget k (fold_left copy_field extra fields)
  = match oget k extra with
    | Some v => Some v
    | None => oget k fields
    end.
Proof.
  induction extra as [|[key value] extra IH]; intros fields Hnd Hb Hup; [done|].
  apply NoDup_cons in Hnd as [Hkey Hnd]. cbn [fold_left oget].
  rewrite IH by done. destruct (decide (k = key)) as [->|Hne].
  - assert (oget key extra = None) as ->.
    { destruct (oget key extra) eqn:Hget; [|done].
      exfalso. apply Hkey. by eapply oget_Some_keys. }
    unfold copy_field. cbn [fst snd].
    rewrite bool_decide_eq_false_2.
    2: { intros ->. apply Hb. apply list_elem_of_here. }
    rewrite (bool_decide_eq_false_2 (key ∈ _)) by done.
    apply oget_oset_eq.
  - destruct (oget k extra); [done|]. by apply copy_field_other.
Qed.

Lemma copy_fields_upload extra : ∀ fields,
  NoDup (okeys extra) →
  oget "upload_filename" extra = None →
  oget "upload_filename" (fold_left copy_field extra fields)
  = match oget "filename" extra with
    | Some v => Some v
    | None => oget "upload_filename" fields
    end.
Proof.
  induction extra as [|[key value] extra IH]; intros fields Hnd Hup; [done|].
  apply NoDup_cons in Hnd as [Hkey Hnd]. cbn [fold_left oget] in *.
  destruct (decide ("upload_filename" = key)) as [<-|Hne]; [done|].
  rewrite IH by done. destruct (decide ("filename" = key)) as [<-|Hf].
  - assert (oget "filename" extra = None) as ->.
    { destruct (oget "filename" extra) eqn:Hget; [|done].
      exfalso. apply Hkey. by eapply oget_Some_keys. }
    unfold copy_field. cbn [fst snd]. rewrite bool_decide_eq_true_2 by done.
    apply oget_oset_eq.
  - destruct (oget "filename" extra); [done|].
    unfold copy_field. cbn [fst snd].
    rewrite bool_decide_eq_false_2 by congruence.
    case_bool_decide; [done|]. by rewrite oget_oset_ne by congruence.
Qed.

(** X18. The fields a log call ends with.  For an adapter whose own fields
    have distinct keys, and whatever the call passes: the fields [process]
    returns always hold [user_id], [event] and [room_id]; they never hold
    [filename], [module], [lineno], [pathname] or [funcName]; every other
    field of the merged extras, [upload_filename] apart, is carried over with
    its value; [user_id] falls back to [client_id] and then to "unknown",
    [event] to the message, [room_id] to the empty string; and a [filename]
    is carried as [upload_filename] when the extras give no field of that
    name. *)
Theorem process_fields self_extra msg kwargs_extra :
  NoDup (okeys self_extra) →
  let extra :=
    match kwargs_extra with
    | Some e => dict_update self_extra e
    | None => self_extra
    end in
  let fields := process of_str self_extra msg kwargs_extra in
  (∀ k, k ∈ builtin_fields → oget k fields = None)
  ∧ (∀ k v, k ∉ builtin_fields → k ≠ "upload_filename" →
       oget k extra = Some v → oget k fields = Some v)
  ∧ oget "user_id" fields
    = Some (default (default (of_str "unknown") (oget "client_id" extra))
                    (oget "user_id" extra))
  ∧ oget "event" fields = Some (default (of_str msg) (oget "event" extra))
  ∧ oget "room_id" fields = Some (default (of_str "") (oget "room_id" extra))
  ∧ (oget "upload_filename" extra = None →
     oget "upload_filename" fields = oget "filename" extra).
Proof.
  intros Hself extra fields.
  assert (NoDup (okeys extra)) as Hnd.
  { subst extra. destruct kwargs_extra; [by apply dict_update_NoDup|done]. }
  subst fields. unfold process. fold extra.
  assert (("user_id" ∉ builtin_fields) ∧ ("event" ∉ builtin_fields)
          ∧ ("room_id" ∉ builtin_fields)) as (Huser & Hevent & Hroom).
  { unfold builtin_fields. rewrite !not_elem_of_cons.
    repeat split; try done; apply not_elem_of_nil. }
  split; [|split; [|split; [|split; [|split]]]].
  - intros k Hk. rewrite copy_fields_builtin by done.
    revert Hk. unfold builtin_fields. rewrite !elem_of_cons, !elem_of_nil.
    intros [->|[->|[->|[->|[->|[]]]]]]; done.
  - intros k v Hb Hup Hget. rewrite copy_fields_other by done. by rewrite Hget.
  - rewrite copy_fields_other by done. by destruct (oget "user_id" extra).
  - rewrite copy_fields_other by done. by destruct (oget "event" extra).
  - rewrite copy_fields_other by done. by destruct (oget "room_id" extra).
  - intros Hnone. rewrite copy_fields_upload by done.
    by destruct (oget "filename" extra).
Qed.

End adapter_facts.

Lemma process_fields_witness :
  oget "user_id"
    (process JStr [] "login" (Some [("client_id", JStr "alice"); ("filename", JStr "a.txt")]))
  = Some (JStr "alice")
  ∧ oget "filename"
      (process JStr [] "login" (Some [("client_id", JStr "alice"); ("filename", JStr "a.txt")]))
    = None.
Proof.
  destruct (process_fields JStr [] "login"
              (Some [("client_id", JStr "alice"); ("filename", JStr "a.txt")]))
    as (Hb & _ & Hu & _); [apply NoDup_nil_2|].
  split; [exact Hu|]. apply Hb. unfold builtin_fields. apply list_elem_of_here.
Defined.

(** ** The whole session *)

Lemma deref_alloc h frame : deref (alloc h frame).1 (alloc h frame).2 = frame.
Proof. unfold deref, alloc. cbn. by rewrite lookup_app_r, Nat.sub_diag by lia. Qed.

Lemma session_loop_defined send_json_ok websocket room_id closing frames : ∀ s h,
  Forall (λ f, register_typed room_id f.1) frames →
  is_Some (session_loop send_json_ok websocket room_id frames closing s h).
Proof.
  induction frames as [|[frame now] frames IH]; intros s h Hplain.
  - cbn. destruct (disconnect websocket room_id closing s). by eexists.
  - apply Forall_cons in Hplain as [Hframe Hplain]. cbn [session_loop].
    pose proof (deref_alloc h frame) as Hderef.
    destruct (alloc h frame) as [h0 data]. cbn [fst snd] in Hderef.
    destruct (handle_frame_typed send_json_ok websocket room_id data now s h0)
      as [[[[s1 h1] evs] st] ->]; [by rewrite Hderef|].
    destruct st; [|by eexists].
    destruct (IH s1 h1 Hplain) as [[[s2 h2] evs'] ->]. by eexists.
Qed.

Lemma session_loop_effect send_json_ok websocket room_id closing frames : ∀ s h s' h' evs,
  sockets_unique s →
  websocket ∈ members s (normalize_room_id room_id) →
  session_loop send_json_ok websocket room_id frames closing s h = Some (s', h', evs) →
  removed websocket s'
  ∧ ∀ room w, w ≠ websocket → w ∈ members s' room ↔ w ∈ members s room.
Proof.
  induction frames as [|[frame now] frames IH]; intros s h s' h' evs Hu Hin.
  - cbn [session_loop].
    pose proof (disconnect_removes websocket room_id closing s) as Hgone.
    pose proof (disconnect_members websocket room_id closing s) as Hm.
    destruct (disconnect websocket room_id closing s) as [s2 report].
    cbn [fst] in *. intros [= <- <- <-]. split.
    + apply Hgone; [apply Hu|]. intros room Hroom. destruct Hu as [_ Hone].
      by apply (Hone _ _ websocket).
    + intros room w Hne. rewrite Hm. case_decide; [by apply remove_first_iff|done].
  - cbn [session_loop]. destruct (alloc h frame) as [h0 data].
    destruct (handle_frame send_json_ok websocket room_id data now s h0)
      as [[[[s1 h1] evs1] st]|] eqn:Hrun; [|done].
    pose proof (handle_frame_effect _ _ _ _ _ _ _ _ _ _ _ Hu Hin Hrun) as Heff.
    destruct st.
    + destruct Heff as [Hac _].
      assert (∀ room, members s1 room = members s room) as Hm
        by (intros room; unfold members; by rewrite Hac).
      destruct (session_loop send_json_ok websocket room_id frames closing s1 h1)
        as [[[s2 h2] evs2]|] eqn:Hrest; [|done].
      intros [= <- <- <-].
      destruct (IH s1 h1 s2 h2 evs2) as [Hgone Hothers]; [| |done|].
      * destruct Hu as [Hnodup Hone]. split.
        -- intros room. rewrite Hm. apply Hnodup.
        -- intros room room' w. rewrite !Hm. apply Hone.
      * by rewrite Hm.
      * split; [done|]. intros room w Hne. rewrite Hothers by done. by rewrite Hm.
    + intros [= <- <- <-]. by destruct Heff as (Hgone & _ & Hothers).
Qed.

(** X19. A session ends with its socket unregistered.  For a socket that
    sits in its room (each socket once, in one room), the frames it delivers
    handled one after another with no other handler changing the registry
    meanwhile, each register frame among them giving a string as
    [client_id] and a string or an integer as [room_id]: the loop comes to
    an end, because a turn failed or because the peer has gone, and the
    registry is then left without the socket (no connect time, no label, no
    membership), every other socket being in the rooms it was in when the
    session began. *)
Theorem session_ends_unregistered send_json_ok websocket room_id frames closing s h :
  sockets_unique s →
  websocket ∈ members s (normalize_room_id room_id) →
  Forall (λ f, register_typed room_id f.1) frames →
  ∃ s' h' evs,
    session_loop send_json_ok websocket room_id frames closing s h
    = Some (s', h', evs)
    ∧ removed websocket s'
    ∧ ∀ room w, w ≠ websocket → w ∈ members s' room ↔ w ∈ members s room.
Proof.
  intros Hu Hin Htyped.
  destruct (session_loop_defined send_json_ok websocket room_id closing frames s h
              Htyped) as [[[s' h'] evs] Hrun].
  exists s', h', evs. split; [done|]. by eapply session_loop_effect.
Qed.

Lemma session_ends_unregistered_witness :
  ∃ s' h' evs,
    session_loop all_delivered 1 "000123"
      [(ping_frame, 2000 * sec);
       ([("type", JStr "register_client"); ("client_id", JStr "carol")], 2001 * sec)]
      (2002 * sec) duo []
    = Some (s', h', evs)
    ∧ removed 1 s'.
Proof.
  destruct (session_ends_unregistered all_delivered 1 "000123"
              [(ping_frame, 2000 * sec);
               ([("type", JStr "register_client"); ("client_id", JStr "carol")],
                2001 * sec)]
              (2002 * sec) duo [])
    as (s' & h' & evs & Hrun & Hgone & _).
  - by destruct (reachable_invariants duo reachable_duo) as (Hu & _).
  - apply (bool_decide_unpack _). by vm_compute.
  - apply Forall_cons_2; [|apply Forall_cons_2; [|apply Forall_nil_2]].
    + intros type Htype Hkind. vm_compute in Htype. injection Htype as <-.
      vm_compute in Hkind. discriminate Hkind.
    + intros type Htype Hkind. right. exists "carol".
      split; [reflexivity|]. by eexists.
  - by exists s', h', evs.
Defined.


(** * Broadcast while other handlers run *)






Section live_facts.
Variable send_json_ok : nat → list (string * json) → bool.


Lemma broadcast_live_loop_undisturbed schedule s R message :
  undisturbed schedule →
  ∀ index h sent failed,
    broadcast_live_loop send_json_ok schedule s R message true index h sent failed
    = (s,
       (broadcast_loop send_json_ok s R message
          (drop index (default [] (active_connections s !! R))) h sent failed).1.1.1,
       (broadcast_loop send_json_ok s R message
          (drop index (default [] (active_connections s !! R))) h sent failed).1.1.2,
       (broadcast_loop send_json_ok s R message
          (drop index (default [] (active_connections s !! R))) h sent failed).1.2,
       (broadcast_loop send_json_ok s R message
          (drop index (default [] (active_connections s !! R))) h sent failed).2).
Proof.
  induction 1 as [|ops schedule -> Hrest IH]; intros index h sent failed.
  - cbn [broadcast_live_loop].
    by destruct (broadcast_loop send_json_ok s R message _ h sent failed)
      as [[[h1 e1] a1] b1].
  - cbn [broadcast_live_loop interfere].
    destruct (default [] (active_connections s !! R) !! index) as [connection|]
      eqn:Hget.
    + rewrite (drop_S _ _ _ Hget). cbn [broadcast_loop].
      destruct (broadcast_one send_json_ok s R message connection h) as [[h1 evs] ok].
      rewrite IH.
      by destruct (broadcast_loop send_json_ok s R message _ h1 _ _)
        as [[[h2 e2] a2] b2].
    + rewrite drop_ge by (by apply lookup_ge_None). done.
Qed.

(** With nobody else running, the call is the call of the registry taken
    alone. *)
Lemma broadcast_live_undisturbed schedule room_id message s h :
  undisturbed schedule →
  broadcast_live send_json_ok schedule room_id message s h
  = (s, broadcast send_json_ok room_id message s h).
Proof.
  intros Hquiet. unfold broadcast_live, broadcast.
  destruct (content_summary (deref h message)); [|done].
  destruct (active_connections s !! normalize_room_id room_id) as [conns|] eqn:Hroom;
    [|done].
  rewrite broadcast_live_loop_undisturbed by done. cbv beta iota.
  rewrite Hroom. change (drop 0 (default [] (Some conns))) with conns.
  destruct (broadcast_loop send_json_ok s (normalize_room_id room_id) message conns h 0 0)
    as [[[h1 e1] a1] b1].
  reflexivity.
Qed.

End live_facts.



(** C5, as stated, fails also when the room changes during the call.  Room
    000123 holds sockets 1 and 2; socket 1 disconnects while the send to it
    is awaited: the iterator then finds nothing at index 1 and the loop ends
    without an attempt on socket 2, a member at call time and still one.  And
    when the only member of a room disconnects during the send to it, the
    room is deleted and the call raises [KeyError] after the loop. *)
Lemma broadcast_skips_and_raises_when_room_changes :
  members duo "000123" = [1; 2]%nat
  ∧ recipients
      (br_trace (broadcast_live all_delivered [[Disconnect 1 "000123" (2000 * sec)]]
                   "000123" 0 duo [alice_says_hi]).2) = [1%nat]
  ∧ members (broadcast_live all_delivered [[Disconnect 1 "000123" (2000 * sec)]]
               "000123" 0 duo [alice_says_hi]).1 "000123" = [2%nat]
  ∧ members lobby "000123" = [1%nat]
  ∧ br_outcome
      (broadcast_live all_delivered [[Disconnect 1 "000123" (2000 * sec)]]
         "000123" 0 lobby [alice_says_hi]).2 = Raised KeyError.
Proof. repeat split; vm_compute; reflexivity. Qed.



(** * The deletion notice *)

Lemma broadcast_loop_no_copy send_json_ok s R message conns : ∀ h sent failed,
  omem "client_id" (deref h message) = false →
  (broadcast_loop send_json_ok s R message conns h sent failed).1.1.1 = h.
Proof.
  induction conns as [|connection rest IH]; intros h sent failed Hno; [done|].
  cbn [broadcast_loop]. unfold broadcast_one. rewrite Hno, andb_false_r.
  destruct (send_json_ok connection (deref h message)).
  - specialize (IH h (S sent) failed Hno).
    by destruct (broadcast_loop send_json_ok s R message rest h _ _) as [[[h2 e] a] b].
  - specialize (IH h sent (S failed) Hno).
    by destruct (broadcast_loop send_json_ok s R message rest h _ _) as [[[h2 e] a] b].
Qed.

(** A message without [client_id] is sent as it is and never copied,
    whatever the others do meanwhile. *)
Lemma broadcast_live_loop_plain send_json_ok schedule :
  ∀ s R message attached index h sent failed,
    (message < length h)%nat →
    omem "client_id" (deref h message) = false →
    let r := broadcast_live_loop send_json_ok schedule s R message attached index h
               sent failed in
    r.1.1.1.2 = h
    ∧ ∀ ws payload ok, (ws, payload, ok) ∈ sends r.1.1.2 → payload = deref h message.
Proof.
  induction schedule as [|ops schedule IH];
    intros s R message attached index h sent failed Hlt Hno.
  - cbn [broadcast_live_loop].
    set (conns := drop index (if attached then default [] (active_connections s !! R)
                              else [])).
    destruct (broadcast_loop_spec send_json_ok s R message conns h sent failed Hlt)
      as (h' & _ & Hs & _).
    pose proof (broadcast_loop_no_copy send_json_ok s R message conns h sent failed Hno)
      as Hsame.
    destruct (broadcast_loop send_json_ok s R message conns h sent failed)
      as [[[h1 e1] a1] b1].
    cbn [fst snd] in *. split; [done|].
    intros ws payload ok Hin. rewrite Hs in Hin.
    apply list_elem_of_fmap in Hin as (ws' & Heq & _).
    unfold outbound in Heq. rewrite Hno, andb_false_r in Heq. by inversion Heq.
  - cbn [broadcast_live_loop].
    destruct ((if attached then default [] (active_connections s !! R) else []) !! index)
      as [connection|];
      [|split; [done|intros ws p ok Hin; by apply elem_of_nil in Hin]].
    unfold broadcast_one. rewrite Hno, andb_false_r.
    destruct (interfere R ops s attached) as [s1 attached1].
    set (ok := send_json_ok connection (deref h message)).
    destruct (IH s1 R message attached1 (S index) h
                (if ok then S sent else sent) (if ok then failed else S failed) Hlt Hno)
      as [IHh IHp].
    destruct ok;
      destruct (broadcast_live_loop send_json_ok schedule s1 R message attached1
                  (S index) h _ _) as [[[[s2 h2] e2] a2] b2];
      cbn [fst snd] in *; (split; [done|]);
      intros ws payload flag; rewrite sends_app, elem_of_app; intros [Hin|Hin];
      try (by apply IHp in Hin);
      cbn in Hin; apply list_elem_of_singleton in Hin; by inversion Hin.
Qed.

(** X17. The deletion notice goes out as it is.  The notice [delete_record]
    broadcasts carries no [client_id]: whatever other handlers do while the
    sends are awaited, every attempt carries the three-field notice itself,
    no copy of it is made and nothing in it is replaced, in a room of the
    safe list too, and the call returns or, when the room has been deleted
    meanwhile, raises [KeyError] after the loop.  When no other handler
    changes the registry meanwhile, the call returns, every connection of the
    record's room (under its canonical id) is tried once, in the order of
    the room's list, and the two counters add up to the size of the room. *)
Theorem delete_notice_reaches_room send_json_ok schedule record_id room_id s h :
  let notice := delete_message record_id room_id in
  let r := (broadcast_delete_live send_json_ok schedule record_id room_id s h).2 in
  br_heap r = h ++ [notice]
  ∧ (∀ ws payload ok, (ws, payload, ok) ∈ sends (br_trace r) → payload = notice)
  ∧ (br_outcome r = Returned ∨ br_outcome r = Raised KeyError)
  ∧ (undisturbed schedule →
     br_outcome r = Returned
     ∧ sends (br_trace r)
       = map (fun ws => (ws, notice, send_json_ok ws notice))
           (members s (normalize_room_id room_id))
     ∧ (successful_sends r + failed_sends r
        = length (members s (normalize_room_id room_id)))%nat).
Proof.
  cbv zeta. set (notice := delete_message record_id room_id).
  change (broadcast_delete_live send_json_ok schedule record_id room_id s h)
    with (broadcast_live send_json_ok schedule room_id (length h) s (h ++ [notice])).
  assert (deref (h ++ [notice]) (length h) = notice) as Hderef.
  { unfold deref. by rewrite lookup_app_r, Nat.sub_diag by lia. }
  assert (length h < length (h ++ [notice]))%nat as Hlt
    by (rewrite length_app; cbn; lia).
  assert (omem "client_id" (deref (h ++ [notice]) (length h)) = false) as Hno
    by (by rewrite Hderef).
  split; [|split; [|split]].
  - unfold broadcast_live. rewrite Hderef.
    change (content_summary notice) with (Some (JStr "")). cbv iota.
    destruct (active_connections s !! normalize_room_id room_id); [|done].
    destruct (broadcast_live_loop_plain send_json_ok schedule s
                (normalize_room_id room_id) (length h) true 0 (h ++ [notice]) 0 0 Hlt Hno)
      as [Hsame _].
    by destruct (broadcast_live_loop send_json_ok schedule s _ (length h) true 0 _ 0 0)
      as [[[[s2 h2] e2] a2] b2].
  - unfold broadcast_live. rewrite Hderef.
    change (content_summary notice) with (Some (JStr "")). cbv iota.
    destruct (active_connections s !! normalize_room_id room_id);
      [|intros ws p ok Hin; by apply elem_of_nil in Hin].
    destruct (broadcast_live_loop_plain send_json_ok schedule s
                (normalize_room_id room_id) (length h) true 0 (h ++ [notice]) 0 0 Hlt Hno)
      as [_ Hpay].
    rewrite Hderef in Hpay.
    by destruct (broadcast_live_loop send_json_ok schedule s _ (length h) true 0 _ 0 0)
      as [[[[s2 h2] e2] a2] b2].
  - unfold broadcast_live. rewrite Hderef.
    change (content_summary notice) with (Some (JStr "")). cbv iota.
    destruct (active_connections s !! normalize_room_id room_id); [|by left].
    destruct (broadcast_live_loop send_json_ok schedule s _ (length h) true 0 _ 0 0)
      as [[[[s2 h2] e2] a2] b2].
    cbn. destruct (active_connections s2 !! _); [by left|by right].
  - intros Hquiet. rewrite broadcast_live_undisturbed by done. cbn [snd].
    destruct (broadcast_spec send_json_ok room_id (length h) s (h ++ [notice]) Hlt)
      as (Hret & Hsends & Hsent & Hfailed & _); [rewrite Hderef; by eexists|].
    rewrite Hderef in Hsends, Hsent, Hfailed.
    assert (outbound s (normalize_room_id room_id) notice = notice) as Hout.
    { unfold outbound. by rewrite andb_false_r. }
    rewrite Hout in Hsends, Hsent, Hfailed.
    split; [done|]. split; [done|].
    rewrite Hsent, Hfailed. apply filter_split_length.
Qed.

Lemma delete_notice_reaches_room_witness :
  br_outcome (broadcast_delete_live first_dead [[]; []] 7 "000123" duo []).2 = Returned
  ∧ recipients
      (br_trace (broadcast_delete_live first_dead [[]; []] 7 "000123" duo []).2)
    = [1; 2]%nat.
Proof.
  destruct (delete_notice_reaches_room first_dead [[]; []] 7 "000123" duo [])
    as (_ & _ & _ & Halone).
  destruct Halone as (Hret & Hsends & _); [by repeat constructor|].
  split; [exact Hret|]. unfold recipients. rewrite Hsends. by vm_compute.
Defined.

(** * The classifier over runs *)

Lemma update_client_id_last_refresh websocket c room_id now s R client_id :
  ¬ (c = client_id ∧ normalize_room_id room_id = R) →
  last_refresh (update_client_id websocket c room_id now s).1.1 R client_id
  = last_refresh s R client_id.
Proof.
  intros Hother. unfold update_client_id, last_refresh.
  repeat (case_match; simpl in *; simplify_eq); try done;
    (destruct (decide (normalize_room_id room_id = R)) as [<-|Hne];
     [ rewrite lookup_insert_eq; cbn;
       rewrite lookup_insert_ne by (intros ->; by apply Hother);
       by match goal with H : _ !! _ = Some _ |- _ => rewrite H end
     | by rewrite lookup_insert_ne ]).
Qed.

(** An operation that leaves the room its connections, and is no Identify of
    the label in the room, leaves the room its timing maps and the label its
    refresh time. *)
Lemma step_keeps_refresh R client_id o s :
  is_Some (active_connections s !! R) →
  is_Some (active_connections (step o s).1 !! R) →
  identifies client_id R o = false →
  room_registered s R →
  room_registered (step o s).1 R
  ∧ last_refresh (step o s).1 R client_id = last_refresh s R client_id.
Proof.
  intros Hbefore Hafter Hid Hreg.
  assert (∀ ws r t s0,
            is_Some (active_connections (disconnect ws r t s0).1 !! R) →
            room_registered s0 R →
            room_registered (disconnect ws r t s0).1 R
            ∧ last_refresh_times (disconnect ws r t s0).1 !! R
              = last_refresh_times s0 !! R) as Hdisc.
  { intros ws r t s0. unfold room_registered.
    rewrite disconnect_active_connections, disconnect_last_connection_times,
      disconnect_last_refresh_times. cbv zeta.
    set (N := normalize_room_id r).
    destruct (active_connections s0 !! N) as [conns|]; [|done].
    destruct (decide (ws ∈ conns)); [|done].
    destruct (remove_first ws conns).
    - intros [HR _]%lookup_delete_is_Some.
      rewrite !lookup_delete_ne by done. done.
    - intros _ [Hc Hr]. split; [|done]. split; [|done].
      destruct (last_connection_times s0 !! N); [|done].
      case_bool_decide; [by apply insert_keeps_is_Some|done]. }
  destruct o as [ws r t|ws r t|ws c r t|r c t|ok t clock]; cbn [step fst] in *.
  - unfold room_registered, last_refresh.
    rewrite connect_last_connection_times, connect_last_refresh_times.
    destruct (active_connections s !! normalize_room_id r) as [conns|] eqn:Hroom;
      [done|].
    assert (normalize_room_id r ≠ R) as Hne.
    { intros Heq. rewrite <- Heq, Hroom in Hbefore. by destruct Hbefore. }
    rewrite !lookup_insert_ne by done. done.
  - destruct (Hdisc ws r t s Hafter Hreg) as [Hreg' Hsame].
    split; [done|]. unfold last_refresh. by rewrite Hsame.
  - split; [by apply update_client_id_keeps_registered|].
    apply update_client_id_last_refresh. intros Hsame.
    by apply bool_decide_eq_false in Hid.
  - done.
  - set (P := λ s' : ConnectionManager,
                is_Some (active_connections s' !! R) →
                room_registered s' R
                ∧ last_refresh_times s' !! R = last_refresh_times s !! R).
    assert (P (check_timeout_pass ok t clock s).1) as Hpass.
    { apply (check_timeout_pass_preserves P); [done| |by intros _].
      intros ws r t' s0 Hs0 Hroom.
      destruct (Hs0 (disconnect_rooms_subset _ _ _ _ _ Hroom)) as [Hreg0 Hsame0].
      destruct (Hdisc ws r t' s0 Hroom Hreg0) as [Hreg1 Hsame1].
      split; [done|congruence]. }
    destruct (Hpass Hafter) as [Hreg' Hsame]. split; [done|].
    unfold last_refresh. by rewrite Hsame.
Qed.

Lemma run_keeps_refresh R client_id ops : ∀ s,
  Forall (λ o, identifies client_id R o = false) ops →
  room_kept R ops s →
  room_registered s R →
  room_registered (run ops s) R
  ∧ last_refresh (run ops s) R client_id = last_refresh s R client_id.
Proof.
  induction ops as [|o ops IH]; intros s Hops Hkept Hreg; [done|].
  apply Forall_cons in Hops as [Ho Hops]. destruct Hkept as [Hbefore Hkept].
  cbn [run]. assert (is_Some (active_connections (step o s).1 !! R)) as Hafter
    by (by destruct ops; destruct Hkept).
  destruct (step_keeps_refresh R client_id o s Hbefore Hafter Ho Hreg) as [Hreg' Hsame].
  destruct (IH (step o s).1 Hops Hkept Hreg') as [Hreg'' Hsame'].
  split; [done|congruence].
Qed.

(** C4, as stated, fails on its last clause: the two Identify calls of
    "alice" at 2006 s and 2010 s both take the refresh branch (each comes 2 s
    after the time recorded for her) and lie 4 s apart, yet neither emits a
    notification, because the one emitted at 2002 s is less than 10 s old for
    both. *)
Lemma refresh_storm_yields_no_notice :
  0 < 2006 * sec - last_connection reload_storm "000123" "alice" < 5 * sec
  ∧ refresh_notices
      (update_client_id 4 "alice" "000123" (2006 * sec) reload_storm).1.2 = 0%nat
  ∧ 0 < 2010 * sec - last_connection reload_storm_on "000123" "alice" < 5 * sec
  ∧ refresh_notices
      (update_client_id 5 "alice" "000123" (2010 * sec) reload_storm_on).1.2 = 0%nat
  ∧ 2010 * sec - 2006 * sec ≤ 10 * sec.
Proof. repeat split; vm_compute; (reflexivity || discriminate). Qed.

(** C4, as stated, fails also on the reading of [t0] as the time of the last
    disconnect.  In room 000123 "alice" identified at 1001 s and nobody has
    disconnected; her Identify at 1003 s, from the same tab, takes the
    refresh branch and emits a refresh notification: the time the classifier
    reads is the one her own Identify wrote. *)
Lemma identify_again_is_refresh :
  last_connection duo "000123" "alice" = 1001 * sec
  ∧ refresh_notices (update_client_id 1 "alice" "000123" (1003 * sec) duo).1.2 = 1%nat
  ∧ connect_notices (update_client_id 1 "alice" "000123" (1003 * sec) duo).1.2 = 0%nat.
Proof. repeat split; vm_compute; reflexivity. Qed.

(** And two refresh-branch calls 4 s apart both emit a notification when the
    room has emptied in between, as the room's refresh times go with the
    room: the second tab's Identify at 1002 s and, after both tabs were
    closed and two new ones opened, the Identify of socket 4 at 1006 s. *)
Lemma refresh_notice_repeats_after_room_empties :
  0 < 1002 * sec - last_connection second_tab "000123" "alice" < 5 * sec
  ∧ refresh_notices
      (update_client_id 2 "alice" "000123" (1002 * sec) second_tab).1.2 = 1%nat
  ∧ 0 < 1006 * sec - last_connection reopened "000123" "alice" < 5 * sec
  ∧ refresh_notices
      (update_client_id 4 "alice" "000123" (1006 * sec) reopened).1.2 = 1%nat
  ∧ 1006 * sec - 1002 * sec ≤ 10 * sec.
Proof. repeat split; vm_compute; (reflexivity || discriminate). Qed.

(** C4, amended.  On Identify of a client in a room that has registry state,
    at time [t1], with [t0] the time recorded for the client in the room's
    last-connection map (0 if none; the client's Identify calls write it as
    well as its disconnects) and [lr] the time recorded for the client's
    last refresh notification (0 if none): the call returns; the refresh
    branch fires (no connect notification) exactly when [0 < t1 - t0 < 5s]
    and the fresh-connect branch (one connect notification) otherwise; a
    refresh notification is emitted exactly when the refresh branch fires and
    [t1 - lr > 10s]; in every branch the client's last-connect and
    last-activity times become [t1]; and of two refresh-branch Identify
    calls at most 10 seconds apart, between which the room never empties and
    the client is not identified in the room, at most one emits a
    notification, exactly one when the first of them comes more than 10
    seconds after the last recorded one. *)
Theorem reconnect_classifier websocket client_id room_id t1 s :
  let R := normalize_room_id room_id in
  let t0 := last_connection s R client_id in
  let lr := last_refresh s R client_id in
  room_registered s R →
  ∃ s1 evs,
    update_client_id websocket client_id room_id t1 s = (s1, evs, Returned)
    ∧ (connect_notices evs = 0%nat ↔ 0 < t1 - t0 < 5 * sec)
    ∧ (connect_notices evs = 1%nat ↔ ¬ (0 < t1 - t0 < 5 * sec))
    ∧ (refresh_notices evs = 1%nat ↔ 0 < t1 - t0 < 5 * sec ∧ t1 - lr > 10 * sec)
    ∧ (refresh_notices evs = 0%nat ↔ ¬ (0 < t1 - t0 < 5 * sec ∧ t1 - lr > 10 * sec))
    ∧ last_connection s1 R client_id = t1
    ∧ activity s1 R client_id = Some t1
    ∧ ∀ websocket' t2 ops,
        Forall (λ o, identifies client_id R o = false) ops →
        room_kept R ops s1 →
        0 < t1 - t0 < 5 * sec →
        0 < t2 - last_connection (run ops s1) R client_id < 5 * sec →
        t1 ≤ t2 ≤ t1 + 10 * sec →
        ∃ s2 evs2,
          update_client_id websocket' client_id room_id t2 (run ops s1)
          = (s2, evs2, Returned)
          ∧ (refresh_notices evs + refresh_notices evs2 ≤ 1)%nat
          ∧ (t1 - lr > 10 * sec →
             (refresh_notices evs + refresh_notices evs2 = 1)%nat).
Proof.
  intros R t0 lr Hreg.
  destruct (update_client_id_registered websocket client_id room_id t1 s Hreg)
    as (s1 & evs & Hrun & Hreg1 & Hlc & Hact & Hc1 & Hc0 & Hr1 & Hr0 & Hlr).
  fold R t0 lr in Hrun, Hreg1, Hlc, Hact, Hc1, Hc0, Hr1, Hr0, Hlr.
  exists s1, evs. repeat (split; [done|]).
  intros websocket' t2 ops Hops Hkept Hfirst Hsecond Hnear.
  destruct (run_keeps_refresh R client_id ops s1 Hops Hkept Hreg1) as [Hreg' Hsame].
  destruct (update_client_id_registered websocket' client_id room_id t2 (run ops s1) Hreg')
    as (s2 & evs2 & Hrun2 & _ & _ & _ & _ & _ & Hr1' & Hr0' & _).
  fold R in Hrun2, Hr1', Hr0'. rewrite Hsame, Hlr in Hr1', Hr0'.
  exists s2, evs2. split; [done|].
  destruct (decide (refresh_notices evs = 1%nat)) as [Hone|Hnot].
  - assert (refresh_notices evs2 = 0%nat) as Hzero by (apply Hr0'; lia).
    rewrite Hone, Hzero. done.
  - assert (refresh_notices evs = 0%nat) as Hzero by (apply Hr0; tauto).
    rewrite Hzero. split.
    + destruct (decide (t2 - lr > 10 * sec)).
      * assert (refresh_notices evs2 = 1%nat) as -> by (by apply Hr1'). simpl; lia.
      * assert (refresh_notices evs2 = 0%nat) as -> by (apply Hr0'; lia). simpl; lia.
    + intros Hout. tauto.
Qed.

Lemma reconnect_classifier_witness :
  ∃ s1 evs,
    update_client_id 1 "alice" "123" (2000 * sec) lobby = (s1, evs, Returned)
    ∧ connect_notices evs = 1%nat
    ∧ last_connection s1 "000123" "alice" = 2000 * sec.
Proof.
  destruct (reconnect_classifier 1 "alice" "123" (2000 * sec) lobby)
    as (s1 & evs & Hrun & _ & Hfresh & _ & _ & Hlc & _).
  - split; vm_compute; eauto.
  - exists s1, evs. split; [exact Hrun|]. split; [|exact Hlc].
    apply Hfresh. vm_compute. intros [_ H]. discriminate H.
Defined.

(** * The sweep as a whole *)

Lemma for_each_state_ext {A}
    (body body' : A → ConnectionManager → ConnectionManager * list event) :
  (∀ x s, (body x s).1 = (body' x s).1) →
  ∀ xs s, (for_each body xs s).1 = (for_each body' xs s).1.
Proof.
  intros Hbody. induction xs as [|x xs IH]; intros s; [done|]. cbn.
  pose proof (Hbody x s) as Hx.
  destruct (body x s) as [s1 evs], (body' x s) as [s1' evs1']. cbn in Hx. subst s1'.
  pose proof (IH s1) as Hrest.
  by destruct (for_each body xs s1), (for_each body' xs s1).
Qed.

(** The registry a pass leaves does not depend on which sends went through. *)
Lemma check_timeout_pass_oblivious send_json_ok send_json_ok' now clock s :
  (check_timeout_pass send_json_ok' now clock s).1
  = (check_timeout_pass send_json_ok now clock s).1.
Proof.
  assert (∀ room_id client_id s0,
            (check_client send_json_ok' now clock room_id client_id s0).1
            = (check_client send_json_ok now clock room_id client_id s0).1) as Hclient.
  { intros room_id client_id s0. unfold check_client.
    destruct (oget room_id (last_activity_times s0)); [|done].
    case_bool_decide; [|done].
    destruct (bound_websocket s0 room_id client_id (client_ids s0)) as [w|]; [|done].
    by destruct (disconnect w room_id (clock w) _). }
  assert (∀ room_id s0,
            (check_room send_json_ok' now clock room_id s0).1
            = (check_room send_json_ok now clock room_id s0).1) as Hroom.
  { intros room_id s0. unfold check_room.
    destruct (oget room_id (last_activity_times s0)); [|done].
    apply for_each_state_ext. intros; apply Hclient. }
  unfold check_timeout_pass.
  pose proof (for_each_state_ext _ _ Hroom (okeys (last_activity_times s)) s) as Hrooms.
  destruct (for_each (check_room send_json_ok' now clock) _ s) as [s1' evs1'].
  destruct (for_each (check_room send_json_ok now clock) _ s) as [s1 evs1].
  cbn in Hrooms. subst s1'.
  by destruct (for_each cleanup_room _ s1).
Qed.

(** Every event of a pass is the timeout signal with the outcome of its
    send, a log line of the signal, or a disconnect report: no entry's
    handler fails, as the room whose entries are being walked keeps its
    activity map until the end of the pass. *)
Lemma check_timeout_pass_log send_json_ok now clock s :
  Forall (sweep_log send_json_ok) (check_timeout_pass send_json_ok now clock s).2.
Proof.
  assert (∀ room_id client_id s0,
            is_Some (oget room_id (last_activity_times s0)) →
            is_Some (oget room_id
                       (last_activity_times
                          (check_client send_json_ok now clock room_id client_id s0).1))
            ∧ Forall (sweep_log send_json_ok)
                (check_client send_json_ok now clock room_id client_id s0).2) as Hclient.
  { intros room_id client_id s0 Hkey. unfold check_client.
    destruct (oget room_id (last_activity_times s0)) as [clients|] eqn:Hroom;
      [|by destruct Hkey].
    case_bool_decide; [|cbn [fst snd]; rewrite Hroom; split; [by eexists|constructor]].
    assert (is_Some (oget room_id (drop_activity room_id client_id (last_activity_times s0))))
      as Hkept.
    { unfold drop_activity. rewrite Hroom.
      destruct (omem client_id clients); [|by rewrite Hroom].
      rewrite oget_oset_eq. by eexists. }
    destruct (bound_websocket s0 room_id client_id (client_ids s0)) as [w|];
      [|split; [done|constructor]].
    pose proof (disconnect_last_activity_times w room_id (clock w)
                  (with_last_activity_times (drop_activity room_id client_id) s0)) as Hact.
    pose proof (disconnect_report w room_id (clock w)
                  (with_last_activity_times (drop_activity room_id client_id) s0)) as Hrep.
    destruct (disconnect w room_id (clock w) _) as [s2 report]. cbn [fst snd] in *.
    split; [by rewrite Hact|].
    apply Forall_app. split.
    - destruct (send_json_ok w session_timeout_message) eqn:Hsend;
        repeat constructor; done.
    - rewrite Hrep. cbv zeta. case_match; repeat constructor. }
  assert (∀ room_id s0,
            Forall (sweep_log send_json_ok)
              (check_room send_json_ok now clock room_id s0).2) as Hroom.
  { intros room_id s0. unfold check_room.
    destruct (oget room_id (last_activity_times s0)) as [clients|] eqn:Hkey; [|done].
    apply (for_each_invariant
             (λ s', is_Some (oget room_id (last_activity_times s')))
             (Forall (sweep_log send_json_ok))
             (check_client send_json_ok now clock room_id));
      [done|intros; by apply Forall_app| |by rewrite Hkey].
    intros client_id s' _. apply Hclient. }
  unfold check_timeout_pass.
  destruct (for_each_invariant (λ _, True) (Forall (sweep_log send_json_ok))
              (check_room send_json_ok now clock)) 
    with (xs := okeys (last_activity_times s)) (s := s) as [_ H1];
    [done|intros; by apply Forall_app|intros; split; [done|apply Hroom]|done|].
  destruct (for_each (check_room send_json_ok now clock) _ s) as [s1 evs].
  destruct (for_each_invariant (λ _, True) (Forall (sweep_log send_json_ok)) cleanup_room)
    with (xs := okeys (last_activity_times s1)) (s := s1) as [_ H2];
    [done|intros; by apply Forall_app| |done|].
  { intros room_id s' _ _. split; [done|]. unfold cleanup_room. by repeat case_match. }
  destruct (for_each cleanup_room _ s1) as [s2 evs']. cbn [fst snd] in *.
  by apply Forall_app.
Qed.

Lemma reachable_rooms_canonical s : reachable s → rooms_canonical s.
Proof.
  induction 1 as [safe|o s Hreach IH Hadm].
  - intros room. unfold init. cbn. rewrite lookup_empty. by intros [].
  - by apply step_rooms_canonical.
Qed.

(** The search finds a socket exactly when the label dict binds one of the
    room's connections to the label. *)
Lemma bound_websocket_None_iff s room client items :
  bound_websocket s room client items = None
  ↔ ∀ ws, (ws, client) ∈ items → ws ∉ members s room.
Proof.
  split; [apply bound_websocket_None|].
  intros Hnone. destruct (bound_websocket s room client items) as [ws|] eqn:Hfound;
    [|done].
  apply bound_websocket_Some in Hfound as [Hitem Hin]. by destruct (Hnone ws).
Qed.

(** C6. One pass of the idle sweeper at time [now], whichever sends fail.
    Over the whole pass an activity entry is removed exactly when
    [now - last_activity > 3600s] and is otherwise left as it was (removed at
    [t0 + 3601s], kept when the last activity was at [now - 3599s]).  In a
    registry the endpoint reaches, the pass evicts every socket that is its
    room's one connection under a label whose entry is stale: the timeout
    signal is tried on it, with the outcome of that send, and nothing of the
    socket is left; and it leaves alone every socket whose label's entry is
    absent or not stale.  The registry the pass leaves is the same whichever
    sends failed; the pass sends nothing but timeout signals and no entry's
    handler fails, so that every entry is handled.  The search for a live
    connection finds one exactly when the label dict binds a connection of
    the room to the label.  For one stale entry: when a live connection is
    found, the timeout signal is the first thing attempted and the connection
    is then disconnected whether or not the signal went through; when none is
    found only the activity entry is dropped; an entry that is not stale is
    left alone. *)
Theorem idle_sweeper send_json_ok now clock s :
  let pass := check_timeout_pass send_json_ok now clock s in
  (∀ room client,
     activity pass.1 room client = activity s room client ≫= surviving now)
  ∧ (∀ t, surviving now t = None ↔ now - t > 3600 * sec)
  ∧ (∀ t0, surviving (t0 + 3601 * sec) t0 = None)
  ∧ surviving now (now - 3599 * sec) = Some (now - 3599 * sec)
  ∧ (reachable s →
     ∀ websocket room client_id,
       idle now websocket room client_id s →
       removed websocket pass.1
       ∧ activity pass.1 room client_id = None
       ∧ Send websocket session_timeout_message
           (send_json_ok websocket session_timeout_message) ∈ pass.2)
  ∧ (reachable s →
     ∀ websocket room client_id,
       in_good_standing now websocket room client_id s →
       in_good_standing now websocket room client_id pass.1
       ∧ connection_times pass.1 !! websocket = connection_times s !! websocket
       ∧ activity pass.1 room client_id = activity s room client_id
       ∧ websocket ∉ recipients pass.2)
  ∧ (∀ send_json_ok', (check_timeout_pass send_json_ok' now clock s).1 = pass.1)
  ∧ (∀ websocket payload delivered,
       Send websocket payload delivered ∈ pass.2 →
       payload = session_timeout_message
       ∧ delivered = send_json_ok websocket session_timeout_message)
  ∧ (Error "client_timeout_check_error" ∉ pass.2)
  ∧ (∀ room_id client_id,
       (∀ websocket,
          bound_websocket s room_id client_id (client_ids s) = Some websocket →
          (websocket, client_id) ∈ client_ids s ∧ websocket ∈ members s room_id)
       ∧ (bound_websocket s room_id client_id (client_ids s) = None
          ↔ ∀ websocket, (websocket, client_id) ∈ client_ids s →
                         websocket ∉ members s room_id))
  ∧ ∀ room_id client_id clients t,
      oget room_id (last_activity_times s) = Some clients →
      oget client_id clients = Some t →
      let r := check_client send_json_ok now clock room_id client_id s in
      let s1 := with_last_activity_times (drop_activity room_id client_id) s in
      (¬ now - t > 3600 * sec → r = (s, []))
      ∧ (now - t > 3600 * sec →
         match bound_websocket s room_id client_id (client_ids s) with
         | Some ws =>
             let notified := send_json_ok ws session_timeout_message in
             r.1 = (disconnect ws room_id (clock ws) s1).1
             ∧ (∃ log, r.2 = [Send ws session_timeout_message notified; log]
                             ++ (disconnect ws room_id (clock ws) s1).2)
             ∧ oget ws (client_ids r.1) = None
             ∧ connection_times r.1 !! ws = None
             ∧ members r.1 (normalize_room_id room_id)
               = remove_first ws (members s (normalize_room_id room_id))
             ∧ activity r.1 room_id client_id = None
         | None => r = (s1, [])
         end).
Proof.
  intros pass.
  pose proof (check_timeout_pass_log send_json_ok now clock s) as Hlog. fold pass in Hlog.
  assert (∀ websocket payload delivered,
            Send websocket payload delivered ∈ pass.2 →
            payload = session_timeout_message
            ∧ delivered = send_json_ok websocket session_timeout_message) as Hsends.
  { intros websocket payload delivered Hin.
    rewrite Forall_forall in Hlog. destruct (Hlog _ Hin) as [-> ->]. done. }
  split; [intros; apply check_timeout_pass_activity|].
  assert (∀ now' t, surviving now' t = None ↔ now' - t > 3600 * sec) as Hsurv.
  { intros now' t. unfold surviving, timeout_seconds.
    case_decide; split; intros; (done || lia). }
  split; [apply Hsurv|].
  split; [intros t0; apply Hsurv; unfold sec; lia|].
  split.
  { unfold surviving, timeout_seconds, sec. rewrite decide_False; [done|lia]. }
  split.
  { intros Hreach websocket room client_id Hidle.
    destruct (check_timeout_pass_evicts send_json_ok now clock websocket room client_id s)
      as [Hgone [ok Hsig]].
    { destruct (reachable_invariants s Hreach) as (Hu & _ & _).
      split; [done|]. split; [by apply reachable_labels_distinct|]. split; [|done].
      destruct Hidle as (Hin & _). unfold members in Hin.
      apply (reachable_rooms_canonical s Hreach).
      destruct (active_connections s !! room); [done|]. by apply elem_of_nil in Hin. }
    fold pass in Hgone, Hsig. split; [done|]. split.
    - unfold pass. rewrite check_timeout_pass_activity.
      destruct Hidle as (_ & _ & _ & t & -> & Hstale). cbn.
      unfold surviving. by rewrite decide_True.
    - destruct (Hsends _ _ _ Hsig) as [_ ->]. done. }
  split.
  { intros Hreach websocket room client_id Hgood.
    destruct (check_timeout_pass_spares send_json_ok now clock websocket room client_id
                (connection_times s !! websocket) s) as [(_ & _ & Hg & Hct) Hquiet].
    { destruct (reachable_invariants s Hreach) as (Hu & _ & _).
      split; [done|]. split; [by apply reachable_labels_distinct|]. done. }
    fold pass in Hg, Hct, Hquiet. split; [done|]. split; [done|]. split; [|done].
    unfold pass. rewrite check_timeout_pass_activity.
    destruct Hgood as (_ & _ & Hfresh).
    destruct (activity s room client_id) as [t|] eqn:Hact; [|done]. cbn.
    unfold surviving. rewrite decide_False; [done|]. specialize (Hfresh t eq_refl). lia. }
  split; [intros; apply check_timeout_pass_oblivious|].
  split; [done|].
  split.
  { intros Hin. rewrite Forall_forall in Hlog. by specialize (Hlog _ Hin). }
  split.
  { intros room_id client_id. split.
    - intros websocket. apply bound_websocket_Some.
    - apply bound_websocket_None_iff. }
  intros room_id client_id clients t Hroom Hclient r s1. subst r.
  unfold check_client. rewrite Hroom, Hclient. cbn.
  unfold timeout_seconds. split.
  - intros Hfresh. by rewrite bool_decide_eq_false_2.
  - intros Hstale. rewrite bool_decide_eq_true_2 by done.
    destruct (bound_websocket s room_id client_id (client_ids s)) as [ws|]; [|done].
    fold s1. destruct (disconnect ws room_id (clock ws) s1) as [s2 report] eqn:Hdisc.
    cbn. assert (s2 = (disconnect ws room_id (clock ws) s1).1) as Hs2
      by (by rewrite Hdisc).
    split; [done|]. split.
    { destruct (send_json_ok ws session_timeout_message); eexists; reflexivity. }
    rewrite Hs2.
    rewrite disconnect_client_ids, disconnect_connection_times, disconnect_members,
      activity_disconnect.
    rewrite oget_odel_eq, lookup_delete_eq, decide_True by done.
    repeat split; try done.
    unfold s1. rewrite activity_drop. by rewrite decide_True.
Qed.

Lemma idle_sweeper_witness :
  removed 1 (check_timeout_pass first_dead (4602 * sec) at_4602 duo).1
  ∧ activity (check_timeout_pass first_dead (4602 * sec) at_4602 duo).1 "000123" "alice"
    = None
  ∧ Send 1%nat session_timeout_message false
    ∈ (check_timeout_pass first_dead (4602 * sec) at_4602 duo).2
  ∧ in_good_standing (4602 * sec) 2 "000123" "bob"
      (check_timeout_pass first_dead (4602 * sec) at_4602 duo).1.
Proof.
  destruct (idle_sweeper first_dead (4602 * sec) at_4602 duo)
    as (_ & _ & _ & _ & Hevicts & Hspares & _).
  destruct (Hevicts reachable_duo 1%nat "000123" "alice") as (Hgone & Hact & Hsig).
  - split; [|split; [|split]].
    + vm_compute. apply list_elem_of_here.
    + reflexivity.
    + intros w Hw Hlabel. vm_compute in Hw.
      apply elem_of_cons in Hw as [->|Hw]; [done|].
      apply elem_of_cons in Hw as [->|Hw]; [|by apply elem_of_nil in Hw].
      vm_compute in Hlabel. discriminate Hlabel.
    + exists (1001 * sec). split; [reflexivity|]. vm_compute. reflexivity.
  - destruct (Hspares reachable_duo 2%nat "000123" "bob") as (Hgood & _).
    + split; [|split].
      * vm_compute. apply list_elem_of_further, list_elem_of_here.
      * reflexivity.
      * intros t Ht. vm_compute in Ht. injection Ht as <-. vm_compute. discriminate.
    + exact (conj Hgone (conj Hact (conj Hsig Hgood))).
Defined.
